(** * iobus: a GPIO-emulated parallel bus to a CPLD HDLC controller

    Shallow embedding of [src/iobus.c] and the properties of its bus
    engine, its transmit and receive paths and its interrupt handler.

    The driver talks to two things it does not control: the pin-control
    registers of the SoC (through [ioread32]/[iowrite32]) and the kernel
    (spin lock, wait queues, user copies).  Both are modelled as an
    event log.  What an [ioread32] returns is decided by the hardware; it
    is a parameter [hw] of the development, a function of the whole log
    so far, so that every theorem holds for every hardware behaviour. *)

From Stdlib Require Import ZArith List Bool Lia.
Import ListNotations.
Local Open Scope Z_scope.

(** ** Machine integers *)

(** [u32] conversion: the value of an expression stored in a 32-bit
    unsigned object. *)
Definition wrap32 (x : Z) : Z := x mod 2 ^ 32.

(** [(unsigned char)] conversion. *)
Definition uchar (x : Z) : Z := x mod 256.

(** ** The header [iobus.h]

    The header is not part of the sources.  The constants the modelled
    functions take from it are the fields of this record, and every
    definition below is parameterised by it. *)
Record iobus_h : Type := {
  (* pin layout of the emulated bus *)
  GPIO4_ADDR_MSK : Z;
  CPLD_ADDR_SHIFT : Z;
  GPIO3_DATA_MSK : Z;
  CPLD_DATA_SHIFT : Z;
  (* CPLD register addresses *)
  TCR : Z;
  RPAMR1 : Z;
  IMR : Z;
  RUNSTAT : Z;
  CHSEL : Z;
  RXTXEN : Z;
  RTER : Z;
  ISR : Z;
  RSR : Z;
  RDN1 : Z;
  RDN2 : Z;
  RPAR : Z;
  TNUMR_L : Z;
  TNUMR_H : Z;
  (* register values and flags *)
  ITF_1 : Z;
  RMC_EN : Z;
  TMC_EN : Z;
  RUNSTAT_S : Z;
  CH2SEL : Z;
  RXTXEN_R : Z;
  RXTXEN_T : Z;
  HREC_EN : Z;
  HSND_EN : Z;
  RMC : Z;
  TMC : Z
}.

(** The pin-control registers the bus engine touches, each a
    [base + offset] pair in the source. *)
Inductive reg : Type :=
| GPIO1_DR     (* iobus_dev->gpio1_regs + GPIO1_DR: strobes *)
| GPIO3_GDIR   (* iobus_dev->gpio3_regs + GPIO3_GDIR: data direction *)
| GPIO3_DR     (* iobus_dev->gpio3_regs + GPIO3_DR: data lines *)
| GPIO4_DR.    (* iobus_dev->gpio4_regs + GPIO4_DR: address lines *)

(** Transfer state of one direction ([IDLE]/[BUSY] of the header). *)
Inductive stat : Type := IDLE | BUSY.

Inductive waitq : Type := send_wq | recv_wq.

(** ** Events

    Everything the driver does to the outside, and every store to the
    fields shared between process and interrupt context, in program
    order. *)
Inductive event : Type :=
| IoRead (r : reg) (v : Z)          (* ioread32 returned v *)
| IoWrite (r : reg) (v : Z)         (* iowrite32 (v, r) *)
| SpinLockIrq
| SpinUnlockIrq
| WakeUp (q : waitq)                (* wake_up_interruptible *)
| SetRecvBytes (n : Z)              (* recv_bytes = n *)
| SetRecvBuf (i b : Z)              (* recv_buf[i] = b *)
| SetRecvStat (s : stat)
| SetSendStat (s : stat)
| CopyToUser (bs : list Z).         (* bytes that reached the caller *)

(** ** Device state: the fields of [IOBUS_DEV] the driver computes with.

    The two scratch buffers are indexed without any bound in the source
    and their declared size is in the header; they are modelled as maps
    from index to byte, with no capacity. *)
Record IOBUS_DEV : Type := {
  send_stat : stat;
  recv_stat : stat;
  recv_bytes : Z;
  send_buf : Z -> Z;
  recv_buf : Z -> Z
}.

Definition upd (buf : Z -> Z) (i b : Z) : Z -> Z :=
  fun j => if j =? i then b else buf j.

Definition with_send_stat (d : IOBUS_DEV) (s : stat) : IOBUS_DEV :=
  {| send_stat := s; recv_stat := recv_stat d; recv_bytes := recv_bytes d;
     send_buf := send_buf d; recv_buf := recv_buf d |}.

Definition with_recv_stat (d : IOBUS_DEV) (s : stat) : IOBUS_DEV :=
  {| send_stat := send_stat d; recv_stat := s; recv_bytes := recv_bytes d;
     send_buf := send_buf d; recv_buf := recv_buf d |}.

Definition with_recv_bytes (d : IOBUS_DEV) (n : Z) : IOBUS_DEV :=
  {| send_stat := send_stat d; recv_stat := recv_stat d; recv_bytes := n;
     send_buf := send_buf d; recv_buf := recv_buf d |}.

Definition with_send_buf (d : IOBUS_DEV) (b : Z -> Z) : IOBUS_DEV :=
  {| send_stat := send_stat d; recv_stat := recv_stat d;
     recv_bytes := recv_bytes d; send_buf := b; recv_buf := recv_buf d |}.

Definition with_recv_buf (d : IOBUS_DEV) (b : Z -> Z) : IOBUS_DEV :=
  {| send_stat := send_stat d; recv_stat := recv_stat d;
     recv_bytes := recv_bytes d; send_buf := send_buf d; recv_buf := b |}.

(** ** The driver monad

    A computation takes the device state and the log so far, and returns
    its result, the new device state and the events it emitted. *)
Definition M (A : Type) : Type :=
  IOBUS_DEV -> list event -> A * IOBUS_DEV * list event.

Definition ret {A} (a : A) : M A := fun d _ => (a, d, []).

Definition bind {A B} (m : M A) (f : A -> M B) : M B :=
  fun d h =>
    let '(a, d1, e1) := m d h in
    let '(b, d2, e2) := f a d1 (h ++ e1) in
    (b, d2, e1 ++ e2).

Notation "x <- m ;; k" := (bind m (fun x => k))
  (at level 61, m at next level, right associativity).
Notation "m ;; k" := (bind m (fun _ => k))
  (at level 61, right associativity).

Definition emit (e : event) : M unit := fun d _ => (tt, d, [e]).
Definition get_dev : M IOBUS_DEV := fun d _ => (d, d, []).
Definition put_dev (d' : IOBUS_DEV) : M unit := fun _ _ => (tt, d', []).

(** [for (addr = i; addr < i + k; addr++) body(addr)] *)
Fixpoint for_from (k : nat) (i : Z) (body : Z -> M unit) : M unit :=
  match k with
  | O => ret tt
  | S k' => body i ;; for_from k' (i + 1) body
  end.

Section Driver.

Variable hdr : iobus_h.

(** The hardware: the value the next [ioread32] of register [r] finds,
    given everything that happened on the bus so far. *)
Variable hw : list event -> reg -> Z.

Definition ioread32 (r : reg) : M Z :=
  fun d h => let v := wrap32 (hw h r) in (v, d, [IoRead r v]).

Definition iowrite32 (v : Z) (r : reg) : M unit :=
  emit (IoWrite r (wrap32 v)).

(** *** Pin operations (iobus.c, lines 34-77) *)

Definition set_wr : M unit :=
  v <- ioread32 GPIO1_DR ;; iowrite32 (Z.land v 0xFFFFFFFE) GPIO1_DR.

Definition clr_wr : M unit :=
  v <- ioread32 GPIO1_DR ;; iowrite32 (Z.lor v 0x1) GPIO1_DR.

Definition set_rd : M unit :=
  v <- ioread32 GPIO1_DR ;; iowrite32 (Z.land v 0xFFFFFFFD) GPIO1_DR.

Definition clr_rd : M unit :=
  v <- ioread32 GPIO1_DR ;; iowrite32 (Z.lor v 0x2) GPIO1_DR.

Definition set_data_in : M unit :=
  v <- ioread32 GPIO3_GDIR ;; iowrite32 (Z.land v 0xFF00FFFF) GPIO3_GDIR.

Definition set_data_out : M unit :=
  v <- ioread32 GPIO3_GDIR ;; iowrite32 (Z.lor v 0xFF0000) GPIO3_GDIR.

Definition set_addr (addr : Z) : M unit :=
  v <- ioread32 GPIO4_DR ;;
  iowrite32 (Z.lor (Z.land v (GPIO4_ADDR_MSK hdr))
                   (Z.shiftl addr (CPLD_ADDR_SHIFT hdr))) GPIO4_DR.

(** [data] is an [unsigned char] parameter. *)
Definition write_data (data : Z) : M unit :=
  v <- ioread32 GPIO3_DR ;;
  iowrite32 (Z.lor (Z.land v (GPIO3_DATA_MSK hdr))
                   (Z.shiftl (uchar data) (CPLD_DATA_SHIFT hdr))) GPIO3_DR.

Definition read_data : M Z :=
  v <- ioread32 GPIO3_DR ;;
  ret (uchar (Z.shiftr (Z.land v (Z.lnot (GPIO3_DATA_MSK hdr)))
                       (CPLD_DATA_SHIFT hdr))).

(** *** Bus cycles (lines 85-107) *)

Definition write_cpld (addr data : Z) : M unit :=
  set_data_out ;;
  set_addr addr ;;
  write_data data ;;
  set_wr ;;
  clr_wr ;;
  set_data_in.

Definition read_cpld (addr : Z) : M Z :=
  set_data_in ;;
  set_addr addr ;;
  set_rd ;;
  clr_rd ;;
  read_data.

(** *** Kernel services *)

Definition spin_lock_irq : M unit := emit SpinLockIrq.
Definition spin_unlock_irq : M unit := emit SpinUnlockIrq.
Definition wake_up_interruptible (q : waitq) : M unit := emit (WakeUp q).

(** The first [n] cells of a buffer, as a list. *)
Definition bytes_of (buf : Z -> Z) (n : Z) : list Z :=
  map (fun k => buf (Z.of_nat k)) (seq 0 (Z.to_nat n)).

(** How many of [n] bytes a user copy moves when only the first [avail]
    bytes behind the user pointer are accessible. *)
Definition copied (avail n : Z) : Z := Z.min n (Z.max 0 avail).

(** The transmit scratch buffer [old] after a user copy of [n] bytes
    into it: the bytes that could be copied, zeroes for those that could
    not (the kernel zero-fills that part of the destination), and the
    old content beyond.  [umem] is the user memory behind [buf]. *)
Definition staged_buf (umem : Z -> Z) (avail n : Z) (old : Z -> Z)
    : Z -> Z :=
  fun i =>
    if (0 <=? i) && (i <? copied avail n) then uchar (umem i)
    else if (0 <=? i) && (i <? n) then 0
    else old i.

(** [copy_from_user (iobus_dev->send_buf, buf, n)]: the result is the
    number of bytes that could not be copied. *)
Definition copy_from_user (umem : Z -> Z) (avail n : Z) : M Z :=
  d <- get_dev ;;
  put_dev (with_send_buf d (staged_buf umem avail n (send_buf d))) ;;
  ret (n - copied avail n).

(** [copy_to_user (buf, iobus_dev->recv_buf, n)]: the bytes that reach
    the caller are logged, the result is the number that did not. *)
Definition copy_to_user (avail n : Z) : M Z :=
  d <- get_dev ;;
  emit (CopyToUser (bytes_of (recv_buf d) (copied avail n))) ;;
  ret (n - copied avail n).

(** Stores to the shared fields. *)
Definition set_send_stat (s : stat) : M unit :=
  d <- get_dev ;; put_dev (with_send_stat d s) ;; emit (SetSendStat s).

Definition set_recv_stat (s : stat) : M unit :=
  d <- get_dev ;; put_dev (with_recv_stat d s) ;; emit (SetRecvStat s).

Definition set_recv_bytes (n : Z) : M unit :=
  d <- get_dev ;; put_dev (with_recv_bytes d n) ;; emit (SetRecvBytes n).

Definition set_recv_buf (i b : Z) : M unit :=
  d <- get_dev ;; put_dev (with_recv_buf d (upd (recv_buf d) i b)) ;;
  emit (SetRecvBuf i b).

Definition IRQ_NONE : Z := 0.
Definition IRQ_HANDLED : Z := 1.
Definition EAGAIN : Z := 11.
Definition EFAULT : Z := 14.

(** *** hdlc_init (lines 162-174) *)

Definition hdlc_init : M unit :=
  set_send_stat IDLE ;;
  set_recv_stat BUSY ;;
  spin_lock_irq ;;
  write_cpld (TCR hdr) (ITF_1 hdr) ;;
  write_cpld (RPAMR1 hdr) 0x7F ;;
  write_cpld (IMR hdr) (Z.lor (RMC_EN hdr) (TMC_EN hdr)) ;;
  write_cpld (RUNSTAT hdr) (RUNSTAT_S hdr) ;;
  write_cpld (CHSEL hdr) (CH2SEL hdr) ;;
  write_cpld (RXTXEN hdr) (RXTXEN_R hdr) ;;
  spin_unlock_irq.

(** *** hdlc_interrupt_handler (lines 177-242) *)

(** Lines 189-190: a pulse on bit 8 of GPIO1_DR. *)
Definition irq_ack : M unit :=
  v <- ioread32 GPIO1_DR ;; iowrite32 (Z.lor 0x100 v) GPIO1_DR ;;
  w <- ioread32 GPIO1_DR ;; iowrite32 (Z.land 0xfffffeff w) GPIO1_DR.

(** Lines 216-228, the body of [if (rsr == 0)].  The operands of [|] in
    line 216 are evaluated left to right. *)
Definition handle_rmc : M Z :=
  lo <- read_cpld (RDN1 hdr) ;;
  hi <- read_cpld (RDN2 hdr) ;;
  set_recv_bytes (Z.land (Z.lor lo (Z.shiftl hi 8)) 0xFFFF) ;;
  d <- get_dev ;;
  for_from (Z.to_nat (recv_bytes d)) 0
    (fun addr => b <- read_cpld addr ;; set_recv_buf addr b) ;;
  v <- read_cpld (RTER hdr) ;;
  write_cpld (RTER hdr) (Z.lor v (HREC_EN hdr)) ;;
  set_recv_stat IDLE ;;
  wake_up_interruptible recv_wq ;;
  spin_unlock_irq ;;
  ret IRQ_HANDLED.

(** Lines 232-241: what runs when the receive branch did not return. *)
Definition handle_tmc (isr : Z) : M Z :=
  if negb (Z.land isr (TMC hdr) =? 0) then
    write_cpld (RXTXEN hdr) (RXTXEN_R hdr) ;;
    v <- read_cpld (RTER hdr) ;;
    write_cpld (RTER hdr) (Z.lor v (HREC_EN hdr)) ;;
    set_send_stat IDLE ;;
    wake_up_interruptible send_wq ;;
    spin_unlock_irq ;;
    ret IRQ_HANDLED
  else
    ret IRQ_NONE.

(** [irq_ok] is [irq == gpio_to_irq(GPIO4_15)]. *)
Definition hdlc_interrupt_handler (irq_ok : bool) : M Z :=
  if negb irq_ok then ret IRQ_NONE
  else
    irq_ack ;;
    spin_lock_irq ;;
    isr <- read_cpld (ISR hdr) ;;
    if negb (Z.land isr (RMC hdr) =? 0) then
      rsr <- read_cpld (RSR hdr) ;;
      if rsr =? 0 then handle_rmc else handle_tmc isr
    else handle_tmc isr.

(** What the handler reads from the interrupt-status register, and from
    the receive-status register, in a dispatch that starts in device
    state [d] with log [h]. *)
Definition isr_seen (d : IOBUS_DEV) (h : list event) : Z :=
  fst (fst ((irq_ack ;; spin_lock_irq ;; read_cpld (ISR hdr)) d h)).

Definition rsr_seen (d : IOBUS_DEV) (h : list event) : Z :=
  fst (fst ((irq_ack ;; spin_lock_irq ;; _ <- read_cpld (ISR hdr) ;;
             read_cpld (RSR hdr)) d h)).

(** *** iobus_write and iobus_read (lines 302-355)

    A call that finds the link busy in blocking mode sleeps on the wait
    queue; when woken it re-tests the state, which is the call made
    again on the state of that moment. *)
Inductive outcome : Type :=
| Returned (v : Z)
| Sleeping (q : waitq).

(** [nonblock] is [filp->f_flags & O_NONBLOCK]; [umem] and [avail]
    describe the caller's buffer [buf].  [count] is a [size_t] that the
    kernel keeps below [2^31], so that [return count] returns it as it
    is. *)
Definition iobus_write (nonblock : bool) (umem : Z -> Z) (avail : Z)
    (count : Z) : M outcome :=
  d <- get_dev ;;
  match send_stat d with
  | BUSY => if nonblock then ret (Returned (- EAGAIN))
            else ret (Sleeping send_wq)
  | IDLE =>
    r <- copy_from_user umem avail count ;;
    if negb (r =? 0) then ret (Returned (- EFAULT))
    else
      spin_lock_irq ;;
      d <- get_dev ;;
      for_from (Z.to_nat count) 0
        (fun addr => write_cpld addr (send_buf d addr)) ;;
      write_cpld (RPAR hdr) (send_buf d 0) ;;
      write_cpld (TNUMR_L hdr) (uchar (Z.land count 0xFF)) ;;
      write_cpld (TNUMR_H hdr) (uchar (Z.land (Z.shiftr count 8) 0xFF)) ;;
      write_cpld (RXTXEN hdr) (RXTXEN_T hdr) ;;
      v <- read_cpld (RTER hdr) ;;
      write_cpld (RTER hdr) (Z.lor v (HSND_EN hdr)) ;;
      set_send_stat BUSY ;;
      spin_unlock_irq ;;
      ret (Returned count)
  end.

Definition iobus_read (nonblock : bool) (avail : Z) (count : Z)
    : M outcome :=
  d <- get_dev ;;
  match recv_stat d with
  | BUSY => if nonblock then ret (Returned (- EAGAIN))
            else ret (Sleeping recv_wq)
  | IDLE =>
    r <- copy_to_user avail (recv_bytes d) ;;
    if negb (r =? 0) then ret (Returned (- EFAULT))
    else
      set_recv_stat BUSY ;;
      d <- get_dev ;;
      ret (Returned (recv_bytes d))
  end.

End Driver.

(** ** Reading the log

    The specification speaks of pin operations and of bus cycles.  Both
    are given here as descriptions of segments of the log, so that a log
    can be read as a sequence of pin operations and, one level up, as a
    sequence of bus cycles interleaved with the other events. *)

Definition u32 (v : Z) : Prop := 0 <= v < 2 ^ 32.

Inductive pin_op : Type :=
| DataOut                (* data lines switched to output *)
| DataIn                 (* data lines switched to input *)
| DriveAddr (a : Z)      (* address lines driven *)
| DriveData (b : Z)      (* data lines driven *)
| AssertWR
| DeassertWR
| AssertRD
| DeassertRD
| Sample (b : Z).        (* data lines sampled, giving byte b *)

(** A read-modify-write of register [r]: the value found, then the
    value stored. *)
Definition rmw (r : reg) (f : Z -> Z) (evs : list event) : Prop :=
  exists v, u32 v /\ evs = [IoRead r v; IoWrite r (f v)].

Section Reading.

Variable hdr : iobus_h.

Definition pin_events (op : pin_op) (evs : list event) : Prop :=
  match op with
  | DataOut => rmw GPIO3_GDIR (fun v => Z.lor v 0xFF0000) evs
  | DataIn => rmw GPIO3_GDIR (fun v => Z.land v 0xFF00FFFF) evs
  | DriveAddr a =>
      rmw GPIO4_DR (fun v => wrap32 (Z.lor (Z.land v (GPIO4_ADDR_MSK hdr))
                                 (Z.shiftl a (CPLD_ADDR_SHIFT hdr)))) evs
  | DriveData b =>
      rmw GPIO3_DR (fun v => wrap32 (Z.lor (Z.land v (GPIO3_DATA_MSK hdr))
                                 (Z.shiftl b (CPLD_DATA_SHIFT hdr)))) evs
  | AssertWR => rmw GPIO1_DR (fun v => Z.land v 0xFFFFFFFE) evs
  | DeassertWR => rmw GPIO1_DR (fun v => Z.lor v 0x1) evs
  | AssertRD => rmw GPIO1_DR (fun v => Z.land v 0xFFFFFFFD) evs
  | DeassertRD => rmw GPIO1_DR (fun v => Z.lor v 0x2) evs
  | Sample b =>
      exists v, u32 v /\ evs = [IoRead GPIO3_DR v] /\
        b = uchar (Z.shiftr (Z.land v (Z.lnot (GPIO3_DATA_MSK hdr)))
                            (CPLD_DATA_SHIFT hdr))
  end.

(** A log segment that is exactly the given pin operations, in order. *)
Fixpoint pin_trace (ops : list pin_op) (evs : list event) : Prop :=
  match ops with
  | [] => evs = []
  | op :: ops' =>
      exists e1 e2, evs = e1 ++ e2 /\ pin_events op e1 /\ pin_trace ops' e2
  end.

(** Bus cycles as the CPLD sees them. *)
Inductive bus_op : Type :=
| BusWrite (addr data : Z)
| BusRead (addr val : Z).

(** The write cycle of section 4.1 of the specification. *)
Definition write_cycle (addr data : Z) : list pin_op :=
  [DataOut; DriveAddr addr; DriveData data; AssertWR; DeassertWR; DataIn].

(** The read cycle the source performs. *)
Definition read_cycle (addr val : Z) : list pin_op :=
  [DataIn; DriveAddr addr; AssertRD; DeassertRD; Sample val].

(** The read cycle with the sample taken while the strobe is asserted. *)
Definition read_cycle_sample_first (addr val : Z) : list pin_op :=
  [DataIn; DriveAddr addr; AssertRD; Sample val; DeassertRD].

Definition bus_cycle (op : bus_op) (evs : list event) : Prop :=
  match op with
  | BusWrite a b => pin_trace (write_cycle a b) evs
  | BusRead a b => pin_trace (read_cycle a b) evs
  end.

(** A step of a driver-level log: a whole bus cycle, or one event that
    is no pin-register access. *)
Inductive step : Type :=
| Cycle (op : bus_op)
| Pulse (r : reg) (f : Z -> Z)   (* a read-modify-write outside a cycle *)
| Ev (e : event).

Definition is_mmio (e : event) : bool :=
  match e with IoRead _ _ | IoWrite _ _ => true | _ => false end.

Inductive refines : list step -> list event -> Prop :=
| refines_nil : refines [] []
| refines_cycle op evs steps rest :
    bus_cycle op evs -> refines steps rest ->
    refines (Cycle op :: steps) (evs ++ rest)
| refines_pulse r f evs steps rest :
    rmw r f evs -> refines steps rest ->
    refines (Pulse r f :: steps) (evs ++ rest)
| refines_ev e steps rest :
    is_mmio e = false -> refines steps rest ->
    refines (Ev e :: steps) (e :: rest).

End Reading.

(** ** Vocabulary of the statements *)

Definition reg_eqb (r r' : reg) : bool :=
  match r, r' with
  | GPIO1_DR, GPIO1_DR | GPIO3_GDIR, GPIO3_GDIR
  | GPIO3_DR, GPIO3_DR | GPIO4_DR, GPIO4_DR => true
  | _, _ => false
  end.

(** The value a log leaves in register [r], if it writes it at all. *)
Fixpoint last_write (r : reg) (evs : list event) : option Z :=
  match evs with
  | [] => None
  | e :: rest =>
      match last_write r rest with
      | Some v => Some v
      | None =>
          match e with
          | IoWrite r' v => if reg_eqb r r' then Some v else None
          | _ => None
          end
      end
  end.

(** The eight pin-register modifications of the bus engine. *)
Inductive pin_fn : Type :=
| Fset_wr | Fclr_wr | Fset_rd | Fclr_rd
| Fset_data_in | Fset_data_out
| Fset_addr (addr : Z)
| Fwrite_data (data : Z).

Definition run_pin_fn (hdr : iobus_h) (hw : list event -> reg -> Z)
    (f : pin_fn) : M unit :=
  match f with
  | Fset_wr => set_wr hw
  | Fclr_wr => clr_wr hw
  | Fset_rd => set_rd hw
  | Fclr_rd => clr_rd hw
  | Fset_data_in => set_data_in hw
  | Fset_data_out => set_data_out hw
  | Fset_addr a => set_addr hdr hw a
  | Fwrite_data b => write_data hdr hw b
  end.

Definition pin_reg (f : pin_fn) : reg :=
  match f with
  | Fset_wr | Fclr_wr | Fset_rd | Fclr_rd => GPIO1_DR
  | Fset_data_in | Fset_data_out => GPIO3_GDIR
  | Fset_addr _ => GPIO4_DR
  | Fwrite_data _ => GPIO3_DR
  end.

(** The pin operation each of them is. *)
Definition pin_op_of (f : pin_fn) : pin_op :=
  match f with
  | Fset_wr => AssertWR
  | Fclr_wr => DeassertWR
  | Fset_rd => AssertRD
  | Fclr_rd => DeassertRD
  | Fset_data_in => DataIn
  | Fset_data_out => DataOut
  | Fset_addr a => DriveAddr a
  | Fwrite_data b => DriveData (uchar b)
  end.

(** The bits of its register a pin operation owns: the strobe bit, the
    eight data-direction bits, and for the address and data lines the
    bits the header's mask clears. *)
Definition owned (hdr : iobus_h) (f : pin_fn) (i : Z) : bool :=
  match f with
  | Fset_wr | Fclr_wr => i =? 0
  | Fset_rd | Fclr_rd => i =? 1
  | Fset_data_in | Fset_data_out => (16 <=? i) && (i <? 24)
  | Fset_addr _ => negb (Z.testbit (GPIO4_ADDR_MSK hdr) i)
  | Fwrite_data _ => negb (Z.testbit (GPIO3_DATA_MSK hdr) i)
  end.

(** The value driven, moved to its lines, has no bit outside them. *)
Definition fits (hdr : iobus_h) (f : pin_fn) : Prop :=
  match f with
  | Fset_addr a =>
      Z.land (wrap32 (Z.shiftl a (CPLD_ADDR_SHIFT hdr)))
             (GPIO4_ADDR_MSK hdr) = 0
  | Fwrite_data b =>
      Z.land (wrap32 (Z.shiftl (uchar b) (CPLD_DATA_SHIFT hdr)))
             (GPIO3_DATA_MSK hdr) = 0
  | _ => True
  end.

(** A pin operation is a read-modify-write that keeps every bit it does
    not own. *)
Definition keeps_foreign_bits (hdr : iobus_h) (hw : list event -> reg -> Z)
    (f : pin_fn) (d : IOBUS_DEV) (h : list event) : Prop :=
  exists v v',
    run_pin_fn hdr hw f d h =
      (tt, d, [IoRead (pin_reg f) v; IoWrite (pin_reg f) v']) /\
    u32 v /\ u32 v' /\
    forall i, 0 <= i < 32 -> owned hdr f i = false ->
      Z.testbit v' i = Z.testbit v i.

(** The frame bytes going to dual-port RAM, offsets [0 .. n-1]. *)
Definition frame_writes (buf : Z -> Z) (n : Z) : list step :=
  map (fun k => Cycle (BusWrite (Z.of_nat k) (buf (Z.of_nat k))))
      (seq 0 (Z.to_nat n)).

(** Draining bytes [bs] from dual-port RAM offsets [i, i+1, ...] into the
    receive buffer. *)
Fixpoint drain_steps (i : Z) (bs : list Z) : list step :=
  match bs with
  | [] => []
  | b :: bs' =>
      Cycle (BusRead i b) :: Ev (SetRecvBuf i b) :: drain_steps (i + 1) bs'
  end.

Fixpoint fill (buf : Z -> Z) (i : Z) (bs : list Z) : Z -> Z :=
  match bs with
  | [] => buf
  | b :: bs' => fill (upd buf i b) (i + 1) bs'
  end.

(** The received length, from the low and high length registers. *)
Definition rx_len (lo hi : Z) : Z := Z.land (Z.lor lo (Z.shiftl hi 8)) 0xFFFF.

(** What the receive-complete branch does after the status registers
    were read: lengths [lo], [hi], frame bytes [bs], arm register [v]. *)
Definition rx_steps (hdr : iobus_h) (lo hi : Z) (bs : list Z) (v : Z)
    : list step :=
  [Cycle (BusRead (RDN1 hdr) lo); Cycle (BusRead (RDN2 hdr) hi);
   Ev (SetRecvBytes (rx_len lo hi))]
  ++ drain_steps 0 bs
  ++ [Cycle (BusRead (RTER hdr) v);
      Cycle (BusWrite (RTER hdr) (uchar (Z.lor v (HREC_EN hdr))));
      Ev (SetRecvStat IDLE); Ev (WakeUp recv_wq); Ev SpinUnlockIrq].

(** What the transmit-complete branch does. *)
Definition tx_steps (hdr : iobus_h) (v : Z) : list step :=
  [Cycle (BusWrite (RXTXEN hdr) (uchar (RXTXEN_R hdr)));
   Cycle (BusRead (RTER hdr) v);
   Cycle (BusWrite (RTER hdr) (uchar (Z.lor v (HREC_EN hdr))));
   Ev (SetSendStat IDLE); Ev (WakeUp send_wq); Ev SpinUnlockIrq].

(** The status reads of a dispatch: the interrupt-status register, and
    the receive-status register when the receive-complete flag is set. *)
Definition status_steps (hdr : iobus_h) (isr rsr : Z) : list step :=
  Cycle (BusRead (ISR hdr) isr) ::
  (if Z.land isr (RMC hdr) =? 0 then [] else [Cycle (BusRead (RSR hdr) rsr)]).

(** Staging a frame of [count] bytes: the frame bytes, the reply
    address [x0], the two halves of the length. *)
Definition stage_steps (hdr : iobus_h) (frame : Z -> Z) (x0 count : Z)
    : list step :=
  frame_writes frame count ++
  [Cycle (BusWrite (RPAR hdr) x0);
   Cycle (BusWrite (TNUMR_L hdr) (count mod 256));
   Cycle (BusWrite (TNUMR_H hdr) (count / 256 mod 256))].

(** Arming the transmitter: direction, then the arm-enable bit, [v]
    being what the enable register held. *)
Definition arm_steps (hdr : iobus_h) (v : Z) : list step :=
  [Cycle (BusWrite (RXTXEN hdr) (uchar (RXTXEN_T hdr)));
   Cycle (BusRead (RTER hdr) v);
   Cycle (BusWrite (RTER hdr) (uchar (Z.lor v (HSND_EN hdr))))].

(** A step that stores to the enable register [RTER]. *)
Definition writes_rter (hdr : iobus_h) (s : step) : Prop :=
  exists x, s = Cycle (BusWrite (RTER hdr) x).

(** The frame stays below the enable register, and the staging registers
    are not the enable register. *)
Definition rter_apart (hdr : iobus_h) (count : Z) : Prop :=
  (forall k, 0 <= k < count -> k <> RTER hdr) /\
  RPAR hdr <> RTER hdr /\ TNUMR_L hdr <> RTER hdr /\ TNUMR_H hdr <> RTER hdr.

(** A step that stores nothing into the CPLD: no write cycle, and no
    stray access to the data-line register. *)
Definition quiet (s : step) : Prop :=
  match s with
  | Cycle (BusWrite _ _) => False
  | Cycle (BusRead _ _) => True
  | Pulse r _ => r <> GPIO3_DR
  | Ev _ => True
  end.

(** The two pulses of the interrupt acknowledge, then the lock. *)
Definition ack_steps : list step :=
  [Pulse GPIO1_DR (fun v => Z.lor 0x100 v);
   Pulse GPIO1_DR (fun v => Z.land 0xfffffeff v);
   Ev SpinLockIrq].

(** What [hdlc_init] does. *)
Definition init_steps (hdr : iobus_h) : list step :=
  [Ev (SetSendStat IDLE); Ev (SetRecvStat BUSY); Ev SpinLockIrq;
   Cycle (BusWrite (TCR hdr) (uchar (ITF_1 hdr)));
   Cycle (BusWrite (RPAMR1 hdr) 0x7F);
   Cycle (BusWrite (IMR hdr) (uchar (Z.lor (RMC_EN hdr) (TMC_EN hdr))));
   Cycle (BusWrite (RUNSTAT hdr) (uchar (RUNSTAT_S hdr)));
   Cycle (BusWrite (CHSEL hdr) (uchar (CH2SEL hdr)));
   Cycle (BusWrite (RXTXEN hdr) (uchar (RXTXEN_R hdr)));
   Ev SpinUnlockIrq].


(** ** A simulated link for the examples

    The pin layout is the one the comment at lines 112-113 of the source
    gives (address lines on GPIO4 bits 6-15, data lines on GPIO3 bits
    16-23); register addresses and flag values are sample values. *)
Definition sim_h : iobus_h := {|
  GPIO4_ADDR_MSK := 0xFFFF003F;
  CPLD_ADDR_SHIFT := 6;
  GPIO3_DATA_MSK := 0xFF00FFFF;
  CPLD_DATA_SHIFT := 16;
  TCR := 0x200;
  RPAMR1 := 0x201;
  IMR := 0x202;
  RUNSTAT := 0x203;
  CHSEL := 0x204;
  RXTXEN := 0x205;
  RTER := 0x206;
  ISR := 0x207;
  RSR := 0x208;
  RDN1 := 0x209;
  RDN2 := 0x20A;
  RPAR := 0x20B;
  TNUMR_L := 0x20C;
  TNUMR_H := 0x20D;
  ITF_1 := 0x2;
  RMC_EN := 0x1;
  TMC_EN := 0x2;
  RUNSTAT_S := 0x0;
  CH2SEL := 0x2;
  RXTXEN_R := 0x0;
  RXTXEN_T := 0x1;
  HREC_EN := 0x1;
  HSND_EN := 0x2;
  RMC := 0x1;
  TMC := 0x2
|}.

(** Simulated hardware: a read of the data lines shows the CPLD cell
    [mem a] for the address [a] last driven on the address lines; any
    other register reads back what was last written to it. *)
Definition sim_hw (mem : Z -> Z) (h : list event) (r : reg) : Z :=
  match r with
  | GPIO3_DR =>
      match last_write GPIO4_DR h with
      | Some a => Z.shiftl (mem (Z.land (Z.shiftr a 6) 0x3FF)) 16
      | None => 0
      end
  | GPIO1_DR => match last_write r h with Some v => v | None => 3 end
  | _ => match last_write r h with Some v => v | None => 0 end
  end.

(** A CPLD holding a two-byte frame [05 AA] with status [isr], [rsr]. *)
Definition sim_mem (isr rsr : Z) (a : Z) : Z :=
  if a =? ISR sim_h then isr
  else if a =? RSR sim_h then rsr
  else if a =? RDN1 sim_h then 2
  else if a =? 0 then 0x05
  else if a =? 1 then 0xAA
  else 0.

(** The device state [hdlc_init] leaves, and the state after a write. *)
Definition dev_open : IOBUS_DEV :=
  {| send_stat := IDLE; recv_stat := BUSY; recv_bytes := 0;
     send_buf := fun _ => 0; recv_buf := fun _ => 0 |}.

Definition dev_sending : IOBUS_DEV := with_send_stat dev_open BUSY.

(** The state after a two-byte frame [05 AA] was drained. *)
Definition dev_frame : IOBUS_DEV :=
  {| send_stat := IDLE; recv_stat := IDLE; recv_bytes := 2;
     send_buf := fun _ => 0;
     recv_buf := fun i => if i =? 0 then 0x05 else if i =? 1 then 0xAA else 0 |}.

(** User memory holding the frame [05 01 02]. *)
Definition user_frame (i : Z) : Z :=
  if i =? 0 then 0x05 else if i =? 1 then 0x01 else if i =? 2 then 0x02 else 0.

(** ** The rest of the driver

    The functions of [iobus.c] beside the bus engine, the handler and
    read/write: the deferred drain, readiness polling and the control
    commands. *)

Section DriverRest.

Variable hdr : iobus_h.
Variable hw : list event -> reg -> Z.

(** *** recv_tasklet_func (lines 245-260) *)

Definition recv_tasklet_func : M unit :=
  spin_lock_irq ;;
  lo <- read_cpld hdr hw (RDN1 hdr) ;;
  hi <- read_cpld hdr hw (RDN2 hdr) ;;
  set_recv_bytes (Z.land (Z.lor lo (Z.shiftl hi 8)) 0xFFFF) ;;
  d <- get_dev ;;
  for_from (Z.to_nat (recv_bytes d)) 0
    (fun addr => b <- read_cpld hdr hw addr ;; set_recv_buf addr b) ;;
  set_recv_stat IDLE ;;
  v <- read_cpld hdr hw (RTER hdr) ;;
  write_cpld hdr hw (RTER hdr) (Z.lor v (HREC_EN hdr)) ;;
  spin_unlock_irq.

(** *** iobus_poll (lines 357-372)

    [poll_wait] adds a wait queue to the caller's poll table; the table
    is passed through. *)
Definition POLLIN : Z := 0x0001.
Definition POLLOUT : Z := 0x0004.
Definition POLLRDNORM : Z := 0x0040.
Definition POLLWRNORM : Z := 0x0100.

Definition poll_wait (q : waitq) (poll_table : list waitq) : list waitq :=
  poll_table ++ [q].

Definition iobus_poll (poll_table : list waitq) : M (Z * list waitq) :=
  d <- get_dev ;;
  let mask := 0 in
  let poll_table := poll_wait send_wq poll_table in
  let poll_table := poll_wait recv_wq poll_table in
  let mask :=
    match recv_stat d with
    | IDLE => Z.lor mask (Z.lor POLLIN POLLRDNORM)
    | BUSY => mask
    end in
  let mask :=
    match send_stat d with
    | IDLE => Z.lor mask (Z.lor POLLOUT POLLWRNORM)
    | BUSY => mask
    end in
  ret (mask, poll_table).

End DriverRest.

(** *** iobus_ioctl (lines 374-401)

    The command numbers and the two register constants only the control
    path uses come from the header as well. *)
Record iobus_ioc_h : Type := {
  IOBUS_IOC_MAGIC : Z;
  IOBUS_IOC_MAXNR : Z;
  IOBUS_IOC_RUN_STAT : Z;
  IOBUS_IOC_CH_SEL : Z;
  IOBUS_IOC_LED_STAT : Z;
  RUNSTAT_M : Z;
  LED : Z
}.

(** The kernel's encoding of a command word: number in bits 0-7, type
    in bits 8-15. *)
Definition _IOC_NR (cmd : Z) : Z := Z.land cmd 0xFF.
Definition _IOC_TYPE (cmd : Z) : Z := Z.land (Z.shiftr cmd 8) 0xFF.

Definition ENOTTY : Z := 25.

Section Control.

Variable hdr : iobus_h.
Variable ioc : iobus_ioc_h.
Variable hw : list event -> reg -> Z.

(** The [switch]; the case labels of a C switch are distinct. *)
Definition ioctl_switch (cmd arg : Z) : M unit :=
  if cmd =? IOBUS_IOC_RUN_STAT ioc then
    if arg =? 0 then write_cpld hdr hw (RUNSTAT hdr) (RUNSTAT_S hdr)
    else write_cpld hdr hw (RUNSTAT hdr) (RUNSTAT_M ioc)
  else if cmd =? IOBUS_IOC_CH_SEL ioc then
    write_cpld hdr hw (CHSEL hdr) arg
  else if cmd =? IOBUS_IOC_LED_STAT ioc then
    write_cpld hdr hw (LED ioc) arg
  else ret tt.

Definition iobus_ioctl (cmd arg : Z) : M Z :=
  if negb (_IOC_TYPE cmd =? IOBUS_IOC_MAGIC ioc) then ret (- ENOTTY)
  else if IOBUS_IOC_MAXNR ioc <? _IOC_NR cmd then ret (- ENOTTY)
  else
    spin_lock_irq ;;
    ioctl_switch cmd arg ;;
    spin_unlock_irq ;;
    ret 0.

(** *** Sessions: the calls a device can receive after [hdlc_init] *)

Inductive call : Type :=
| CallIrq (irq_ok : bool)
| CallTasklet
| CallWrite (nonblock : bool) (umem : Z -> Z) (avail count : Z)
| CallRead (nonblock : bool) (avail count : Z)
| CallPoll
| CallIoctl (cmd arg : Z).

Definition run_call (c : call) : M unit :=
  match c with
  | CallIrq irq_ok => _ <- hdlc_interrupt_handler hdr hw irq_ok ;; ret tt
  | CallTasklet => recv_tasklet_func hdr hw
  | CallWrite nonblock umem avail count =>
      _ <- iobus_write hdr hw nonblock umem avail count ;; ret tt
  | CallRead nonblock avail count =>
      _ <- iobus_read nonblock avail count ;; ret tt
  | CallPoll => _ <- iobus_poll [] ;; ret tt
  | CallIoctl cmd arg => _ <- iobus_ioctl cmd arg ;; ret tt
  end.

Fixpoint run_calls (cs : list call) : M unit :=
  match cs with
  | [] => ret tt
  | c :: cs' => run_call c ;; run_calls cs'
  end.

Definition session (cs : list call) : M unit :=
  hdlc_init hdr hw ;; run_calls cs.

End Control.

(** A write call's byte count is a [size_t]. *)
Definition call_ok (c : call) : Prop :=
  match c with
  | CallWrite _ _ _ count => 0 <= count
  | _ => True
  end.

(** *** Vocabulary *)

Definition is_lock (e : event) : bool :=
  match e with SpinLockIrq => true | _ => false end.

Definition is_unlock (e : event) : bool :=
  match e with SpinUnlockIrq => true | _ => false end.

(** How many events of a log satisfy [p]. *)
Definition tally (p : event -> bool) (evs : list event) : nat :=
  length (filter p evs).

(** How many steps of a reading are an event that satisfies [p]. *)
Definition tally_steps (p : event -> bool) (steps : list step) : nat :=
  length (filter (fun s => match s with Ev e => p e | _ => false end) steps).

(** What GPIO1_DR holds after a log, [w0] being what it held before. *)
Definition strobe_reg (w0 : Z) (h : list event) : Z :=
  match last_write GPIO1_DR h with Some w => w | None => w0 end.

(** Both strobes deasserted. *)
Definition strobes_idle (w0 : Z) (h : list event) : Prop :=
  Z.testbit (strobe_reg w0 h) 0 = true /\ Z.testbit (strobe_reg w0 h) 1 = true.

(** Hardware that reads the two strobe bits of GPIO1_DR back as they
    were last stored. *)
Definition strobes_latched (w0 : Z) (hw : list event -> reg -> Z) : Prop :=
  forall h,
    Z.testbit (hw h GPIO1_DR) 0 = Z.testbit (strobe_reg w0 h) 0 /\
    Z.testbit (hw h GPIO1_DR) 1 = Z.testbit (strobe_reg w0 h) 1.

(** The data lines are inputs after the log. *)
Definition data_lines_in (h : list event) : Prop :=
  exists g, last_write GPIO3_GDIR h = Some g /\
            forall i, 16 <= i < 24 -> Z.testbit g i = false.

(** The same of a log that continues the log [h0]. *)
Definition data_lines_in_after (h0 h : list event) : Prop :=
  data_lines_in (h0 ++ h).

(** What the deferred drain does: like the receive branch of the
    handler, with the RecvState store before the re-arm and no wake-up. *)
Definition tasklet_steps (hdr : iobus_h) (lo hi : Z) (bs : list Z) (v : Z)
    : list step :=
  [Ev SpinLockIrq;
   Cycle (BusRead (RDN1 hdr) lo); Cycle (BusRead (RDN2 hdr) hi);
   Ev (SetRecvBytes (rx_len lo hi))]
  ++ drain_steps 0 bs
  ++ [Ev (SetRecvStat IDLE);
      Cycle (BusRead (RTER hdr) v);
      Cycle (BusWrite (RTER hdr) (uchar (Z.lor v (HREC_EN hdr))));
      Ev SpinUnlockIrq].

(** The bus cycle a control command performs, if any. *)
Definition ioctl_cycles (hdr : iobus_h) (ioc : iobus_ioc_h) (cmd arg : Z)
    : list step :=
  if cmd =? IOBUS_IOC_RUN_STAT ioc then
    [Cycle (BusWrite (RUNSTAT hdr)
              (uchar (if arg =? 0 then RUNSTAT_S hdr else RUNSTAT_M ioc)))]
  else if cmd =? IOBUS_IOC_CH_SEL ioc then
    [Cycle (BusWrite (CHSEL hdr) (uchar arg))]
  else if cmd =? IOBUS_IOC_LED_STAT ioc then
    [Cycle (BusWrite (LED ioc) (uchar arg))]
  else [].

(** None of the registers [hdlc_init] programs is the enable register. *)
Definition init_apart (hdr : iobus_h) : Prop :=
  ~ In (RTER hdr)
       [TCR hdr; RPAMR1 hdr; IMR hdr; RUNSTAT hdr; CHSEL hdr; RXTXEN hdr].

(** Hardware that reads GPIO3_DR back as last written. *)
Definition data_latched (hw : list event -> reg -> Z) : Prop :=
  forall h v,
    last_write GPIO3_DR h = Some v -> wrap32 (hw h GPIO3_DR) = wrap32 v.

(** The header's data mask is clear on the eight data lines. *)
Definition data_field_clear (hdr : iobus_h) : Prop :=
  forall i, 0 <= i < 8 ->
    Z.testbit (GPIO3_DATA_MSK hdr) (i + CPLD_DATA_SHIFT hdr) = false.

(** Pins that hold what was last driven onto them. *)
Definition sim_pins (h : list event) (r : reg) : Z :=
  match last_write r h with Some v => v | None => 0 end.

(** A computation keeps a property of the log. *)
Definition keeps (P : list event -> Prop) {A} (m : M A) : Prop :=
  forall d h, P h -> P (h ++ snd (m d h)).

(** A computation leaves the log with a property, whatever it was. *)
Definition establishes (P : list event -> Prop) {A} (m : M A) : Prop :=
  forall d h, P (h ++ snd (m d h)).

(** Sample control commands for the examples. *)
Definition sim_ioc : iobus_ioc_h := {|
  IOBUS_IOC_MAGIC := 0x69;
  IOBUS_IOC_MAXNR := 3;
  IOBUS_IOC_RUN_STAT := 0x6901;
  IOBUS_IOC_CH_SEL := 0x6902;
  IOBUS_IOC_LED_STAT := 0x6903;
  RUNSTAT_M := 0x1;
  LED := 0x20E
|}.


(** ** Loading and unloading the module (lines 412-513)

    [iobus_init] acquires nine kernel resources one after another and
    on the first failure jumps into a ladder of cleanup labels;
    [iobus_exit] releases all nine.  What the kernel answers is a
    parameter; the log records the calls made, with their results.
    The i.MX53 is a 32-bit machine: a pointer and an [int] are 32 bits
    wide.  Diagnostics ([printk]) are left out. *)

(** The register banks [iobus_init] maps, by the field of [IOBUS_DEV]
    that holds the mapping. *)
Inductive bank : Type := iomux_regs | gpio4_regs | gpio3_regs | gpio1_regs.

Inductive kcall : Type :=
| kmalloc (p : Z)
| kfree
| alloc_chrdev_region (r : Z)
| unregister_chrdev_region
| cdev_init
| cdev_add (r : Z)
| cdev_del
| class_create (p : Z)
| class_destroy
| device_create (p : Z)
| device_destroy
| ioremap (b : bank) (p : Z)
| iounmap (b : bank).

(** What the kernel returns to each acquiring call. *)
Record kernel : Type := {
  kmalloc_ret : Z;
  alloc_chrdev_region_ret : Z;
  cdev_add_ret : Z;
  class_create_ret : Z;
  device_create_ret : Z;
  ioremap_ret : bank -> Z
}.

(** [int] conversion. *)
Definition int32 (x : Z) : Z :=
  if wrap32 x <? 2 ^ 31 then wrap32 x else wrap32 x - 2 ^ 32.

(** [linux/err.h]: the last 4095 addresses encode an error number. *)
Definition MAX_ERRNO : Z := 4095.
Definition IS_ERR (p : Z) : bool := 2 ^ 32 - MAX_ERRNO <=? wrap32 p.
Definition PTR_ERR (p : Z) : Z := int32 p.

(** A stretch of code that makes the calls [l] and goes on as [k]. *)
Definition after (l : list kcall) (k : Z * list kcall) : Z * list kcall :=
  (fst k, l ++ snd k).

(** The cleanup labels, each falling through to the next. *)
Definition alloc_chrdev_region_err (ret : Z) : Z * list kcall :=
  after [kfree] (ret, []).
Definition cdev_add_err (ret : Z) : Z * list kcall :=
  after [unregister_chrdev_region] (alloc_chrdev_region_err ret).
Definition class_create_err (ret : Z) : Z * list kcall :=
  after [cdev_del] (cdev_add_err ret).
Definition device_create_err (ret : Z) : Z * list kcall :=
  after [class_destroy] (class_create_err ret).
Definition ioremap_iomux_err (ret : Z) : Z * list kcall :=
  after [device_destroy] (device_create_err ret).
Definition ioremap_gpio4_err (ret : Z) : Z * list kcall :=
  after [iounmap iomux_regs] (ioremap_iomux_err ret).
Definition ioremap_gpio3_err (ret : Z) : Z * list kcall :=
  after [iounmap gpio4_regs] (ioremap_gpio4_err ret).
Definition ioremap_gpio1_err (ret : Z) : Z * list kcall :=
  after [iounmap gpio3_regs] (ioremap_gpio3_err ret).

Definition iobus_init (k : kernel) : Z * list kcall :=
  let iobus_dev_glb := wrap32 (kmalloc_ret k) in
  after [kmalloc iobus_dev_glb]
  (if iobus_dev_glb =? 0 then (-1, []) else
   let ret := int32 (alloc_chrdev_region_ret k) in
   after [alloc_chrdev_region ret]
   (if negb (ret =? 0) then alloc_chrdev_region_err ret else
    after [cdev_init]
    (let ret := int32 (cdev_add_ret k) in
     after [cdev_add ret]
     (if negb (ret =? 0) then cdev_add_err ret else
      let iobus_dev_class := wrap32 (class_create_ret k) in
      after [class_create iobus_dev_class]
      (if IS_ERR iobus_dev_class
       then class_create_err (PTR_ERR iobus_dev_class) else
       let device := wrap32 (device_create_ret k) in
       after [device_create device]
       (if IS_ERR device then device_create_err (PTR_ERR device) else
        let iomux := wrap32 (ioremap_ret k iomux_regs) in
        after [ioremap iomux_regs iomux]
        (if iomux =? 0 then ioremap_iomux_err (-1) else
         let gpio4 := wrap32 (ioremap_ret k gpio4_regs) in
         after [ioremap gpio4_regs gpio4]
         (if gpio4 =? 0 then ioremap_gpio4_err (-1) else
          let gpio3 := wrap32 (ioremap_ret k gpio3_regs) in
          after [ioremap gpio3_regs gpio3]
          (if gpio3 =? 0 then ioremap_gpio3_err (-1) else
           let gpio1 := wrap32 (ioremap_ret k gpio1_regs) in
           after [ioremap gpio1_regs gpio1]
           (if gpio1 =? 0 then ioremap_gpio1_err (-1) else
            (0, []))))))))))).

Definition iobus_exit : list kcall :=
  [iounmap gpio1_regs; iounmap gpio3_regs; iounmap gpio4_regs;
   iounmap iomux_regs; device_destroy; class_destroy; cdev_del;
   unregister_chrdev_region; kfree].

(** *** Vocabulary: what a log of kernel calls leaves held *)

Inductive resource : Type :=
| DevMem | ChrdevRegion | Cdev | DevClass | DevNode | Mapping (b : bank).

Definition bank_eqb (b b' : bank) : bool :=
  match b, b' with
  | iomux_regs, iomux_regs | gpio4_regs, gpio4_regs
  | gpio3_regs, gpio3_regs | gpio1_regs, gpio1_regs => true
  | _, _ => false
  end.

Definition resource_eqb (r r' : resource) : bool :=
  match r, r' with
  | DevMem, DevMem | ChrdevRegion, ChrdevRegion | Cdev, Cdev
  | DevClass, DevClass | DevNode, DevNode => true
  | Mapping b, Mapping b' => bank_eqb b b'
  | _, _ => false
  end.

(** The resource a call hands out, by the kernel's contract for its
    result: a null pointer, a nonzero status and an error pointer mean
    that nothing was handed out. *)
Definition acquires (c : kcall) : option resource :=
  match c with
  | kmalloc p => if p =? 0 then None else Some DevMem
  | alloc_chrdev_region r => if r =? 0 then Some ChrdevRegion else None
  | cdev_add r => if r =? 0 then Some Cdev else None
  | class_create p => if IS_ERR p then None else Some DevClass
  | device_create p => if IS_ERR p then None else Some DevNode
  | ioremap b p => if p =? 0 then None else Some (Mapping b)
  | _ => None
  end.

Definition releases (c : kcall) : option resource :=
  match c with
  | kfree => Some DevMem
  | unregister_chrdev_region => Some ChrdevRegion
  | cdev_del => Some Cdev
  | class_destroy => Some DevClass
  | device_destroy => Some DevNode
  | iounmap b => Some (Mapping b)
  | _ => None
  end.

(** Runs a log against the stack of held resources, most recent first.
    A release must name the most recent resource still held; [None]
    when one does not. *)
Fixpoint holds (held : list resource) (log : list kcall)
    : option (list resource) :=
  match log with
  | [] => Some held
  | c :: log' =>
      match releases c with
      | Some r =>
          match held with
          | r' :: rest => if resource_eqb r r' then holds rest log' else None
          | [] => None
          end
      | None =>
          match acquires c with
          | Some r => holds (r :: held) log'
          | None => holds held log'
          end
      end
  end.

Definition everything : list resource :=
  [Mapping gpio1_regs; Mapping gpio3_regs; Mapping gpio4_regs;
   Mapping iomux_regs; DevNode; DevClass; Cdev; ChrdevRegion; DevMem].

(** Every acquiring call of [iobus_init] succeeds. *)
Definition all_granted (k : kernel) : bool :=
  negb (wrap32 (kmalloc_ret k) =? 0) &&
  (int32 (alloc_chrdev_region_ret k) =? 0) &&
  (int32 (cdev_add_ret k) =? 0) &&
  negb (IS_ERR (class_create_ret k)) &&
  negb (IS_ERR (device_create_ret k)) &&
  negb (wrap32 (ioremap_ret k iomux_regs) =? 0) &&
  negb (wrap32 (ioremap_ret k gpio4_regs) =? 0) &&
  negb (wrap32 (ioremap_ret k gpio3_regs) =? 0) &&
  negb (wrap32 (ioremap_ret k gpio1_regs) =? 0).

(** A kernel that grants everything, and one whose [device_create]
    fails with -ENOMEM. *)
Definition sim_kernel : kernel := {|
  kmalloc_ret := 0xC1000000;
  alloc_chrdev_region_ret := 0;
  cdev_add_ret := 0;
  class_create_ret := 0xC1000100;
  device_create_ret := 0xC1000200;
  ioremap_ret := fun b =>
    match b with
    | iomux_regs => 0xF0000000 | gpio4_regs => 0xF0010000
    | gpio3_regs => 0xF0020000 | gpio1_regs => 0xF0030000
    end
|}.

Definition sim_kernel_nodev : kernel := {|
  kmalloc_ret := 0xC1000000;
  alloc_chrdev_region_ret := 0;
  cdev_add_ret := 0;
  class_create_ret := 0xC1000100;
  device_create_ret := -12;
  ioremap_ret := fun _ => 0xF0000000
|}.

(** ** Opening and closing the device (lines 118-153, 263-299)

    [gpio_init] programs pad multiplexers and GPIO configuration
    registers that the bus engine never touches, and [iobus_open] and
    [iobus_close] call into the kernel's interrupt, tasklet and wait
    queue services.  Their log extends the driver's: a driver event, an
    access to a configuration register, or a kernel service. *)

(** The constants of [iobus.h] that only [gpio_init] and [iobus_open]
    use. *)
Record iobus_gpio_h : Type := {
  IOMUX_MOD_GPIO : Z;
  IOMUX_SW_CTRL_GPIO4_6 : Z;
  IOMUX_SW_CTRL_GPIO4_7 : Z;
  IOMUX_SW_CTRL_GPIO4_8 : Z;
  IOMUX_SW_CTRL_GPIO4_9 : Z;
  IOMUX_SW_CTRL_GPIO4_10 : Z;
  IOMUX_SW_CTRL_GPIO4_11 : Z;
  IOMUX_SW_CTRL_GPIO4_12 : Z;
  IOMUX_SW_CTRL_GPIO4_13 : Z;
  IOMUX_SW_CTRL_GPIO4_14 : Z;
  IOMUX_SW_CTRL_GPIO4_15 : Z;
  IOMUX_SW_CTRL_GPIO3_16 : Z;
  IOMUX_SW_CTRL_GPIO3_17 : Z;
  IOMUX_SW_CTRL_GPIO3_18 : Z;
  IOMUX_SW_CTRL_GPIO3_19 : Z;
  IOMUX_SW_CTRL_GPIO3_20 : Z;
  IOMUX_SW_CTRL_GPIO3_21 : Z;
  IOMUX_SW_CTRL_GPIO3_22 : Z;
  IOMUX_SW_CTRL_GPIO3_23 : Z;
  IOMUX_SW_CTRL_GPIO1_0 : Z;
  IOMUX_SW_CTRL_GPIO1_1 : Z;
  IOMUX_SW_CTRL_GPIO1_8 : Z;
  GPIO4_GDIR : Z;
  GPIO4_DIR_ADDR_OUT : Z;
  GPIO1_GDIR : Z;
  GPIO1_DIR_RDWR_OUT : Z;
  GPIO4_ICR1 : Z;
  GPIO4_ICR15_RISING : Z;
  GPIO4_IMR : Z;
  GPIO4_IMR15_ENABLE : Z;
  GPIO4_15 : Z
}.

(** A register: one of the four the bus engine uses, or a bank and an
    offset. *)
Inductive kreg : Type :=
| Data (r : reg)
| Cfg (b : bank) (off : Z).

Inductive kevent : Type :=
| Drv (e : event)
| CfgRead (b : bank) (off v : Z)
| CfgWrite (b : bank) (off v : Z)
| SetPrivateData (set : bool)
| SpinLockInit
| RequestIrq (gpio ret : Z)
| FreeIrq (gpio : Z)
| TaskletInit
| TaskletKill
| InitWaitqueueHead (q : waitq).

Definition K (A : Type) : Type :=
  IOBUS_DEV -> list kevent -> A * IOBUS_DEV * list kevent.

Definition kret {A} (a : A) : K A := fun d _ => (a, d, []).

Definition kbind {A B} (m : K A) (f : A -> K B) : K B :=
  fun d h =>
    let '(a, d1, e1) := m d h in
    let '(b, d2, e2) := f a d1 (h ++ e1) in
    (b, d2, e1 ++ e2).

Notation "x <~ m ;; k" := (kbind m (fun x => k))
  (at level 61, m at next level, right associativity).
Notation "m ;;; k" := (kbind m (fun _ => k))
  (at level 61, right associativity).

Definition kemit (e : kevent) : K unit := fun d _ => (tt, d, [e]).

(** The driver events of a log. *)
Definition drv_log (hk : list kevent) : list event :=
  flat_map (fun x => match x with Drv e => [e] | _ => [] end) hk.

Section Opening.

Variable hdr : iobus_h.
Variable gh : iobus_gpio_h.
Variable ioc : iobus_ioc_h.

(** The hardware, as before a function of everything that happened;
    and the kernel's answer to [request_irq]. *)
Variable khw : list kevent -> kreg -> Z.
Variable request_irq_ret : Z.

(** What a driver computation that starts after log [hk] reads. *)
Definition hw_at (hk : list kevent) : list event -> reg -> Z :=
  fun h r => khw (hk ++ map Drv h) (Data r).

(** A driver computation, run inside the longer log. *)
Definition lift {A} (m : (list event -> reg -> Z) -> M A) : K A :=
  fun d hk =>
    let '(a, d', e) := m (hw_at hk) d [] in (a, d', map Drv e).

Definition ioread32_at (b : bank) (off : Z) : K Z :=
  fun d hk =>
    let v := wrap32 (khw hk (Cfg b off)) in (v, d, [CfgRead b off v]).

Definition iowrite32_at (v : Z) (b : bank) (off : Z) : K unit :=
  kemit (CfgWrite b off (wrap32 v)).

(** [iowrite32(bits | ioread32(r), r)] *)
Definition set_bits_at (bits : Z) (b : bank) (off : Z) : K unit :=
  v <~ ioread32_at b off ;; iowrite32_at (Z.lor bits v) b off.

(** *** gpio_init (lines 118-153) *)

Definition gpio_init : K unit :=
  iowrite32_at (IOMUX_MOD_GPIO gh) iomux_regs (IOMUX_SW_CTRL_GPIO4_6 gh) ;;;
  iowrite32_at (IOMUX_MOD_GPIO gh) iomux_regs (IOMUX_SW_CTRL_GPIO4_7 gh) ;;;
  iowrite32_at (IOMUX_MOD_GPIO gh) iomux_regs (IOMUX_SW_CTRL_GPIO4_8 gh) ;;;
  iowrite32_at (IOMUX_MOD_GPIO gh) iomux_regs (IOMUX_SW_CTRL_GPIO4_9 gh) ;;;
  iowrite32_at (IOMUX_MOD_GPIO gh) iomux_regs (IOMUX_SW_CTRL_GPIO4_10 gh) ;;;
  iowrite32_at (IOMUX_MOD_GPIO gh) iomux_regs (IOMUX_SW_CTRL_GPIO4_11 gh) ;;;
  iowrite32_at (IOMUX_MOD_GPIO gh) iomux_regs (IOMUX_SW_CTRL_GPIO4_12 gh) ;;;
  iowrite32_at (IOMUX_MOD_GPIO gh) iomux_regs (IOMUX_SW_CTRL_GPIO4_13 gh) ;;;
  iowrite32_at (IOMUX_MOD_GPIO gh) iomux_regs (IOMUX_SW_CTRL_GPIO4_14 gh) ;;;
  set_bits_at (GPIO4_DIR_ADDR_OUT gh) gpio4_regs (GPIO4_GDIR gh) ;;;
  iowrite32_at (IOMUX_MOD_GPIO gh) iomux_regs (IOMUX_SW_CTRL_GPIO3_16 gh) ;;;
  iowrite32_at (IOMUX_MOD_GPIO gh) iomux_regs (IOMUX_SW_CTRL_GPIO3_17 gh) ;;;
  iowrite32_at (IOMUX_MOD_GPIO gh) iomux_regs (IOMUX_SW_CTRL_GPIO3_18 gh) ;;;
  iowrite32_at (IOMUX_MOD_GPIO gh) iomux_regs (IOMUX_SW_CTRL_GPIO3_19 gh) ;;;
  iowrite32_at (IOMUX_MOD_GPIO gh) iomux_regs (IOMUX_SW_CTRL_GPIO3_20 gh) ;;;
  iowrite32_at (IOMUX_MOD_GPIO gh) iomux_regs (IOMUX_SW_CTRL_GPIO3_21 gh) ;;;
  iowrite32_at (IOMUX_MOD_GPIO gh) iomux_regs (IOMUX_SW_CTRL_GPIO3_22 gh) ;;;
  iowrite32_at (IOMUX_MOD_GPIO gh) iomux_regs (IOMUX_SW_CTRL_GPIO3_23 gh) ;;;
  iowrite32_at (IOMUX_MOD_GPIO gh) iomux_regs (IOMUX_SW_CTRL_GPIO1_0 gh) ;;;
  iowrite32_at (IOMUX_MOD_GPIO gh) iomux_regs (IOMUX_SW_CTRL_GPIO1_1 gh) ;;;
  set_bits_at (GPIO1_DIR_RDWR_OUT gh) gpio1_regs (GPIO1_GDIR gh) ;;;
  iowrite32_at (IOMUX_MOD_GPIO gh) iomux_regs (IOMUX_SW_CTRL_GPIO4_15 gh) ;;;
  set_bits_at (GPIO4_ICR15_RISING gh) gpio4_regs (GPIO4_ICR1 gh) ;;;
  set_bits_at (GPIO4_IMR15_ENABLE gh) gpio4_regs (GPIO4_IMR gh) ;;;
  iowrite32_at (IOMUX_MOD_GPIO gh) iomux_regs (IOMUX_SW_CTRL_GPIO1_8 gh) ;;;
  set_bits_at 0x100 gpio1_regs (GPIO1_GDIR gh) ;;;
  lift clr_wr ;;;
  lift clr_rd.

(** *** iobus_open (lines 263-288) and iobus_close (lines 292-299)

    [i_cdev_dev] is the device number of the inode being opened. *)

Definition spin_lock_init : K unit := kemit SpinLockInit.

Definition request_irq (gpio : Z) : K Z :=
  kemit (RequestIrq gpio request_irq_ret) ;;; kret request_irq_ret.

Definition free_irq (gpio : Z) : K unit := kemit (FreeIrq gpio).
Definition tasklet_init : K unit := kemit TaskletInit.
Definition tasklet_kill : K unit := kemit TaskletKill.
Definition init_waitqueue_head (q : waitq) : K unit :=
  kemit (InitWaitqueueHead q).

Definition iobus_open (i_cdev_dev devno : Z) : K Z :=
  if negb (i_cdev_dev =? devno) then kret (-1)
  else
    kemit (SetPrivateData true) ;;;
    spin_lock_init ;;;
    gpio_init ;;;
    lift (hdlc_init hdr) ;;;
    r <~ request_irq (GPIO4_15 gh) ;;
    if negb (r =? 0) then kret (- EAGAIN)
    else
      tasklet_init ;;;
      init_waitqueue_head send_wq ;;;
      init_waitqueue_head recv_wq ;;;
      kret 0.

Definition iobus_close : K Z :=
  free_irq (GPIO4_15 gh) ;;;
  tasklet_kill ;;;
  kemit (SetPrivateData false) ;;;
  kret 0.

(** The life of an open file: the open, and when it succeeded the
    calls that follow and the close. *)
Definition lifetime (i_cdev_dev devno : Z) (cs : list call) : K Z :=
  r <~ iobus_open i_cdev_dev devno ;;
  if r =? 0 then
    lift (fun hw => run_calls hdr ioc hw cs) ;;;
    iobus_close
  else kret r.

End Opening.

(** *** Vocabulary *)

(** The value a log leaves in a configuration register. *)
Fixpoint last_cfg_write (b : bank) (off : Z) (hk : list kevent) : option Z :=
  match hk with
  | [] => None
  | e :: rest =>
      match last_cfg_write b off rest with
      | Some v => Some v
      | None =>
          match e with
          | CfgWrite b' off' v =>
              if bank_eqb b b' && (off =? off') then Some v else None
          | _ => None
          end
      end
  end.

(** What a configuration register holds after a log. *)
Definition cfg_reg (b : bank) (off v0 : Z) (hk : list kevent) : Z :=
  match last_cfg_write b off hk with Some v => v | None => v0 end.

(** Hardware whose strobe bits read back as last stored, within the
    longer log. *)
Definition kstrobes_latched (w0 : Z) (khw : list kevent -> kreg -> Z)
    : Prop :=
  forall hk,
    Z.testbit (khw hk (Data GPIO1_DR)) 0
      = Z.testbit (strobe_reg w0 (drv_log hk)) 0 /\
    Z.testbit (khw hk (Data GPIO1_DR)) 1
      = Z.testbit (strobe_reg w0 (drv_log hk)) 1.

(** A configuration register that reads back as last written, [v0]
    being its content before the log. *)
Definition cfg_latched (b : bank) (off v0 : Z)
    (khw : list kevent -> kreg -> Z) : Prop :=
  forall hk, khw hk (Cfg b off) = cfg_reg b off v0 hk.

(** Bit [i] of a configuration register is set after a log. *)
Definition cfg_bit_set (b : bank) (off v0 i : Z) (hk : list kevent)
    : Prop :=
  Z.testbit (cfg_reg b off v0 hk) i = true.

(** The computation keeps a property of the log. *)
Definition kkeeps (P : list kevent -> Prop) {A} (m : K A) : Prop :=
  forall d hk, P hk -> P (hk ++ snd (m d hk)).

(** The computation leaves the log with a property, whatever it was. *)
Definition kestablishes (P : list kevent -> Prop) {A} (m : K A) : Prop :=
  forall d hk, P (hk ++ snd (m d hk)).

(** The bits [gpio_init] sets: bank, register offset, mask. *)
Definition gpio_init_masks (gh : iobus_gpio_h) : list (bank * Z * Z) :=
  [(gpio4_regs, GPIO4_GDIR gh, GPIO4_DIR_ADDR_OUT gh);
   (gpio1_regs, GPIO1_GDIR gh, GPIO1_DIR_RDWR_OUT gh);
   (gpio4_regs, GPIO4_ICR1 gh, GPIO4_ICR15_RISING gh);
   (gpio4_regs, GPIO4_IMR gh, GPIO4_IMR15_ENABLE gh);
   (gpio1_regs, GPIO1_GDIR gh, 0x100)].

(** Both strobes deasserted, the data lines inputs. *)
Definition bus_idle (w0 : Z) (hk : list kevent) : Prop :=
  strobes_idle w0 (drv_log hk) /\ data_lines_in (drv_log hk).

(** Sample values for the examples. *)
Definition sim_gh : iobus_gpio_h := {|
  IOMUX_MOD_GPIO := 1;
  IOMUX_SW_CTRL_GPIO4_6 := 0x0A8;
  IOMUX_SW_CTRL_GPIO4_7 := 0x0AC;
  IOMUX_SW_CTRL_GPIO4_8 := 0x0B0;
  IOMUX_SW_CTRL_GPIO4_9 := 0x0B4;
  IOMUX_SW_CTRL_GPIO4_10 := 0x0B8;
  IOMUX_SW_CTRL_GPIO4_11 := 0x0BC;
  IOMUX_SW_CTRL_GPIO4_12 := 0x0C0;
  IOMUX_SW_CTRL_GPIO4_13 := 0x0C4;
  IOMUX_SW_CTRL_GPIO4_14 := 0x0C8;
  IOMUX_SW_CTRL_GPIO4_15 := 0x0CC;
  IOMUX_SW_CTRL_GPIO3_16 := 0x118;
  IOMUX_SW_CTRL_GPIO3_17 := 0x11C;
  IOMUX_SW_CTRL_GPIO3_18 := 0x120;
  IOMUX_SW_CTRL_GPIO3_19 := 0x124;
  IOMUX_SW_CTRL_GPIO3_20 := 0x128;
  IOMUX_SW_CTRL_GPIO3_21 := 0x12C;
  IOMUX_SW_CTRL_GPIO3_22 := 0x130;
  IOMUX_SW_CTRL_GPIO3_23 := 0x134;
  IOMUX_SW_CTRL_GPIO1_0 := 0x314;
  IOMUX_SW_CTRL_GPIO1_1 := 0x318;
  IOMUX_SW_CTRL_GPIO1_8 := 0x334;
  GPIO4_GDIR := 0x4;
  GPIO4_DIR_ADDR_OUT := 0x7FC0;
  GPIO1_GDIR := 0x4;
  GPIO1_DIR_RDWR_OUT := 0x3;
  GPIO4_ICR1 := 0xC;
  GPIO4_ICR15_RISING := 0x80000000;
  GPIO4_IMR := 0x14;
  GPIO4_IMR15_ENABLE := 0x8000;
  GPIO4_15 := 111
|}.

(** Hardware that stores every register: the CPLD of [sim_hw] behind
    the bus pins, and configuration registers that read back as
    written. *)
Definition sim_khw (mem : Z -> Z) (hk : list kevent) (r : kreg) : Z :=
  match r with
  | Data r => sim_hw mem (drv_log hk) r
  | Cfg b off =>
      match last_cfg_write b off hk with Some v => v | None => 0 end
  end.
(** ** Bit-level facts *)

Lemma wrap32_u32 x : u32 (wrap32 x).
Proof. unfold u32, wrap32. apply Z.mod_pos_bound. reflexivity. Qed.

Lemma wrap32_id v : u32 v -> wrap32 v = v.
Proof. unfold u32, wrap32. intros. apply Z.mod_small. assumption. Qed.

Lemma wrap32_bit x i : 0 <= i < 32 ->
  Z.testbit (wrap32 x) i = Z.testbit x i.
Proof. intros Hi. unfold wrap32. apply Z.mod_pow2_bits_low. lia. Qed.

Lemma u32_high_bit v i : u32 v -> 32 <= i -> Z.testbit v i = false.
Proof.
  intros Hv Hi. rewrite <- (wrap32_id v Hv). unfold wrap32.
  apply Z.mod_pow2_bits_high. lia.
Qed.

Lemma u32_land v c : u32 v -> u32 (Z.land v c).
Proof.
  intros Hv. rewrite <- (wrap32_id v Hv). unfold wrap32.
  rewrite <- Z.land_ones by lia.
  rewrite <- Z.land_assoc, (Z.land_comm (Z.ones 32) c), Z.land_assoc.
  rewrite Z.land_ones by lia. apply wrap32_u32.
Qed.

Lemma u32_lor v c : u32 v -> u32 c -> u32 (Z.lor v c).
Proof.
  intros Hv Hc. rewrite <- (wrap32_id v Hv), <- (wrap32_id c Hc).
  unfold wrap32. rewrite <- !Z.land_ones by lia.
  rewrite <- Z.land_lor_distr_l. rewrite Z.land_ones by lia.
  apply wrap32_u32.
Qed.

Lemma wrap32_land v c : u32 v -> wrap32 (Z.land v c) = Z.land v c.
Proof. intros. apply wrap32_id, u32_land. assumption. Qed.

Lemma wrap32_lor v c : u32 v -> u32 c -> wrap32 (Z.lor v c) = Z.lor v c.
Proof. intros. apply wrap32_id, u32_lor; assumption. Qed.

Lemma u32_const c : (0 <=? c) && (c <? 2 ^ 32) = true -> u32 c.
Proof. unfold u32. intros H. apply andb_prop in H. lia. Qed.

(** A property of the 32 bit positions, decided by running through them. *)
Lemma check_bits (p : Z -> bool) :
  forallb p (map Z.of_nat (seq 0 32)) = true ->
  forall i, 0 <= i < 32 -> p i = true.
Proof.
  rewrite forallb_forall. intros H i Hi. apply H.
  apply in_map_iff. exists (Z.to_nat i). split; [lia|].
  apply in_seq. lia.
Qed.

Lemma uchar_range x : 0 <= uchar x < 256.
Proof. unfold uchar. apply Z.mod_pos_bound. reflexivity. Qed.

Lemma uchar_id x : 0 <= x < 256 -> uchar x = x.
Proof. unfold uchar. intros. apply Z.mod_small. assumption. Qed.

Lemma uchar_uchar x : uchar (uchar x) = uchar x.
Proof. apply uchar_id, uchar_range. Qed.

(** ** Running the monad *)

Lemma bind_eq {A B} (m : M A) (f : A -> M B) d h a d1 e1 :
  m d h = (a, d1, e1) ->
  bind m f d h =
    (let '(b, d2, e2) := f a d1 (h ++ e1) in (b, d2, e1 ++ e2)).
Proof. intros E. unfold bind. rewrite E. reflexivity. Qed.

(** Run the first call of a sequence with the lemma [L] that describes
    it, and name what it emitted. *)
Ltac bind_step L :=
  match goal with
  | |- context [bind _ _ ?d ?h] =>
      let e := fresh "e" in
      let E := fresh "E" in
      let P := fresh "P" in
      destruct (L d h) as (e & E & P);
      rewrite (bind_eq _ _ _ _ _ _ _ E); cbv beta
  end.

Ltac last_step m L :=
  match goal with
  | |- context [m ?d ?h] =>
      let e := fresh "e" in
      let E := fresh "E" in
      let P := fresh "P" in
      destruct (L d h) as (e & E & P);
      rewrite E; cbv beta iota
  end.

(** ** The bus engine *)

Section BusEngine.

Variable hdr : iobus_h.
Variable hw : list event -> reg -> Z.

(** Each pin function is the pin operation it is named after. *)
Lemma pin_fn_run (f : pin_fn) d h :
  exists evs,
    run_pin_fn hdr hw f d h = (tt, d, evs) /\
    pin_events hdr (pin_op_of f) evs.
Proof.
  destruct f;
    cbv [run_pin_fn pin_op_of pin_events rmw set_wr clr_wr set_rd clr_rd
         set_data_in set_data_out set_addr write_data
         bind ioread32 iowrite32 emit app];
    (eexists; split; [reflexivity|]);
    match goal with
    | |- context [IoRead ?r (wrap32 ?x)] =>
        exists (wrap32 x); split; [apply wrap32_u32|]
    end;
    rewrite ?wrap32_land, ?wrap32_lor
      by (try apply wrap32_u32; apply u32_const; reflexivity);
    reflexivity.
Qed.

Lemma read_data_run d h :
  exists b, exists evs,
    read_data hdr hw d h = (b, d, evs) /\ pin_events hdr (Sample b) evs.
Proof.
  cbv [read_data bind ioread32 ret app pin_events].
  eexists. eexists. split; [reflexivity|].
  exists (wrap32 (hw h GPIO3_DR)).
  split; [apply wrap32_u32|]. split; reflexivity.
Qed.

Lemma set_data_out_run d h :
  exists evs, set_data_out hw d h = (tt, d, evs) /\ pin_events hdr DataOut evs.
Proof. exact (pin_fn_run Fset_data_out d h). Qed.

Lemma set_data_in_run d h :
  exists evs, set_data_in hw d h = (tt, d, evs) /\ pin_events hdr DataIn evs.
Proof. exact (pin_fn_run Fset_data_in d h). Qed.

Lemma set_addr_run a d h :
  exists evs,
    set_addr hdr hw a d h = (tt, d, evs) /\ pin_events hdr (DriveAddr a) evs.
Proof. exact (pin_fn_run (Fset_addr a) d h). Qed.

Lemma write_data_run b d h :
  exists evs,
    write_data hdr hw b d h = (tt, d, evs) /\
    pin_events hdr (DriveData (uchar b)) evs.
Proof. exact (pin_fn_run (Fwrite_data b) d h). Qed.

Lemma set_wr_run d h :
  exists evs, set_wr hw d h = (tt, d, evs) /\ pin_events hdr AssertWR evs.
Proof. exact (pin_fn_run Fset_wr d h). Qed.

Lemma clr_wr_run d h :
  exists evs, clr_wr hw d h = (tt, d, evs) /\ pin_events hdr DeassertWR evs.
Proof. exact (pin_fn_run Fclr_wr d h). Qed.

Lemma set_rd_run d h :
  exists evs, set_rd hw d h = (tt, d, evs) /\ pin_events hdr AssertRD evs.
Proof. exact (pin_fn_run Fset_rd d h). Qed.

Lemma clr_rd_run d h :
  exists evs, clr_rd hw d h = (tt, d, evs) /\ pin_events hdr DeassertRD evs.
Proof. exact (pin_fn_run Fclr_rd d h). Qed.

Lemma pin_trace_cons op ops e1 e2 :
  pin_events hdr op e1 -> pin_trace hdr ops e2 ->
  pin_trace hdr (op :: ops) (e1 ++ e2).
Proof. intros. cbn [pin_trace]. exists e1, e2. auto. Qed.

Lemma pin_trace_last op e : pin_events hdr op e -> pin_trace hdr [op] e.
Proof.
  intros. cbn [pin_trace]. exists e, []. rewrite app_nil_r. auto.
Qed.

(** The two bus cycles, as sequences of pin operations. *)
Lemma write_cpld_run addr data d h :
  exists evs,
    write_cpld hdr hw addr data d h = (tt, d, evs) /\
    bus_cycle hdr (BusWrite addr (uchar data)) evs.
Proof.
  unfold write_cpld.
  bind_step set_data_out_run.
  bind_step (set_addr_run addr).
  bind_step (write_data_run data).
  bind_step set_wr_run.
  bind_step clr_wr_run.
  last_step (set_data_in hw) set_data_in_run.
  eexists. split; [reflexivity|].
  unfold bus_cycle, write_cycle.
  repeat (apply pin_trace_cons; [eassumption|]).
  apply pin_trace_last. assumption.
Qed.

Lemma read_cpld_run addr d h :
  exists val, exists evs,
    read_cpld hdr hw addr d h = (val, d, evs) /\
    bus_cycle hdr (BusRead addr val) evs.
Proof.
  unfold read_cpld.
  bind_step set_data_in_run.
  bind_step (set_addr_run addr).
  bind_step set_rd_run.
  bind_step clr_rd_run.
  match goal with
  | |- context [read_data hdr hw ?d' ?h'] =>
      destruct (read_data_run d' h') as (b & e3 & E3 & P3)
  end.
  rewrite E3. cbv beta iota.
  eexists. eexists. split; [reflexivity|].
  unfold bus_cycle, read_cycle.
  repeat (apply pin_trace_cons; [eassumption|]).
  apply pin_trace_last. assumption.
Qed.

End BusEngine.

Ltac break_up :=
  repeat match goal with
         | H : exists _, _ |- _ => destruct H
         | H : _ /\ _ |- _ => destruct H
         end.

(** ** The write cycle *)

Lemma data_dir_bits_clear i :
  16 <= i < 24 -> Z.testbit 0xFF00FFFF i = false.
Proof.
  intros Hi.
  assert (H := check_bits
    (fun k => negb ((16 <=? k) && (k <? 24)) || negb (Z.testbit 0xFF00FFFF k))
    eq_refl i ltac:(lia)).
  cbv beta in H.
  replace ((16 <=? i) && (i <? 24)) with true in H
    by (symmetry; apply andb_true_intro; lia).
  cbn [negb orb] in H. apply negb_true_iff in H. exact H.
Qed.

Lemma last_write_app r h e :
  last_write r (h ++ e) =
    match last_write r e with Some v => Some v | None => last_write r h end.
Proof.
  induction h as [|x h IH]; cbn [app last_write].
  - destruct (last_write r e); reflexivity.
  - rewrite IH. destruct (last_write r e); reflexivity.
Qed.

(** On hardware that reads the read-strobe bit of GPIO1_DR back as last
    stored, a write cycle entered with the read strobe deasserted ends
    with both strobes deasserted. *)
Lemma write_cpld_keeps_rd_idle hdr hw addr data d h evs w0 :
  (forall h' w, last_write GPIO1_DR h' = Some w ->
                Z.testbit (hw h' GPIO1_DR) 1 = Z.testbit w 1) ->
  write_cpld hdr hw addr data d h = (tt, d, evs) ->
  last_write GPIO1_DR h = Some w0 -> Z.testbit w0 1 = true ->
  exists w, last_write GPIO1_DR (h ++ evs) = Some w /\
            Z.testbit w 0 = true /\ Z.testbit w 1 = true.
Proof.
  intros Hlatch E H0 Hb.
  cbv [write_cpld bind set_data_out set_addr write_data set_wr clr_wr
       set_data_in ioread32 iowrite32 emit] in E.
  cbn [app] in E. injection E as <-.
  rewrite last_write_app. cbn [last_write reg_eqb].
  eexists. split; [reflexivity|]. split.
  - rewrite wrap32_bit, Z.lor_spec by lia. apply orb_true_r.
  - rewrite wrap32_bit, Z.lor_spec, wrap32_bit by lia.
    erewrite Hlatch
      by (rewrite last_write_app; cbn [last_write reg_eqb]; reflexivity).
    rewrite wrap32_bit, Z.land_spec, wrap32_bit by lia.
    erewrite Hlatch
      by (rewrite !last_write_app; cbn [last_write reg_eqb]; exact H0).
    rewrite Hb. reflexivity.
Qed.

(** C7: a [write_cpld] bus cycle emits exactly the pin operations
    data-lines-to-output, drive address, drive data, assert write strobe,
    deassert write strobe, data-lines-to-input, in this order; the
    address and data are therefore driven before the strobe asserts, and
    the cycle leaves the write strobe deasserted (bit 0 of the last value
    stored in GPIO1_DR is set) and the data lines as inputs (bits 16-23
    of the last value stored in GPIO3_GDIR are clear); the read strobe
    (bit 1 of GPIO1_DR) is stored back as it was read throughout, so
    that, on hardware that reads this bit back as last stored, a cycle
    entered with the read strobe deasserted ends with both strobes
    deasserted. *)
Theorem write_cpld_pin_sequence hdr hw addr data d h :
  exists evs,
    write_cpld hdr hw addr data d h = (tt, d, evs) /\
    pin_trace hdr
      [DataOut; DriveAddr addr; DriveData (uchar data);
       AssertWR; DeassertWR; DataIn] evs /\
    (exists w, last_write GPIO1_DR evs = Some w /\ Z.testbit w 0 = true) /\
    (exists g, last_write GPIO3_GDIR evs = Some g /\
               forall i, 16 <= i < 24 -> Z.testbit g i = false) /\
    (forall pre v w post,
       evs = pre ++ IoRead GPIO1_DR v :: IoWrite GPIO1_DR w :: post ->
       Z.testbit w 1 = Z.testbit v 1) /\
    ((forall h' w, last_write GPIO1_DR h' = Some w ->
                   Z.testbit (hw h' GPIO1_DR) 1 = Z.testbit w 1) ->
     forall w0, last_write GPIO1_DR h = Some w0 -> Z.testbit w0 1 = true ->
     exists w, last_write GPIO1_DR (h ++ evs) = Some w /\
               Z.testbit w 0 = true /\ Z.testbit w 1 = true).
Proof.
  destruct (write_cpld_run hdr hw addr data d h) as (evs & E & C).
  exists evs. split; [exact E|]. split; [exact C|].
  assert (Hidle := fun Hl w0 =>
            write_cpld_keeps_rd_idle hdr hw addr data d h evs w0 Hl E).
  clear E. cbn [bus_cycle write_cycle pin_trace pin_events] in C.
  unfold rmw in C. break_up. subst.
  cbn [app last_write reg_eqb]. split; [|split; [|split; [|exact Hidle]]].
  - eexists. split; [reflexivity|].
    rewrite Z.lor_spec. apply orb_true_iff. right. reflexivity.
  - eexists. split; [reflexivity|].
    intros i Hi. rewrite Z.land_spec, data_dir_bits_clear by assumption.
    apply andb_false_r.
  - intros pre v w post Heq.
    repeat (destruct pre as [|? pre]; cbn [app] in Heq;
            [ try discriminate Heq; injection Heq as <- <- _;
              first [ rewrite Z.land_spec; apply andb_true_r
                    | rewrite Z.lor_spec; apply orb_false_r ]
            | first [ discriminate Heq | injection Heq as _ Heq ] ]).
Qed.

Lemma write_cpld_pin_sequence_witness :
  exists evs w,
    write_cpld sim_h (sim_hw (sim_mem 0 0)) 0x206 1 dev_open
      [IoWrite GPIO1_DR 3] = (tt, dev_open, evs) /\
    last_write GPIO1_DR ([IoWrite GPIO1_DR 3] ++ evs) = Some w /\
    Z.testbit w 0 = true /\ Z.testbit w 1 = true.
Proof.
  destruct (write_cpld_pin_sequence sim_h (sim_hw (sim_mem 0 0)) 0x206 1
              dev_open [IoWrite GPIO1_DR 3])
    as (evs & E & _ & _ & _ & _ & Hidle).
  assert (Hlatch : forall h' w, last_write GPIO1_DR h' = Some w ->
            Z.testbit (sim_hw (sim_mem 0 0) h' GPIO1_DR) 1 = Z.testbit w 1).
  { intros h' w Hw. unfold sim_hw. rewrite Hw. reflexivity. }
  destruct (Hidle Hlatch 3 eq_refl eq_refl) as (w & Hw & Hb0 & Hb1).
  exists evs, w. repeat split; assumption.
Defined.

(** ** The read cycle *)

(** C3, as the code has it: a [read_cpld] bus cycle emits the pin
    operations data-lines-to-input, drive address, assert read strobe,
    deassert read strobe and only then samples the data lines; the byte
    sampled is the result.  The sample is the last access of the cycle,
    and the access before it is the store that sets the read-strobe bit
    again. *)
Theorem read_cpld_pin_sequence hdr hw addr d h :
  exists val evs,
    read_cpld hdr hw addr d h = (val, d, evs) /\
    pin_trace hdr
      [DataIn; DriveAddr addr; AssertRD; DeassertRD; Sample val] evs /\
    exists pre w v,
      evs = pre ++ [IoWrite GPIO1_DR w; IoRead GPIO3_DR v] /\
      Z.testbit w 1 = true.
Proof.
  destruct (read_cpld_run hdr hw addr d h) as (val & evs & E & C).
  exists val, evs. split; [exact E|]. split; [exact C|].
  clear E. cbn [bus_cycle read_cycle pin_trace pin_events] in C.
  unfold rmw in C. break_up. subst.
  cbn [app].
  match goal with
  | |- context [[?a; ?b; ?c; ?d0; ?e; ?f; ?g; IoWrite GPIO1_DR ?w;
                 IoRead GPIO3_DR ?v]] =>
      exists [a; b; c; d0; e; f; g], w, v
  end.
  split; [reflexivity|].
  rewrite Z.lor_spec. apply orb_true_iff. right. reflexivity.
Qed.

(** C3, as stated, fails: on the simulated link the log of a read cycle
    at address 0 is not the sample-before-deassert sequence, whatever
    byte is claimed to have been sampled. *)
Lemma read_cpld_samples_after_strobe :
  ~ exists val,
      pin_trace sim_h (read_cycle_sample_first 0 val)
        (snd (read_cpld sim_h (sim_hw (sim_mem 1 0)) 0 dev_open [])).
Proof.
  intros (val & C).
  set (evs := snd _) in C. vm_compute in evs. subst evs.
  cbn [read_cycle_sample_first pin_trace pin_events] in C.
  unfold rmw in C. break_up. subst.
  cbn [app] in *. discriminate.
Qed.

(** ** Read-modify-write of the pin registers *)

(** A value below [2^w], moved to a field that the mask clears, has no
    bit under the mask. *)
Lemma field_fits w x s msk :
  0 <= w -> 0 <= s -> 0 <= x < 2 ^ w ->
  Z.land (Z.shiftl (Z.ones w) s) msk = 0 ->
  Z.land (wrap32 (Z.shiftl x s)) msk = 0.
Proof.
  intros Hw Hs Hx Hm. apply Z.bits_inj'. intros i Hi.
  rewrite Z.land_spec, Z.bits_0.
  destruct (Z.testbit (wrap32 (Z.shiftl x s)) i) eqn:T; [|reflexivity].
  cbn [andb].
  assert (Hb : Z.testbit (Z.land (Z.shiftl (Z.ones w) s) msk) i = false)
    by (rewrite Hm; apply Z.bits_0).
  rewrite Z.land_spec in Hb.
  assert (Hlt : i < 32).
  { destruct (Z.lt_ge_cases i 32) as [|Hge]; [assumption|].
    unfold wrap32 in T. rewrite Z.mod_pow2_bits_high in T by lia.
    discriminate. }
  rewrite wrap32_bit in T by lia.
  rewrite Z.shiftl_spec in T by assumption.
  assert (His : 0 <= i - s).
  { destruct (Z.lt_ge_cases (i - s) 0) as [Hneg|]; [|assumption].
    rewrite Z.testbit_neg_r in T by assumption. discriminate. }
  assert (Hiw : i - s < w).
  { destruct (Z.lt_ge_cases (i - s) w) as [|Hge]; [assumption|].
    rewrite <- (Z.mod_small x (2 ^ w)) in T by assumption.
    rewrite Z.mod_pow2_bits_high in T by lia. discriminate. }
  rewrite Z.shiftl_spec in Hb by assumption.
  rewrite Z.ones_spec_low in Hb by lia.
  exact Hb.
Qed.

(** With a header whose data mask clears the eight bits the data byte is
    shifted to, every data byte fits. *)
Lemma write_data_fits hdr b :
  0 <= CPLD_DATA_SHIFT hdr ->
  Z.land (Z.shiftl 0xFF (CPLD_DATA_SHIFT hdr)) (GPIO3_DATA_MSK hdr) = 0 ->
  fits hdr (Fwrite_data b).
Proof.
  intros Hs Hm. cbn [fits].
  apply (field_fits 8); try lia; [apply uchar_range | exact Hm].
Qed.

(** On ten address lines, the addresses below 1024 fit. *)
Lemma set_addr_fits_sim a : 0 <= a < 1024 -> fits sim_h (Fset_addr a).
Proof.
  intros Ha. cbn [fits sim_h GPIO4_ADDR_MSK CPLD_ADDR_SHIFT].
  apply (field_fits 10); try lia. reflexivity.
Qed.

Lemma strobe_and_dir_masks :
  (forall i, 0 <= i < 32 -> (i =? 0) = false ->
             Z.testbit 0xFFFFFFFE i = true /\ Z.testbit 0x1 i = false) /\
  (forall i, 0 <= i < 32 -> (i =? 1) = false ->
             Z.testbit 0xFFFFFFFD i = true /\ Z.testbit 0x2 i = false) /\
  (forall i, 0 <= i < 32 -> (16 <=? i) && (i <? 24) = false ->
             Z.testbit 0xFF00FFFF i = true /\ Z.testbit 0xFF0000 i = false).
Proof.
  (split; [|split]); intros i Hi Ho; split;
    match goal with
    | |- Z.testbit ?c i = true =>
        assert (H := check_bits
          (fun k => ((k =? 0) && (c =? 0xFFFFFFFE)) ||
                    ((k =? 1) && (c =? 0xFFFFFFFD)) ||
                    (((16 <=? k) && (k <? 24)) && (c =? 0xFF00FFFF)) ||
                    Z.testbit c k) eq_refl i Hi)
    | |- Z.testbit ?c i = false =>
        assert (H := check_bits
          (fun k => ((k =? 0) && (c =? 0x1)) ||
                    ((k =? 1) && (c =? 0x2)) ||
                    (((16 <=? k) && (k <? 24)) && (c =? 0xFF0000)) ||
                    negb (Z.testbit c k)) eq_refl i Hi)
    end;
    cbv beta in H; rewrite ?Ho in H;
    cbn [Z.eqb Pos.eqb andb orb] in H;
    rewrite ?andb_false_r in H; cbn [orb] in H;
    try apply negb_true_iff in H; exact H.
Qed.

(** C8, as the code has it: each of the eight pin-register modifications
    reads its register and stores a value that agrees with the value read
    on every bit the operation does not own, provided the address (or
    data byte) driven, once shifted to its lines, has no bit outside
    them. *)
Theorem pin_fn_keeps_foreign_bits hdr hw f d h :
  fits hdr f -> keeps_foreign_bits hdr hw f d h.
Proof.
  intros Hfit. unfold keeps_foreign_bits.
  destruct strobe_and_dir_masks as (Hwr & Hrd & Hdir).
  destruct (pin_fn_run hdr hw f d h) as (evs & E & P).
  rewrite E. clear E.
  destruct f; cbn [pin_op_of pin_events pin_reg owned fits] in *;
    destruct P as (v & Hv & ->);
    eexists; eexists; (split; [reflexivity|]); (split; [exact Hv|]);
    (split; [first [apply wrap32_u32 | apply u32_land; exact Hv
                   | apply u32_lor; [exact Hv | apply u32_const; reflexivity]]|]);
    intros i Hi Ho.
  - rewrite Z.land_spec, (proj1 (Hwr i Hi Ho)). apply andb_true_r.
  - rewrite Z.lor_spec, (proj2 (Hwr i Hi Ho)). apply orb_false_r.
  - rewrite Z.land_spec, (proj1 (Hrd i Hi Ho)). apply andb_true_r.
  - rewrite Z.lor_spec, (proj2 (Hrd i Hi Ho)). apply orb_false_r.
  - rewrite Z.land_spec, (proj1 (Hdir i Hi Ho)). apply andb_true_r.
  - rewrite Z.lor_spec, (proj2 (Hdir i Hi Ho)). apply orb_false_r.
  - apply negb_false_iff in Ho.
    assert (Hx : Z.testbit (Z.shiftl addr (CPLD_ADDR_SHIFT hdr)) i = false).
    { rewrite <- (wrap32_bit _ i Hi).
      assert (Hb := f_equal (fun z => Z.testbit z i) Hfit).
      cbv beta in Hb. rewrite Z.land_spec, Ho, Z.bits_0, andb_true_r in Hb.
      exact Hb. }
    rewrite wrap32_bit, Z.lor_spec, Z.land_spec, Ho, Hx by exact Hi.
    rewrite andb_true_r. apply orb_false_r.
  - apply negb_false_iff in Ho.
    assert (Hx : Z.testbit (Z.shiftl (uchar data) (CPLD_DATA_SHIFT hdr)) i
                 = false).
    { rewrite <- (wrap32_bit _ i Hi).
      assert (Hb := f_equal (fun z => Z.testbit z i) Hfit).
      cbv beta in Hb. rewrite Z.land_spec, Ho, Z.bits_0, andb_true_r in Hb.
      exact Hb. }
    rewrite wrap32_bit, Z.lor_spec, Z.land_spec, Ho, Hx by exact Hi.
    rewrite andb_true_r. apply orb_false_r.
Qed.

Lemma pin_fn_keeps_foreign_bits_witness :
  fits sim_h (Fset_addr 0x206) /\
  keeps_foreign_bits sim_h (sim_hw (sim_mem 1 0)) (Fset_addr 0x206)
    dev_open [].
Proof.
  assert (Hfit : fits sim_h (Fset_addr 0x206)) by reflexivity.
  split; [exact Hfit|].
  apply (pin_fn_keeps_foreign_bits sim_h (sim_hw (sim_mem 1 0))
           (Fset_addr 0x206) dev_open [] Hfit).
Defined.

(** The spill is no accident of one pin layout: whatever the header,
    if some bit [j] at or above the address shift is not an address line
    and reads as 0, driving address [2^(j - shift)] sets it. *)
Lemma set_addr_spills hdr hw d h j :
  0 <= CPLD_ADDR_SHIFT hdr <= j -> j < 32 ->
  Z.testbit (GPIO4_ADDR_MSK hdr) j = true ->
  Z.testbit (hw h GPIO4_DR) j = false ->
  ~ keeps_foreign_bits hdr hw
      (Fset_addr (2 ^ (j - CPLD_ADDR_SHIFT hdr))) d h.
Proof.
  intros Hs Hj Hm Hv (v & v' & E & _ & _ & Hbits).
  cbv [run_pin_fn set_addr bind ioread32 iowrite32 emit app pin_reg] in E.
  injection E as <- <-.
  specialize (Hbits j ltac:(lia)). cbn [owned] in Hbits.
  rewrite Hm in Hbits. specialize (Hbits eq_refl).
  rewrite !wrap32_bit, Z.lor_spec, Z.shiftl_spec in Hbits by lia.
  rewrite Z.pow2_bits_true, Hv, orb_true_r in Hbits by lia.
  discriminate.
Qed.

(** C8, as stated, fails: driving address 1024 on the ten address lines
    stores a value whose bit 16, which is no address line, differs from
    the bit read. *)
Lemma set_addr_spills_into_foreign_bits :
  ~ keeps_foreign_bits sim_h (fun _ _ => 0) (Fset_addr 1024) dev_open [].
Proof.
  intros (v & v' & E & _ & _ & Hbits).
  vm_compute in E. injection E as <- <-.
  specialize (Hbits 16 ltac:(lia) eq_refl).
  vm_compute in Hbits. discriminate.
Qed.

(** ** Driver-level logs *)

Section DriverRuns.

Variable hdr : iobus_h.
Variable hw : list event -> reg -> Z.

Lemma refines_app s1 e1 s2 e2 :
  refines hdr s1 e1 -> refines hdr s2 e2 -> refines hdr (s1 ++ s2) (e1 ++ e2).
Proof.
  induction 1; intros H2; cbn [app].
  - exact H2.
  - rewrite <- app_assoc. apply refines_cycle; auto.
  - rewrite <- app_assoc. apply refines_pulse; auto.
  - apply refines_ev; auto.
Qed.

Lemma refines_pulse_cons r f v steps rest :
  u32 v -> refines hdr steps rest ->
  refines hdr (Pulse r f :: steps) (IoRead r v :: IoWrite r (f v) :: rest).
Proof.
  intros Hv Hr.
  apply (refines_pulse hdr r f [IoRead r v; IoWrite r (f v)] steps rest);
    [exists v; auto | exact Hr].
Qed.

Lemma emit_run e d h : exists evs, emit e d h = (tt, d, evs) /\ evs = [e].
Proof. eexists. split; reflexivity. Qed.

Lemma spin_unlock_irq_run d h :
  exists evs, spin_unlock_irq d h = (tt, d, evs) /\ evs = [SpinUnlockIrq].
Proof. eexists. split; reflexivity. Qed.

Lemma get_dev_run d h : exists evs, get_dev d h = (d, d, evs) /\ evs = [].
Proof. eexists. split; reflexivity. Qed.

Lemma set_send_stat_run s d h :
  exists evs,
    set_send_stat s d h = (tt, with_send_stat d s, evs) /\
    evs = [SetSendStat s].
Proof. eexists. split; reflexivity. Qed.

Lemma set_recv_stat_run s d h :
  exists evs,
    set_recv_stat s d h = (tt, with_recv_stat d s, evs) /\
    evs = [SetRecvStat s].
Proof. eexists. split; reflexivity. Qed.

Lemma set_recv_bytes_run n d h :
  exists evs,
    set_recv_bytes n d h = (tt, with_recv_bytes d n, evs) /\
    evs = [SetRecvBytes n].
Proof. eexists. split; reflexivity. Qed.

(** Like [bind_step], for a call whose result is used. *)
Ltac bind_read L v :=
  match goal with
  | |- context [bind _ _ ?d ?h] =>
      let e := fresh "e" in
      let E := fresh "E" in
      let P := fresh "P" in
      destruct (L d h) as (v & e & E & P);
      rewrite (bind_eq _ _ _ _ _ _ _ E); cbv beta
  end.

Ltac refines_steps :=
  cbn [app];
  repeat first
    [ apply refines_nil
    | apply refines_ev; [reflexivity|]
    | apply refines_cycle; [eassumption|]
    | apply refines_app; [eassumption|] ].

Lemma irq_ack_run d h :
  exists evs,
    irq_ack hw d h = (tt, d, evs) /\
    refines hdr [Pulse GPIO1_DR (fun v => Z.lor 0x100 v);
                 Pulse GPIO1_DR (fun v => Z.land 0xfffffeff v)] evs.
Proof.
  cbv [irq_ack bind ioread32 iowrite32 emit app].
  eexists. split; [reflexivity|].
  rewrite (wrap32_id (Z.lor 256 _))
    by (apply u32_lor; [apply u32_const; reflexivity | apply wrap32_u32]).
  rewrite (wrap32_id (Z.land 4294967039 _))
    by (rewrite Z.land_comm; apply u32_land, wrap32_u32).
  apply (refines_pulse_cons GPIO1_DR (fun v => Z.lor 256 v));
    [apply wrap32_u32|].
  apply (refines_pulse_cons GPIO1_DR (fun v => Z.land 4294967039 v));
    [apply wrap32_u32|].
  constructor.
Qed.

(** The frame loop of [iobus_write]. *)
Lemma write_loop_run buf k s d h :
  exists evs,
    for_from k (Z.of_nat s)
      (fun addr => write_cpld hdr hw addr (buf addr)) d h = (tt, d, evs) /\
    refines hdr
      (map (fun j => Cycle (BusWrite (Z.of_nat j) (uchar (buf (Z.of_nat j)))))
           (seq s k)) evs.
Proof.
  revert s h. induction k as [|k IH]; intros s h; cbn [for_from seq map].
  - eexists. split; [reflexivity | constructor].
  - bind_step (write_cpld_run hdr hw (Z.of_nat s) (buf (Z.of_nat s))).
    replace (Z.of_nat s + 1) with (Z.of_nat (S s)) by lia.
    destruct (IH (S s) (h ++ e)) as (e' & E' & P').
    rewrite E'. cbv beta iota.
    eexists. split; [reflexivity|].
    apply refines_cycle; assumption.
Qed.

(** The drain loop of the interrupt handler. *)
Lemma drain_body_run i d h :
  exists b, exists evs,
    (b <- read_cpld hdr hw i ;; set_recv_buf i b) d h
    = (tt, with_recv_buf d (upd (recv_buf d) i b), evs) /\
    refines hdr [Cycle (BusRead i b); Ev (SetRecvBuf i b)] evs.
Proof.
  bind_read (read_cpld_run hdr hw i) b.
  exists b. eexists. split; [reflexivity|].
  cbv [set_recv_buf bind get_dev put_dev emit app]. refines_steps.
Qed.

Lemma drain_loop_run k s d h :
  exists bs, exists evs,
    for_from k (Z.of_nat s)
      (fun addr => b <- read_cpld hdr hw addr ;; set_recv_buf addr b) d h
    = (tt, with_recv_buf d (fill (recv_buf d) (Z.of_nat s) bs), evs) /\
    (length bs = k /\ refines hdr (drain_steps (Z.of_nat s) bs) evs).
Proof.
  revert s d h. induction k as [|k IH]; intros s d h; cbn [for_from].
  - exists []. eexists. cbn [fill drain_steps length].
    split; [destruct d; reflexivity|]. split; [reflexivity | constructor].
  - destruct (drain_body_run (Z.of_nat s) d h) as (b & e & E & P).
    rewrite (bind_eq _ _ _ _ _ _ _ E). cbv beta.
    replace (Z.of_nat s + 1) with (Z.of_nat (S s)) by lia.
    destruct (IH (S s) (with_recv_buf d (upd (recv_buf d) (Z.of_nat s) b))
                (h ++ e)) as (bs & e' & E' & Hlen & P').
    rewrite E'. cbv beta iota.
    exists (b :: bs). eexists. split; [|split].
    + cbn [fill]. replace (Z.of_nat s + 1) with (Z.of_nat (S s)) by lia.
      reflexivity.
    + cbn [length]. congruence.
    + cbn [drain_steps].
      replace (Z.of_nat s + 1) with (Z.of_nat (S s)) by lia.
      apply (refines_app _ _ _ _ P P').
Qed.

(** *** The interrupt handler *)

Lemma handle_rmc_run d h :
  exists lo hi bs v evs,
    handle_rmc hdr hw d h =
      (IRQ_HANDLED,
       {| send_stat := send_stat d; recv_stat := IDLE;
          recv_bytes := rx_len lo hi; send_buf := send_buf d;
          recv_buf := fill (recv_buf d) 0 bs |}, evs) /\
    length bs = Z.to_nat (rx_len lo hi) /\
    refines hdr (rx_steps hdr lo hi bs v) evs.
Proof.
  unfold handle_rmc.
  bind_read (read_cpld_run hdr hw (RDN1 hdr)) lo.
  bind_read (read_cpld_run hdr hw (RDN2 hdr)) hi.
  bind_step (set_recv_bytes_run (Z.land (Z.lor lo (Z.shiftl hi 8)) 0xFFFF)).
  bind_step get_dev_run.
  cbn [recv_bytes with_recv_bytes].
  match goal with
  | |- context [bind (for_from ?k 0 _) _ ?d' ?h'] =>
      destruct (drain_loop_run k 0 d' h') as (bs & el & El & Hlen & Pl)
  end.
  change (Z.of_nat 0) with 0 in El, Pl.
  rewrite (bind_eq _ _ _ _ _ _ _ El). cbv beta.
  bind_read (read_cpld_run hdr hw (RTER hdr)) v.
  bind_step (write_cpld_run hdr hw (RTER hdr) (Z.lor v (HREC_EN hdr))).
  bind_step (set_recv_stat_run IDLE).
  bind_step (emit_run (WakeUp recv_wq)).
  bind_step (emit_run SpinUnlockIrq).
  cbv beta iota. subst.
  exists lo, hi, bs, v. eexists. split; [reflexivity|].
  split; [exact Hlen|].
  unfold rx_steps. refines_steps.
Qed.

Lemma handle_tmc_run isr d h :
  (Z.land isr (TMC hdr) = 0 -> handle_tmc hdr hw isr d h = (IRQ_NONE, d, [])) /\
  (Z.land isr (TMC hdr) <> 0 ->
   exists v evs,
     handle_tmc hdr hw isr d h = (IRQ_HANDLED, with_send_stat d IDLE, evs) /\
     refines hdr (tx_steps hdr v) evs).
Proof.
  unfold handle_tmc. split; intros Ht.
  - rewrite Ht. reflexivity.
  - destruct (Z.eqb_spec (Z.land isr (TMC hdr)) 0) as [|_]; [contradiction|].
    cbn [negb].
    bind_step (write_cpld_run hdr hw (RXTXEN hdr) (RXTXEN_R hdr)).
    bind_read (read_cpld_run hdr hw (RTER hdr)) v.
    bind_step (write_cpld_run hdr hw (RTER hdr) (Z.lor v (HREC_EN hdr))).
    bind_step (set_send_stat_run IDLE).
    bind_step (emit_run (WakeUp send_wq)).
    bind_step (emit_run SpinUnlockIrq).
    cbv beta iota. subst.
    exists v. eexists. split; [reflexivity|].
    unfold tx_steps. refines_steps.
Qed.

(** The head of every dispatch: acknowledge, lock, status reads. *)
Lemma handler_status_run d h :
  exists ea ei er,
    irq_ack hw d h = (tt, d, ea) /\
    read_cpld hdr hw (ISR hdr) d ((h ++ ea) ++ [SpinLockIrq])
      = (isr_seen hdr hw d h, d, ei) /\
    read_cpld hdr hw (RSR hdr) d (((h ++ ea) ++ [SpinLockIrq]) ++ ei)
      = (rsr_seen hdr hw d h, d, er) /\
    refines hdr ack_steps (ea ++ [SpinLockIrq]) /\
    bus_cycle hdr (BusRead (ISR hdr) (isr_seen hdr hw d h)) ei /\
    bus_cycle hdr (BusRead (RSR hdr) (rsr_seen hdr hw d h)) er.
Proof.
  destruct (irq_ack_run d h) as (ea & Ea & Pa).
  destruct (read_cpld_run hdr hw (ISR hdr) d ((h ++ ea) ++ [SpinLockIrq]))
    as (isr & ei & Ei & Pi).
  destruct (read_cpld_run hdr hw (RSR hdr) d
              (((h ++ ea) ++ [SpinLockIrq]) ++ ei)) as (rsr & er & Er & Pr).
  assert (Hl : spin_lock_irq d (h ++ ea) = (tt, d, [SpinLockIrq]))
    by reflexivity.
  assert (Hi : isr_seen hdr hw d h = isr).
  { unfold isr_seen.
    rewrite (bind_eq _ _ _ _ _ _ _ Ea). cbv beta.
    rewrite (bind_eq _ _ _ _ _ _ _ Hl). cbv beta.
    rewrite Ei. reflexivity. }
  assert (Hr : rsr_seen hdr hw d h = rsr).
  { unfold rsr_seen.
    rewrite (bind_eq _ _ _ _ _ _ _ Ea). cbv beta.
    rewrite (bind_eq _ _ _ _ _ _ _ Hl). cbv beta.
    rewrite (bind_eq _ _ _ _ _ _ _ Ei). cbv beta.
    rewrite Er. reflexivity. }
  rewrite Hi, Hr. exists ea, ei, er.
  repeat split; try assumption.
  unfold ack_steps.
  change [Pulse GPIO1_DR (fun v => Z.lor 256 v);
          Pulse GPIO1_DR (fun v => Z.land 4294967039 v); Ev SpinLockIrq]
    with ([Pulse GPIO1_DR (fun v => Z.lor 256 v);
           Pulse GPIO1_DR (fun v => Z.land 4294967039 v)] ++ [Ev SpinLockIrq]).
  apply refines_app; [exact Pa|]. refines_steps.
Qed.

(** A dispatch with the receive-complete flag set and no receive error. *)
Lemma handler_rx_run d h :
  Z.land (isr_seen hdr hw d h) (RMC hdr) <> 0 ->
  rsr_seen hdr hw d h = 0 ->
  exists lo hi bs v evs,
    hdlc_interrupt_handler hdr hw true d h =
      (IRQ_HANDLED,
       {| send_stat := send_stat d; recv_stat := IDLE;
          recv_bytes := rx_len lo hi; send_buf := send_buf d;
          recv_buf := fill (recv_buf d) 0 bs |}, evs) /\
    length bs = Z.to_nat (rx_len lo hi) /\
    refines hdr
      (ack_steps ++
       status_steps hdr (isr_seen hdr hw d h) (rsr_seen hdr hw d h) ++
       rx_steps hdr lo hi bs v) evs.
Proof.
  intros Hrmc Hrsr.
  destruct (handler_status_run d h)
    as (ea & ei & er & Ea & Ei & Er & Pa & Pi & Pr).
  unfold hdlc_interrupt_handler. cbn [negb].
  rewrite (bind_eq _ _ _ _ _ _ _ Ea). cbv beta.
  bind_step (emit_run SpinLockIrq). subst.
  rewrite (bind_eq _ _ _ _ _ _ _ Ei). cbv beta.
  unfold status_steps.
  destruct (Z.eqb_spec (Z.land (isr_seen hdr hw d h) (RMC hdr)) 0) as [|_];
    [contradiction|]. cbn [negb].
  rewrite (bind_eq _ _ _ _ _ _ _ Er). cbv beta.
  rewrite Hrsr. cbn [Z.eqb].
  match goal with
  | |- context [handle_rmc hdr hw ?d' ?h'] =>
      destruct (handle_rmc_run d' h')
        as (lo & hi & bs & v & erx & Erx & Hlen & Prx)
  end.
  rewrite Erx. cbv beta iota.
  exists lo, hi, bs, v. eexists. split; [reflexivity|].
  split; [exact Hlen|].
  rewrite Hrsr in Pr.
  rewrite (app_assoc ea [SpinLockIrq]).
  apply refines_app; [exact Pa|].
  refines_steps. exact Prx.
Qed.

(** Every other dispatch goes on to the transmit-complete test. *)
Lemma handler_not_rx_run d h :
  Z.land (isr_seen hdr hw d h) (RMC hdr) = 0 \/ rsr_seen hdr hw d h <> 0 ->
  exists pre,
    refines hdr
      (ack_steps ++
       status_steps hdr (isr_seen hdr hw d h) (rsr_seen hdr hw d h)) pre /\
    (Z.land (isr_seen hdr hw d h) (TMC hdr) = 0 ->
     hdlc_interrupt_handler hdr hw true d h = (IRQ_NONE, d, pre)) /\
    (Z.land (isr_seen hdr hw d h) (TMC hdr) <> 0 ->
     exists v e,
       hdlc_interrupt_handler hdr hw true d h =
         (IRQ_HANDLED, with_send_stat d IDLE, pre ++ e) /\
       refines hdr (tx_steps hdr v) e).
Proof.
  intros Hcase.
  destruct (handler_status_run d h)
    as (ea & ei & er & Ea & Ei & Er & Pa & Pi & Pr).
  unfold hdlc_interrupt_handler. cbn [negb].
  rewrite (bind_eq _ _ _ _ _ _ _ Ea). cbv beta.
  bind_step (emit_run SpinLockIrq). subst.
  rewrite (bind_eq _ _ _ _ _ _ _ Ei). cbv beta.
  unfold status_steps.
  destruct (Z.eqb_spec (Z.land (isr_seen hdr hw d h) (RMC hdr)) 0)
    as [Hz|Hnz]; cbn [negb].
  - exists ((ea ++ [SpinLockIrq]) ++ ei). split.
    + apply refines_app; [exact Pa|]. refines_steps.
      rewrite <- (app_nil_r ei). apply refines_cycle; [exact Pi|constructor].
    + match goal with
      | |- context [handle_tmc hdr hw ?i ?d' ?h'] =>
          destruct (handle_tmc_run i d' h') as (Hnone & Htx)
      end.
      split; intros Ht.
      * rewrite (Hnone Ht). cbv beta iota. cbn [app].
        rewrite !app_nil_r, <- app_assoc. reflexivity.
      * destruct (Htx Ht) as (v & etx & Etx & Ptx). rewrite Etx.
        cbv beta iota. exists v, etx. split; [|exact Ptx].
        cbn [app]. rewrite <- !app_assoc. reflexivity.
  - destruct Hcase as [|Hrsr]; [contradiction|].
    rewrite (bind_eq _ _ _ _ _ _ _ Er). cbv beta.
    destruct (Z.eqb_spec (rsr_seen hdr hw d h) 0) as [|_]; [contradiction|].
    exists ((ea ++ [SpinLockIrq]) ++ ei ++ er). split.
    + apply refines_app; [exact Pa|]. refines_steps.
      rewrite <- (app_nil_r er). apply refines_cycle; [exact Pr|constructor].
    + match goal with
      | |- context [handle_tmc hdr hw ?i ?d' ?h'] =>
          destruct (handle_tmc_run i d' h') as (Hnone & Htx)
      end.
      split; intros Ht.
      * rewrite (Hnone Ht). cbv beta iota. cbn [app].
        rewrite !app_nil_r, <- !app_assoc. reflexivity.
      * destruct (Htx Ht) as (v & etx & Etx & Ptx). rewrite Etx.
        cbv beta iota. exists v, etx. split; [|exact Ptx].
        cbn [app]. rewrite <- !app_assoc. reflexivity.
Qed.

(** *** iobus_write *)

Lemma copied_all avail n : 0 <= n <= avail -> copied avail n = n.
Proof. unfold copied. lia. Qed.


Lemma copied_le avail n : 0 <= n -> copied avail n <= n.
Proof. unfold copied. lia. Qed.

Lemma staged_buf_frame umem avail n old i :
  copied avail n = n -> 0 <= i < n ->
  staged_buf umem avail n old i = uchar (umem i).
Proof.
  intros Hn Hi. unfold staged_buf. rewrite Hn.
  replace ((0 <=? i) && (i <? n)) with true
    by (symmetry; apply andb_true_intro; lia).
  reflexivity.
Qed.

Lemma land_255 x : 0 <= x -> Z.land x 0xFF = x mod 256.
Proof. intros. change 0xFF with (Z.ones 8). apply Z.land_ones. lia. Qed.

Lemma length_low_byte count :
  0 <= count -> uchar (uchar (Z.land count 0xFF)) = count mod 256.
Proof.
  intros. rewrite uchar_uchar, land_255 by assumption.
  apply uchar_id. apply Z.mod_pos_bound. reflexivity.
Qed.

Lemma length_high_byte count :
  0 <= count ->
  uchar (uchar (Z.land (Z.shiftr count 8) 0xFF)) = count / 256 mod 256.
Proof.
  intros. rewrite uchar_uchar, land_255 by (apply Z.shiftr_nonneg; lia).
  rewrite Z.shiftr_div_pow2 by lia. change (2 ^ 8) with 256.
  apply uchar_id. apply Z.mod_pos_bound. reflexivity.
Qed.

Lemma copy_from_user_run umem avail n d h :
  exists evs,
    copy_from_user umem avail n d h =
      (n - copied avail n,
       with_send_buf d (staged_buf umem avail n (send_buf d)), evs) /\
    evs = [].
Proof. eexists. split; reflexivity. Qed.

Lemma iobus_write_busy nonblock umem avail count d h :
  send_stat d = BUSY ->
  iobus_write hdr hw nonblock umem avail count d h =
    (if nonblock then Returned (- EAGAIN) else Sleeping send_wq, d, []).
Proof.
  intros Hb. unfold iobus_write.
  bind_step get_dev_run. subst. rewrite Hb.
  destruct nonblock; reflexivity.
Qed.

Lemma iobus_write_fault nonblock umem avail count d h :
  send_stat d = IDLE -> copied avail count < count ->
  iobus_write hdr hw nonblock umem avail count d h =
    (Returned (- EFAULT),
     with_send_buf d (staged_buf umem avail count (send_buf d)), []).
Proof.
  intros Hi Ha. unfold iobus_write.
  bind_step get_dev_run. subst. rewrite Hi.
  bind_step (copy_from_user_run umem avail count). subst.
  destruct (Z.eqb_spec (count - copied avail count) 0) as [|_]; [lia|].
  reflexivity.
Qed.

Lemma iobus_write_send_run nonblock umem avail count d h :
  send_stat d = IDLE -> 0 <= count -> copied avail count = count ->
  exists v evs,
    iobus_write hdr hw nonblock umem avail count d h =
      (Returned count,
       with_send_stat
         (with_send_buf d (staged_buf umem avail count (send_buf d))) BUSY,
       evs) /\
    refines hdr
      (Ev SpinLockIrq ::
       stage_steps hdr (fun a => uchar (umem a))
         (uchar (staged_buf umem avail count (send_buf d) 0)) count ++
       arm_steps hdr v ++ [Ev (SetSendStat BUSY); Ev SpinUnlockIrq]) evs.
Proof.
  intros Hi Hc Hall. unfold iobus_write.
  bind_step get_dev_run. subst. rewrite Hi.
  bind_step (copy_from_user_run umem avail count). subst.
  rewrite Hall, Z.sub_diag. cbn [Z.eqb negb].
  bind_step (emit_run SpinLockIrq).
  bind_step get_dev_run. subst.
  cbn [send_buf with_send_buf].
  set (buf := staged_buf umem avail count (send_buf d)).
  match goal with
  | |- context [bind (for_from ?k 0 _) _ ?d' ?h'] =>
      destruct (write_loop_run buf k 0 d' h') as (el & El & Pl)
  end.
  change (Z.of_nat 0) with 0 in El.
  rewrite (bind_eq _ _ _ _ _ _ _ El). cbv beta.
  bind_step (write_cpld_run hdr hw (RPAR hdr) (buf 0)).
  bind_step (write_cpld_run hdr hw (TNUMR_L hdr) (uchar (Z.land count 0xFF))).
  bind_step (write_cpld_run hdr hw (TNUMR_H hdr)
               (uchar (Z.land (Z.shiftr count 8) 0xFF))).
  bind_step (write_cpld_run hdr hw (RXTXEN hdr) (RXTXEN_T hdr)).
  bind_read (read_cpld_run hdr hw (RTER hdr)) v.
  bind_step (write_cpld_run hdr hw (RTER hdr) (Z.lor v (HSND_EN hdr))).
  bind_step (set_send_stat_run BUSY).
  bind_step (emit_run SpinUnlockIrq).
  cbv beta iota. subst.
  rewrite length_low_byte, length_high_byte in * by lia.
  exists v. eexists. split; [reflexivity|].
  unfold stage_steps, arm_steps, frame_writes.
  rewrite <- app_assoc.
  cbn [app]. apply refines_ev; [reflexivity|].
  apply refines_app; [|refines_steps].
  erewrite map_ext_in; [exact Pl|].
  intros j Hj. apply in_seq in Hj. cbv beta.
  unfold buf. rewrite staged_buf_frame by (assumption || lia).
  rewrite uchar_uchar. reflexivity.
Qed.

(** *** iobus_read *)

Lemma copy_to_user_run avail n d h :
  exists evs,
    copy_to_user avail n d h = (n - copied avail n, d, evs) /\
    evs = [CopyToUser (bytes_of (recv_buf d) (copied avail n))].
Proof. eexists. split; reflexivity. Qed.

Lemma iobus_read_busy nonblock avail count d h :
  recv_stat d = BUSY ->
  iobus_read nonblock avail count d h =
    (if nonblock then Returned (- EAGAIN) else Sleeping recv_wq, d, []).
Proof.
  intros Hb. unfold iobus_read.
  bind_step get_dev_run. subst. rewrite Hb.
  destruct nonblock; reflexivity.
Qed.

Lemma iobus_read_copies nonblock avail count d h :
  recv_stat d = IDLE -> 0 <= recv_bytes d <= avail ->
  iobus_read nonblock avail count d h =
    (Returned (recv_bytes d), with_recv_stat d BUSY,
     [CopyToUser (bytes_of (recv_buf d) (recv_bytes d)); SetRecvStat BUSY]).
Proof.
  intros Hi Hn. unfold iobus_read.
  bind_step get_dev_run. subst. rewrite Hi.
  bind_step (copy_to_user_run avail (recv_bytes d)). subst.
  rewrite (copied_all avail (recv_bytes d) Hn), Z.sub_diag.
  reflexivity.
Qed.

Lemma iobus_read_fault nonblock avail count d h :
  recv_stat d = IDLE -> copied avail (recv_bytes d) < recv_bytes d ->
  iobus_read nonblock avail count d h =
    (Returned (- EFAULT), d,
     [CopyToUser (bytes_of (recv_buf d) (copied avail (recv_bytes d)))]).
Proof.
  intros Hi Ha. unfold iobus_read.
  bind_step get_dev_run. subst. rewrite Hi.
  bind_step (copy_to_user_run avail (recv_bytes d)). subst.
  destruct (Z.eqb_spec (recv_bytes d - copied avail (recv_bytes d)) 0)
    as [|_]; [lia|].
  reflexivity.
Qed.

Lemma bytes_of_length buf n : 0 <= n -> Z.of_nat (length (bytes_of buf n)) = n.
Proof.
  intros. unfold bytes_of. rewrite length_map, length_seq. lia.
Qed.

(** *** hdlc_init *)

Lemma hdlc_init_run d h :
  exists evs,
    hdlc_init hdr hw d h =
      (tt, with_recv_stat (with_send_stat d IDLE) BUSY, evs) /\
    refines hdr (init_steps hdr) evs.
Proof.
  unfold hdlc_init.
  bind_step (set_send_stat_run IDLE).
  bind_step (set_recv_stat_run BUSY).
  bind_step (emit_run SpinLockIrq).
  bind_step (write_cpld_run hdr hw (TCR hdr) (ITF_1 hdr)).
  bind_step (write_cpld_run hdr hw (RPAMR1 hdr) 0x7F).
  bind_step (write_cpld_run hdr hw (IMR hdr) (Z.lor (RMC_EN hdr) (TMC_EN hdr))).
  bind_step (write_cpld_run hdr hw (RUNSTAT hdr) (RUNSTAT_S hdr)).
  bind_step (write_cpld_run hdr hw (CHSEL hdr) (CH2SEL hdr)).
  bind_step (write_cpld_run hdr hw (RXTXEN hdr) (RXTXEN_R hdr)).
  last_step spin_unlock_irq spin_unlock_irq_run.
  subst. eexists. split; [reflexivity|].
  unfold init_steps. refines_steps.
Qed.

End DriverRuns.

(** ** Facts about logs *)

Lemma rmw_mmio r f evs :
  rmw r f evs -> Forall (fun e => is_mmio e = true) evs.
Proof. intros (v & _ & ->). repeat constructor. Qed.

Lemma bus_cycle_mmio hdr op evs :
  bus_cycle hdr op evs -> Forall (fun e => is_mmio e = true) evs.
Proof.
  destruct op; cbn [bus_cycle write_cycle read_cycle pin_trace pin_events];
    unfold rmw; intros C; break_up; subst; repeat constructor.
Qed.

(** An event that is no register access stands in the log only where
    the steps name it. *)
Lemma refines_event_in hdr steps evs e :
  refines hdr steps evs -> is_mmio e = false -> In e evs -> In (Ev e) steps.
Proof.
  intros R He. induction R as [|op c steps rest C R IH|r f c steps rest C R IH
                              |e' steps rest He' R IH]; intros Hin.
  - destruct Hin.
  - apply in_app_or in Hin. destruct Hin as [Hin|Hin].
    + apply bus_cycle_mmio in C. rewrite Forall_forall in C.
      apply C in Hin. congruence.
    + right. auto.
  - apply in_app_or in Hin. destruct Hin as [Hin|Hin].
    + apply rmw_mmio in C. rewrite Forall_forall in C.
      apply C in Hin. congruence.
    + right. auto.
  - destruct Hin as [->|Hin]; [left; reflexivity | right; auto].
Qed.

(** Quiet steps never store to the data-line register. *)
Lemma refines_quiet hdr steps evs :
  refines hdr steps evs -> Forall quiet steps ->
  forall v, ~ In (IoWrite GPIO3_DR v) evs.
Proof.
  induction 1 as [|op c steps rest C R IH|r f c steps rest C R IH
                 |e' steps rest He' R IH];
    intros Hq v Hin; inversion Hq as [|s ss Hs Hss]; subst.
  - destruct Hin.
  - apply in_app_or in Hin. destruct Hin as [Hin|Hin]; [|eapply IH; eauto].
    destruct op as [a b|a b]; [destruct Hs|].
    cbn [bus_cycle read_cycle pin_trace pin_events] in C. unfold rmw in C.
    break_up. subst. cbn [app In] in Hin.
    repeat (destruct Hin as [Hin|Hin]; [discriminate|]). destruct Hin.
  - apply in_app_or in Hin. destruct Hin as [Hin|Hin]; [|eapply IH; eauto].
    destruct C as (w & _ & ->). cbn [quiet] in Hs. cbn [In] in Hin.
    destruct Hin as [Hin|[Hin|[]]]; [discriminate|]. congruence.
  - destruct Hin as [->|Hin]; [discriminate | eapply IH; eauto].
Qed.

Lemma drain_steps_events i bs e :
  In (Ev e) (drain_steps i bs) -> exists j b, e = SetRecvBuf j b.
Proof.
  revert i. induction bs as [|b bs IH]; intros i; cbn [drain_steps In].
  - intros [].
  - intros [H|[H|H]]; [discriminate | injection H as <-; eauto | eauto].
Qed.

(** ** The receive buffer after a drain *)

Lemma fill_outside bs buf i j :
  j < i \/ i + Z.of_nat (length bs) <= j -> fill buf i bs j = buf j.
Proof.
  revert buf i. induction bs as [|b bs IH]; intros buf i Hj; cbn [fill].
  - reflexivity.
  - cbn [length] in Hj. rewrite IH by lia. unfold upd.
    destruct (Z.eqb_spec j i); [lia | reflexivity].
Qed.

Lemma fill_inside bs buf i k :
  (k < length bs)%nat -> fill buf i bs (i + Z.of_nat k) = nth k bs 0.
Proof.
  revert buf i k. induction bs as [|b bs IH]; intros buf i k Hk;
    cbn [length] in Hk; [lia|]. cbn [fill].
  destruct k as [|k]; cbn [nth].
  - rewrite fill_outside by lia. unfold upd.
    rewrite Z.add_0_r, Z.eqb_refl. reflexivity.
  - replace (i + Z.of_nat (S k)) with (i + 1 + Z.of_nat k) by lia.
    apply IH. lia.
Qed.

Lemma bytes_of_fill buf bs :
  bytes_of (fill buf 0 bs) (Z.of_nat (length bs)) = bs.
Proof.
  unfold bytes_of. rewrite Nat2Z.id.
  apply (nth_ext _ _ 0 0).
  - rewrite length_map, length_seq. reflexivity.
  - intros k Hk. rewrite length_map, length_seq in Hk.
    rewrite (nth_indep _ 0 (fill buf 0 bs (Z.of_nat 0)))
      by (rewrite length_map, length_seq; exact Hk).
    rewrite (map_nth (fun k => fill buf 0 bs (Z.of_nat k))).
    rewrite seq_nth by exact Hk. cbn [Nat.add].
    apply (fill_inside bs buf 0 k Hk).
Qed.

Lemma rx_len_range lo hi : 0 <= rx_len lo hi < 2 ^ 16.
Proof.
  unfold rx_len. change 0xFFFF with (Z.ones 16).
  rewrite Z.land_ones by lia. apply Z.mod_pos_bound. reflexivity.
Qed.

(** ** The interrupt handler *)

(** C2: in a dispatch that finds the receive-complete flag set in the
    interrupt-status register and reads zero from the receive-status
    register, the handler reads the low and the high length register,
    stores the 16-bit length, reads that many bytes from dual-port RAM
    offsets 0, 1, ... into the receive buffer, reads the enable register
    and writes it back with the receive-arm bit set, only then sets
    RecvState to Idle, wakes the receive queue, and returns; the buffer
    holds exactly the bytes read, cells beyond the length are untouched,
    and nothing of the transmit-complete handling happens (SendState is
    unchanged and the send queue is not woken). *)
Theorem handler_receive_complete hdr hw d h :
  Z.land (isr_seen hdr hw d h) (RMC hdr) <> 0 ->
  rsr_seen hdr hw d h = 0 ->
  exists lo hi bs v d' evs,
    hdlc_interrupt_handler hdr hw true d h = (IRQ_HANDLED, d', evs) /\
    refines hdr
      (ack_steps ++
       [Cycle (BusRead (ISR hdr) (isr_seen hdr hw d h));
        Cycle (BusRead (RSR hdr) 0);
        Cycle (BusRead (RDN1 hdr) lo);
        Cycle (BusRead (RDN2 hdr) hi);
        Ev (SetRecvBytes (rx_len lo hi))] ++
       drain_steps 0 bs ++
       [Cycle (BusRead (RTER hdr) v);
        Cycle (BusWrite (RTER hdr) (uchar (Z.lor v (HREC_EN hdr))));
        Ev (SetRecvStat IDLE);
        Ev (WakeUp recv_wq);
        Ev SpinUnlockIrq]) evs /\
    recv_bytes d' = rx_len lo hi /\
    Z.of_nat (length bs) = recv_bytes d' /\
    bytes_of (recv_buf d') (recv_bytes d') = bs /\
    (forall j, j < 0 \/ recv_bytes d' <= j -> recv_buf d' j = recv_buf d j) /\
    recv_stat d' = IDLE /\
    send_stat d' = send_stat d /\ send_buf d' = send_buf d /\
    ~ In (WakeUp send_wq) evs /\ (forall s, ~ In (SetSendStat s) evs).
Proof.
  intros Hrmc Hrsr.
  destruct (handler_rx_run hdr hw d h Hrmc Hrsr)
    as (lo & hi & bs & v & evs & E & Hlen & R).
  assert (Hn := rx_len_range lo hi).
  assert (Hlen' : Z.of_nat (length bs) = rx_len lo hi) by lia.
  unfold status_steps, rx_steps in R. rewrite Hrsr in R.
  destruct (Z.eqb_spec (Z.land (isr_seen hdr hw d h) (RMC hdr)) 0) as [|_];
    [contradiction|].
  exists lo, hi, bs, v. eexists. exists evs.
  split; [exact E|]. cbn [recv_bytes recv_buf recv_stat send_stat send_buf].
  split; [exact R|].
  split; [reflexivity|]. split; [exact Hlen'|].
  split; [rewrite <- Hlen'; apply bytes_of_fill|].
  split; [intros j Hj; apply fill_outside; lia|].
  do 3 (split; [reflexivity|]).
  assert (Hev : forall e, is_mmio e = false -> In e evs ->
                  e = SpinLockIrq \/ (exists n, e = SetRecvBytes n) \/
                  (exists j b, e = SetRecvBuf j b) \/ e = SetRecvStat IDLE \/
                  e = WakeUp recv_wq \/ e = SpinUnlockIrq).
  { intros e He Hin. apply (refines_event_in _ _ _ _ R He) in Hin.
    unfold ack_steps in Hin. cbn [app In] in Hin.
    repeat (destruct Hin as [Hin|Hin];
            [try discriminate; injection Hin as <-; eauto 10|]).
    apply in_app_or in Hin. destruct Hin as [Hin|Hin].
    - apply drain_steps_events in Hin. auto.
    - cbn [In] in Hin.
      repeat (destruct Hin as [Hin|Hin];
              [try discriminate; injection Hin as <-; eauto 10|]).
      destruct Hin. }
  split.
  - intros Hin. apply Hev in Hin; [|reflexivity].
    destruct Hin as [Hin|[(n & Hin)|[(j & b & Hin)|[Hin|[Hin|Hin]]]]];
      discriminate.
  - intros s Hin. apply Hev in Hin; [|reflexivity].
    destruct Hin as [Hin|[(n & Hin)|[(j & b & Hin)|[Hin|[Hin|Hin]]]]];
      discriminate.
Qed.

Lemma handler_receive_complete_witness :
  Z.land (isr_seen sim_h (sim_hw (sim_mem 1 0)) dev_open []) (RMC sim_h) <> 0 /\
  rsr_seen sim_h (sim_hw (sim_mem 1 0)) dev_open [] = 0 /\
  exists d' evs,
    hdlc_interrupt_handler sim_h (sim_hw (sim_mem 1 0)) true dev_open []
      = (IRQ_HANDLED, d', evs) /\
    recv_stat d' = IDLE /\
    bytes_of (recv_buf d') (recv_bytes d') = [0x05; 0xAA].
Proof.
  assert (H1 : Z.land (isr_seen sim_h (sim_hw (sim_mem 1 0)) dev_open [])
                      (RMC sim_h) <> 0) by (vm_compute; discriminate).
  assert (H2 : rsr_seen sim_h (sim_hw (sim_mem 1 0)) dev_open [] = 0)
    by (vm_compute; reflexivity).
  split; [exact H1|]. split; [exact H2|].
  destruct (handler_receive_complete sim_h (sim_hw (sim_mem 1 0))
              dev_open [] H1 H2)
    as (lo & hi & bs & v & d' & evs & E & _ & _ & _ & _ & _ & Hs & _).
  exists d', evs. split; [exact E|]. split; [exact Hs|].
  vm_compute in E. injection E as <- <-. reflexivity.
Defined.

(** C4, as the code has it: a dispatch that finds the transmit-complete
    flag clear, and either the receive-complete flag clear too or the
    receive-status register nonzero, is dropped: the handler returns
    IRQ_NONE with the device state unchanged, after the acknowledge, the
    lock and the status reads only; no queue is woken, no transfer state
    is stored, and no value is driven onto the data lines, so that no
    CPLD register is written. *)
Theorem handler_drops_anomaly hdr hw d h :
  Z.land (isr_seen hdr hw d h) (TMC hdr) = 0 ->
  Z.land (isr_seen hdr hw d h) (RMC hdr) = 0 \/ rsr_seen hdr hw d h <> 0 ->
  exists evs,
    hdlc_interrupt_handler hdr hw true d h = (IRQ_NONE, d, evs) /\
    refines hdr
      (ack_steps ++
       status_steps hdr (isr_seen hdr hw d h) (rsr_seen hdr hw d h)) evs /\
    (forall q, ~ In (WakeUp q) evs) /\
    (forall s, ~ In (SetSendStat s) evs /\ ~ In (SetRecvStat s) evs) /\
    (forall n j b, ~ In (SetRecvBytes n) evs /\ ~ In (SetRecvBuf j b) evs) /\
    (forall v, ~ In (IoWrite GPIO3_DR v) evs).
Proof.
  intros Htmc Hcase.
  destruct (handler_not_rx_run hdr hw d h Hcase) as (pre & R & Hnone & _).
  exists pre. split; [exact (Hnone Htmc)|]. split; [exact R|].
  assert (Hev : forall e, is_mmio e = false -> In e pre -> e = SpinLockIrq).
  { intros e He Hin. apply (refines_event_in _ _ _ _ R He) in Hin.
    unfold ack_steps, status_steps in Hin. cbn [app In] in Hin.
    destruct Hin as [Hin|[Hin|[Hin|[Hin|Hin]]]]; try discriminate.
    - injection Hin as <-. reflexivity.
    - destruct (Z.land (isr_seen hdr hw d h) (RMC hdr) =? 0);
        cbn [In] in Hin; [destruct Hin|].
      destruct Hin as [Hin|[]]. discriminate. }
  split; [|split; [|split]].
  - intros q Hin. apply Hev in Hin; [discriminate | reflexivity].
  - intros s. split; intros Hin; (apply Hev in Hin; [discriminate | reflexivity]).
  - intros n j b.
    split; intros Hin; (apply Hev in Hin; [discriminate | reflexivity]).
  - apply (refines_quiet _ _ _ R).
    unfold ack_steps, status_steps.
    destruct (Z.land (isr_seen hdr hw d h) (RMC hdr) =? 0);
      repeat constructor; cbn [quiet]; discriminate.
Qed.

Lemma handler_drops_anomaly_witness :
  Z.land (isr_seen sim_h (sim_hw (sim_mem 1 1)) dev_sending []) (TMC sim_h) = 0 /\
  rsr_seen sim_h (sim_hw (sim_mem 1 1)) dev_sending [] <> 0 /\
  exists evs,
    hdlc_interrupt_handler sim_h (sim_hw (sim_mem 1 1)) true dev_sending []
      = (IRQ_NONE, dev_sending, evs).
Proof.
  assert (H1 : Z.land (isr_seen sim_h (sim_hw (sim_mem 1 1)) dev_sending [])
                      (TMC sim_h) = 0) by (vm_compute; reflexivity).
  assert (H2 : rsr_seen sim_h (sim_hw (sim_mem 1 1)) dev_sending [] <> 0)
    by (vm_compute; discriminate).
  split; [exact H1|]. split; [exact H2|].
  destruct (handler_drops_anomaly sim_h (sim_hw (sim_mem 1 1))
              dev_sending [] H1 (or_intror H2)) as (evs & E & _).
  exists evs. exact E.
Defined.

(** C4, as stated, fails: with both flags set in the interrupt-status
    register and a nonzero receive-status register, the handler goes on
    to the transmit-complete branch: SendState goes from Busy to Idle,
    the send queue is woken and CPLD registers are written. *)
Lemma handler_rx_error_runs_tx :
  Z.land (isr_seen sim_h (sim_hw (sim_mem 3 1)) dev_sending []) (RMC sim_h) <> 0 /\
  rsr_seen sim_h (sim_hw (sim_mem 3 1)) dev_sending [] <> 0 /\
  exists d' evs,
    hdlc_interrupt_handler sim_h (sim_hw (sim_mem 3 1)) true dev_sending []
      = (IRQ_HANDLED, d', evs) /\
    send_stat dev_sending = BUSY /\ send_stat d' = IDLE /\
    In (WakeUp send_wq) evs /\
    In (SetSendStat IDLE) evs /\
    exists v, In (IoWrite GPIO3_DR v) evs.
Proof.
  split; [vm_compute; discriminate|].
  split; [vm_compute; discriminate|].
  eexists. eexists. split; [vm_compute; reflexivity|].
  split; [reflexivity|]. split; [reflexivity|].
  split; [cbn [In]; tauto|]. split; [cbn [In]; tauto|].
  exists 0. cbn [In]. tauto.
Qed.

(** ** The transmit path *)

Lemma frame_writes_miss_rter hdr frame count :
  (forall k, 0 <= k < count -> k <> RTER hdr) ->
  Forall (fun s => ~ writes_rter hdr s) (frame_writes frame count).
Proof.
  intros Hk. unfold frame_writes. apply Forall_forall. intros s Hs.
  apply in_map_iff in Hs. destruct Hs as (j & <- & Hj).
  apply in_seq in Hj. intros (x & Hx). injection Hx as Ha _.
  apply (Hk (Z.of_nat j)); [lia | exact Ha].
Qed.

(** C1, amended: a write call with at least one byte, whose byte 0 is
    [X], either emits nothing at all (the link is busy, or the caller's
    buffer cannot be read), or returns [count] after a log that is, in
    this order: the lock; the [count] frame bytes written to dual-port
    RAM offsets 0 .. count-1; [X] written to the reply-address register;
    the low and the high transmit-length register; the direction
    register; the read of the enable register and its write-back with
    the transmit-arm bit set; the SendState store and the unlock.  Every
    staging step thus precedes the arming write; and provided the frame
    stays below the enable register's address and the staging and
    direction registers differ from it, no step before the arming write
    stores to the enable register. *)
Theorem iobus_write_stages_before_arm hdr hw nonblock umem avail count d h X :
  0 < count -> uchar (umem 0) = X ->
  (send_stat d = BUSY \/ avail < count ->
   exists r d', iobus_write hdr hw nonblock umem avail count d h = (r, d', [])) /\
  (send_stat d = IDLE -> count <= avail ->
   exists v d' evs,
     iobus_write hdr hw nonblock umem avail count d h
       = (Returned count, d', evs) /\
     refines hdr
       (Ev SpinLockIrq ::
        (frame_writes (fun a => uchar (umem a)) count ++
         [Cycle (BusWrite (RPAR hdr) X);
          Cycle (BusWrite (TNUMR_L hdr) (count mod 256));
          Cycle (BusWrite (TNUMR_H hdr) (count / 256 mod 256))]) ++
        [Cycle (BusWrite (RXTXEN hdr) (uchar (RXTXEN_T hdr)));
         Cycle (BusRead (RTER hdr) v);
         Cycle (BusWrite (RTER hdr) (uchar (Z.lor v (HSND_EN hdr))))] ++
        [Ev (SetSendStat BUSY); Ev SpinUnlockIrq]) evs /\
     (rter_apart hdr count -> RXTXEN hdr <> RTER hdr ->
      Forall (fun s => ~ writes_rter hdr s)
        (Ev SpinLockIrq ::
         (frame_writes (fun a => uchar (umem a)) count ++
          [Cycle (BusWrite (RPAR hdr) X);
           Cycle (BusWrite (TNUMR_L hdr) (count mod 256));
           Cycle (BusWrite (TNUMR_H hdr) (count / 256 mod 256))]) ++
         [Cycle (BusWrite (RXTXEN hdr) (uchar (RXTXEN_T hdr)));
          Cycle (BusRead (RTER hdr) v)]))).
Proof.
  intros Hc HX. split.
  - intros Hcase. destruct (send_stat d) eqn:Hs.
    + destruct Hcase as [|Ha]; [discriminate|].
      eexists. eexists.
      apply iobus_write_fault; [exact Hs | unfold copied; lia].
    + eexists. eexists. apply iobus_write_busy. exact Hs.
  - intros Hs Ha.
    assert (Hall : copied avail count = count) by (apply copied_all; lia).
    destruct (iobus_write_send_run hdr hw nonblock umem avail count d h Hs
                ltac:(lia) Hall) as (v & evs & E & R).
    exists v. eexists. exists evs. split; [exact E|].
    rewrite staged_buf_frame, uchar_uchar, HX in R by (assumption || lia).
    split; [exact R|].
    intros (Hk & Hp & Hl & Hh) Hx.
    constructor; [intros (x & Hx'); discriminate|].
    apply Forall_app. split; [apply Forall_app; split|].
    + apply frame_writes_miss_rter. exact Hk.
    + repeat constructor; intros (x & Hx'); congruence.
    + repeat constructor; intros (x & Hx'); congruence.
Qed.

Lemma iobus_write_stages_before_arm_witness :
  0 < 3 /\ uchar (user_frame 0) = 0x05 /\
  exists v d' evs,
    iobus_write sim_h (sim_hw (sim_mem 0 0)) true user_frame 3 3 dev_open []
      = (Returned 3, d', evs) /\
    refines sim_h
      ([Ev SpinLockIrq;
        Cycle (BusWrite 0 0x05); Cycle (BusWrite 1 0x01);
        Cycle (BusWrite 2 0x02);
        Cycle (BusWrite (RPAR sim_h) 0x05);
        Cycle (BusWrite (TNUMR_L sim_h) 3);
        Cycle (BusWrite (TNUMR_H sim_h) 0);
        Cycle (BusWrite (RXTXEN sim_h) 1);
        Cycle (BusRead (RTER sim_h) v);
        Cycle (BusWrite (RTER sim_h) (uchar (Z.lor v 2)));
        Ev (SetSendStat BUSY); Ev SpinUnlockIrq]) evs.
Proof.
  assert (H1 : 0 < 3) by lia.
  assert (H2 : uchar (user_frame 0) = 0x05) by reflexivity.
  split; [exact H1|]. split; [exact H2|].
  destruct (iobus_write_stages_before_arm sim_h (sim_hw (sim_mem 0 0)) true
              user_frame 3 3 dev_open [] 0x05 H1 H2) as (_ & Hsend).
  destruct (Hsend eq_refl ltac:(lia)) as (v & d' & evs & E & R & _).
  exists v, d', evs. split; [exact E | exact R].
Defined.

Lemma frame_writes_succ buf n :
  0 <= n ->
  frame_writes buf (n + 1) =
    frame_writes buf n ++ [Cycle (BusWrite n (buf n))].
Proof.
  intros Hn. unfold frame_writes.
  rewrite Z2Nat.inj_add, Nat.add_1_r, seq_S, map_app by lia.
  cbn [map Nat.add]. rewrite Z2Nat.id by exact Hn. reflexivity.
Qed.

(** C1, as stated, fails: the byte count is not checked against the
    register window, so a frame that reaches the enable register's
    address stores a frame byte into it.  With the enable register at
    offset 518, a write of 519 bytes whose byte 518 has the
    transmit-arm bit stores that byte to the enable register after the
    first 518 frame bytes and before the reply address and the two
    length registers are written. *)
Lemma iobus_write_arms_inside_frame :
  exists v d' evs,
    iobus_write sim_h (sim_hw (sim_mem 0 0)) true
      (fun a => if a =? RTER sim_h then HSND_EN sim_h else 0) 519 519
      dev_open [] = (Returned 519, d', evs) /\
    refines sim_h
      (Ev SpinLockIrq ::
       frame_writes
         (fun a => uchar (if a =? RTER sim_h then HSND_EN sim_h else 0)) 518 ++
       [Cycle (BusWrite (RTER sim_h) (HSND_EN sim_h));
        Cycle (BusWrite (RPAR sim_h) 0);
        Cycle (BusWrite (TNUMR_L sim_h) 7);
        Cycle (BusWrite (TNUMR_H sim_h) 2)] ++
       arm_steps sim_h v ++ [Ev (SetSendStat BUSY); Ev SpinUnlockIrq]) evs /\
    writes_rter sim_h (Cycle (BusWrite (RTER sim_h) (HSND_EN sim_h))) /\
    Z.land (HSND_EN sim_h) (HSND_EN sim_h) <> 0 /\
    ~ rter_apart sim_h 519.
Proof.
  assert (Hall : copied 519 519 = 519) by (apply copied_all; lia).
  destruct (iobus_write_send_run sim_h (sim_hw (sim_mem 0 0)) true
              (fun a => if a =? RTER sim_h then HSND_EN sim_h else 0)
              519 519 dev_open [] eq_refl ltac:(lia) Hall)
    as (v & evs & E & R).
  exists v. eexists. exists evs. split; [exact E|].
  split; [|split; [|split]].
  - rewrite staged_buf_frame in R by (assumption || lia).
    unfold stage_steps in R.
    change 519 with (518 + 1) in R at 1.
    rewrite frame_writes_succ in R by lia.
    rewrite <- ?app_assoc in R. exact R.
  - eexists. reflexivity.
  - discriminate.
  - intros (Hk & _). apply (Hk 518); [lia | reflexivity].
Qed.

(** C10: a write call is accepted for every byte count the caller's
    buffer provides, with no test against a maximum frame size: the
    [count] bytes are copied to the transmit scratch buffer and written
    to dual-port RAM, and the transmit-length registers receive
    [count mod 256] and [(count / 256) mod 256], which together are
    [count mod 2^16]. *)
Theorem iobus_write_length_wraps hdr hw nonblock umem avail count d h :
  send_stat d = IDLE -> 0 <= count <= avail ->
  exists v d' evs,
    iobus_write hdr hw nonblock umem avail count d h
      = (Returned count, d', evs) /\
    (forall i, 0 <= i < count -> send_buf d' i = uchar (umem i)) /\
    refines hdr
      (Ev SpinLockIrq ::
       (frame_writes (fun a => uchar (umem a)) count ++
        [Cycle (BusWrite (RPAR hdr) (uchar (send_buf d' 0)));
         Cycle (BusWrite (TNUMR_L hdr) (count mod 256));
         Cycle (BusWrite (TNUMR_H hdr) (count / 256 mod 256))]) ++
       arm_steps hdr v ++ [Ev (SetSendStat BUSY); Ev SpinUnlockIrq]) evs /\
    count mod 256 + 256 * (count / 256 mod 256) = count mod 2 ^ 16.
Proof.
  intros Hs Hc.
  assert (Hall : copied avail count = count) by (apply copied_all; lia).
  destruct (iobus_write_send_run hdr hw nonblock umem avail count d h Hs
              ltac:(lia) Hall) as (v & evs & E & R).
  exists v. eexists. exists evs. split; [exact E|].
  cbn [send_buf with_send_stat with_send_buf].
  split; [intros i Hi; apply staged_buf_frame; assumption|].
  split; [exact R|].
  change (2 ^ 16) with (256 * 256).
  symmetry. apply Z.rem_mul_r; lia.
Qed.

Lemma iobus_write_length_wraps_witness :
  exists v d' evs,
    iobus_write sim_h (sim_hw (sim_mem 0 0)) false user_frame 70000 65539
      dev_open [] = (Returned 65539, d', evs) /\
    refines sim_h
      (Ev SpinLockIrq ::
       (frame_writes (fun a => uchar (user_frame a)) 65539 ++
        [Cycle (BusWrite (RPAR sim_h) (uchar (send_buf d' 0)));
         Cycle (BusWrite (TNUMR_L sim_h) 3);
         Cycle (BusWrite (TNUMR_H sim_h) 0)]) ++
       arm_steps sim_h v ++ [Ev (SetSendStat BUSY); Ev SpinUnlockIrq]) evs.
Proof.
  destruct (iobus_write_length_wraps sim_h (sim_hw (sim_mem 0 0)) false
              user_frame 70000 65539 dev_open [] eq_refl ltac:(lia))
    as (v & d' & evs & E & _ & R & _).
  exists v, d', evs. split; [exact E | exact R].
Defined.

(** ** The receive path seen by the caller *)

(** C5: a read call made when RecvState is Idle copies the [recv_bytes]
    bytes of the receive buffer to the caller, sets RecvState to Busy and
    returns [recv_bytes] when the copy completes, every other field of
    the device state staying as it was; when the copy cannot complete it
    returns -EFAULT and leaves the device state, and so RecvState (Idle)
    and SendState, as it was. *)
Theorem iobus_read_idle nonblock avail count d h :
  recv_stat d = IDLE -> 0 <= recv_bytes d ->
  (recv_bytes d <= avail ->
   exists d',
     iobus_read nonblock avail count d h =
       (Returned (recv_bytes d), d',
        [CopyToUser (bytes_of (recv_buf d) (recv_bytes d));
         SetRecvStat BUSY]) /\
     d' = with_recv_stat d BUSY /\
     recv_stat d' = BUSY /\
     send_stat d' = send_stat d /\
     recv_bytes d' = recv_bytes d /\
     recv_buf d' = recv_buf d /\
     send_buf d' = send_buf d /\
     Z.of_nat (length (bytes_of (recv_buf d) (recv_bytes d)))
       = recv_bytes d) /\
  (copied avail (recv_bytes d) < recv_bytes d ->
   exists part d',
     iobus_read nonblock avail count d h =
       (Returned (- EFAULT), d', [CopyToUser part]) /\
     d' = d /\ recv_stat d' = IDLE).
Proof.
  intros Hi Hn. split.
  - intros Ha. exists (with_recv_stat d BUSY).
    split; [apply iobus_read_copies; [exact Hi | lia]|].
    repeat (split; [reflexivity|]).
    apply bytes_of_length. exact Hn.
  - intros Ha. eexists. exists d.
    split; [apply iobus_read_fault; assumption|].
    split; [reflexivity | exact Hi].
Qed.

Lemma iobus_read_idle_witness :
  recv_stat dev_frame = IDLE /\ 0 <= recv_bytes dev_frame /\
  (exists d',
     iobus_read false 16 16 dev_frame [] =
       (Returned 2, d', [CopyToUser [0x05; 0xAA]; SetRecvStat BUSY]) /\
     recv_stat d' = BUSY /\ send_stat d' = IDLE) /\
  exists part,
    iobus_read false 1 16 dev_frame [] =
      (Returned (- EFAULT), dev_frame, [CopyToUser part]).
Proof.
  assert (H1 : recv_stat dev_frame = IDLE) by reflexivity.
  assert (H2 : 0 <= recv_bytes dev_frame) by (cbn; lia).
  split; [exact H1|]. split; [exact H2|].
  destruct (iobus_read_idle false 16 16 dev_frame [] H1 H2) as (Hok & _).
  destruct (iobus_read_idle false 1 16 dev_frame [] H1 H2) as (_ & Hbad).
  split.
  - destruct (Hok ltac:(cbn; lia)) as (d' & E & _ & Hr & Hs & _).
    exists d'. split; [exact E|]. split; [exact Hr | exact Hs].
  - destruct (Hbad ltac:(cbn; lia)) as (part & d' & E & -> & _).
    exists part. exact E.
Defined.

(** C9: a successful read copies [recv_bytes] bytes and returns
    [recv_bytes] whatever capacity [count] the caller passes; the call
    does not depend on [count] at all, so a frame longer than the stated
    capacity is copied in full. *)
Theorem iobus_read_ignores_capacity nonblock avail d h :
  recv_stat d = IDLE -> 0 <= recv_bytes d <= avail ->
  forall count,
    (exists bs,
       iobus_read nonblock avail count d h =
         (Returned (recv_bytes d), with_recv_stat d BUSY,
          [CopyToUser bs; SetRecvStat BUSY]) /\
       bs = bytes_of (recv_buf d) (recv_bytes d) /\
       Z.of_nat (length bs) = recv_bytes d) /\
    (forall count',
       iobus_read nonblock avail count' d h =
       iobus_read nonblock avail count d h).
Proof.
  intros Hi Hn count. split.
  - eexists. split; [apply iobus_read_copies; assumption|].
    split; [reflexivity|]. apply bytes_of_length. lia.
  - intros count'. reflexivity.
Qed.

Lemma iobus_read_ignores_capacity_witness :
  exists bs,
    iobus_read false 16 1 dev_frame [] =
      (Returned 2, with_recv_stat dev_frame BUSY,
       [CopyToUser bs; SetRecvStat BUSY]) /\
    bs = [0x05; 0xAA].
Proof.
  destruct (iobus_read_ignores_capacity false 16 dev_frame [] eq_refl
              ltac:(cbn; lia) 1) as ((bs & E & Hbs & _) & _).
  exists bs. split; [exact E | exact Hbs].
Defined.

(** ** Non-blocking calls on a busy link *)

(** C6: a non-blocking write while SendState is Busy, and a non-blocking
    read while RecvState is Busy, return -EAGAIN at once: the device
    state (both transfer states, both scratch buffers) is unchanged and
    nothing is emitted, so no pin register and no CPLD register is
    touched. *)
Theorem nonblocking_busy_would_block :
  (forall hdr hw umem avail count d h,
     send_stat d = BUSY ->
     iobus_write hdr hw true umem avail count d h
       = (Returned (- EAGAIN), d, [])) /\
  (forall avail count d h,
     recv_stat d = BUSY ->
     iobus_read true avail count d h = (Returned (- EAGAIN), d, [])).
Proof.
  split.
  - intros hdr hw umem avail count d h Hb.
    apply (iobus_write_busy hdr hw true umem avail count d h Hb).
  - intros avail count d h Hb.
    apply (iobus_read_busy true avail count d h Hb).
Qed.

Lemma nonblocking_busy_would_block_witness :
  send_stat dev_sending = BUSY /\ recv_stat dev_open = BUSY /\
  iobus_write sim_h (sim_hw (sim_mem 0 0)) true user_frame 3 3 dev_sending []
    = (Returned (- EAGAIN), dev_sending, []) /\
  iobus_read true 16 16 dev_open [] = (Returned (- EAGAIN), dev_open, []).
Proof.
  assert (H1 : send_stat dev_sending = BUSY) by reflexivity.
  assert (H2 : recv_stat dev_open = BUSY) by reflexivity.
  split; [exact H1|]. split; [exact H2|]. split.
  - apply (proj1 nonblocking_busy_would_block); exact H1.
  - apply (proj2 nonblocking_busy_would_block); exact H2.
Defined.

(** ** The invariant of the read path

    The length hypothesis of the read theorems holds in every state the
    driver reaches: [hdlc_init] establishes [dev_ok] and every operation
    keeps it. *)





(** * Beyond the bus engine and the two data paths *)

Ltac bind_val L v :=
  match goal with
  | |- context [bind _ _ ?d ?h] =>
      let e := fresh "e" in
      let E := fresh "E" in
      let P := fresh "P" in
      destruct (L d h) as (v & e & E & P);
      rewrite (bind_eq _ _ _ _ _ _ _ E); cbv beta
  end.

Ltac steps_refine :=
  cbn [app];
  repeat first
    [ apply refines_nil
    | apply refines_ev; [reflexivity|]
    | apply refines_cycle; [eassumption|]
    | apply refines_app; [eassumption|] ].

(** ** Counting events through a reading of the log *)

Lemma tally_app p e1 e2 : tally p (e1 ++ e2) = (tally p e1 + tally p e2)%nat.
Proof. unfold tally. rewrite filter_app, length_app. reflexivity. Qed.

Lemma tally_steps_app p s1 s2 :
  tally_steps p (s1 ++ s2) = (tally_steps p s1 + tally_steps p s2)%nat.
Proof. unfold tally_steps. rewrite filter_app, length_app. reflexivity. Qed.

Lemma tally_mmio p evs :
  (forall e, p e = true -> is_mmio e = false) ->
  Forall (fun e => is_mmio e = true) evs -> tally p evs = 0%nat.
Proof.
  intros Hp Hall. unfold tally. induction Hall as [|e evs He _ IH].
  - reflexivity.
  - cbn [filter]. destruct (p e) eqn:Hpe; [|exact IH].
    apply Hp in Hpe. congruence.
Qed.

Lemma tally_refines hdr p steps evs :
  (forall e, p e = true -> is_mmio e = false) ->
  refines hdr steps evs -> tally p evs = tally_steps p steps.
Proof.
  intros Hp R.
  induction R as [|op c steps rest C R IH|r f c steps rest C R IH
                 |e steps rest He R IH].
  - reflexivity.
  - rewrite tally_app, (tally_mmio p c Hp (bus_cycle_mmio _ _ _ C)), IH.
    reflexivity.
  - rewrite tally_app, (tally_mmio p c Hp (rmw_mmio _ _ _ C)), IH.
    reflexivity.
  - unfold tally, tally_steps in *. cbn [filter].
    destruct (p e); cbn [length]; rewrite IH; reflexivity.
Qed.

Lemma tally_drain_steps p i bs :
  (forall j b, p (SetRecvBuf j b) = false) ->
  tally_steps p (drain_steps i bs) = 0%nat.
Proof.
  intros Hp. revert i. induction bs as [|b bs IH]; intros i.
  - reflexivity.
  - unfold tally_steps in *. cbn [drain_steps filter]. rewrite Hp. apply IH.
Qed.

Lemma tally_frame_writes p frame n : tally_steps p (frame_writes frame n) = 0%nat.
Proof.
  unfold frame_writes, tally_steps. induction (seq 0 (Z.to_nat n)) as [|k l IH].
  - reflexivity.
  - cbn [map filter]. exact IH.
Qed.

(** ** recv_tasklet_func *)

(** Use the equation of the call just run on a second occurrence. *)
Ltac bind_again :=
  match goal with
  | E : _ = (_, _, _) |- _ => rewrite (bind_eq _ _ _ _ _ _ _ E); cbv beta
  end.

Lemma recv_tasklet_func_run hdr hw d h :
  exists lo hi bs v evs,
    recv_tasklet_func hdr hw d h =
      (tt,
       {| send_stat := send_stat d; recv_stat := IDLE;
          recv_bytes := rx_len lo hi; send_buf := send_buf d;
          recv_buf := fill (recv_buf d) 0 bs |}, evs) /\
    length bs = Z.to_nat (rx_len lo hi) /\
    refines hdr (tasklet_steps hdr lo hi bs v) evs /\
    snd (fst (handle_rmc hdr hw d (h ++ [SpinLockIrq]))) =
      {| send_stat := send_stat d; recv_stat := IDLE;
         recv_bytes := rx_len lo hi; send_buf := send_buf d;
         recv_buf := fill (recv_buf d) 0 bs |}.
Proof.
  unfold recv_tasklet_func, handle_rmc.
  bind_step (emit_run SpinLockIrq). subst.
  bind_val (read_cpld_run hdr hw (RDN1 hdr)) lo. bind_again.
  bind_val (read_cpld_run hdr hw (RDN2 hdr)) hi. bind_again.
  bind_step (set_recv_bytes_run (Z.land (Z.lor lo (Z.shiftl hi 8)) 0xFFFF)).
  bind_again.
  bind_step get_dev_run. bind_again.
  cbn [recv_bytes with_recv_bytes].
  match goal with
  | |- context [bind (for_from ?k 0 _) _ ?d' ?h'] =>
      destruct (drain_loop_run hdr hw k 0 d' h') as (bs & el & El & Hlen & Pl)
  end.
  change (Z.of_nat 0) with 0 in El, Pl.
  rewrite (bind_eq _ _ _ _ _ _ _ El). cbv beta.
  rewrite (bind_eq _ _ _ _ _ _ _ El). cbv beta.
  bind_step (set_recv_stat_run IDLE).
  bind_val (read_cpld_run hdr hw (RTER hdr)) v.
  bind_step (write_cpld_run hdr hw (RTER hdr) (Z.lor v (HREC_EN hdr))).
  last_step spin_unlock_irq spin_unlock_irq_run.
  bind_val (read_cpld_run hdr hw (RTER hdr)) v'.
  bind_step (write_cpld_run hdr hw (RTER hdr) (Z.lor v' (HREC_EN hdr))).
  bind_step (set_recv_stat_run IDLE).
  bind_step (emit_run (WakeUp recv_wq)).
  bind_step (emit_run SpinUnlockIrq).
  cbv beta iota. subst.
  exists lo, hi, bs, v. eexists. split; [reflexivity|].
  split; [exact Hlen|]. split; [|reflexivity].
  unfold tasklet_steps. steps_refine.
Qed.

Lemma in_drain_steps_wake i bs q : ~ In (Ev (WakeUp q)) (drain_steps i bs).
Proof.
  intros Hin. apply drain_steps_events in Hin.
  destruct Hin as (j & b & Hin). discriminate.
Qed.

(** X1: the deferred drain leaves the device exactly as the receive
    branch of the interrupt handler would when run after the lock: same
    stored length, same buffer, RecvState Idle; its log is lock, length
    reads, length store, drain, RecvState store, re-arm, unlock, and it
    wakes no wait queue. *)
Theorem recv_tasklet_func_like_handler hdr hw d h :
  exists lo hi bs v d' evs,
    recv_tasklet_func hdr hw d h = (tt, d', evs) /\
    snd (fst (handle_rmc hdr hw d (h ++ [SpinLockIrq]))) = d' /\
    recv_stat d' = IDLE /\
    recv_bytes d' = rx_len lo hi /\
    bytes_of (recv_buf d') (recv_bytes d') = bs /\
    send_stat d' = send_stat d /\
    refines hdr (tasklet_steps hdr lo hi bs v) evs /\
    (forall q, ~ In (WakeUp q) evs).
Proof.
  destruct (recv_tasklet_func_run hdr hw d h)
    as (lo & hi & bs & v & evs & E & Hlen & R & Hh).
  assert (Hn := rx_len_range lo hi).
  exists lo, hi, bs, v. eexists. exists evs.
  split; [exact E|]. split; [exact Hh|].
  cbn [recv_stat recv_bytes recv_buf send_stat].
  do 2 (split; [reflexivity|]).
  split.
  { replace (rx_len lo hi) with (Z.of_nat (length bs)) by lia.
    apply bytes_of_fill. }
  split; [reflexivity|]. split; [exact R|].
  intros q Hin. apply (refines_event_in _ _ _ (WakeUp q) R eq_refl) in Hin.
  unfold tasklet_steps in Hin. cbn [app In] in Hin.
  repeat (destruct Hin as [Hin|Hin]; [discriminate|]).
  apply in_app_or in Hin. destruct Hin as [Hin|Hin].
  - exact (in_drain_steps_wake _ _ _ Hin).
  - cbn [In] in Hin.
    repeat (destruct Hin as [Hin|Hin]; [discriminate|]). destruct Hin.
Qed.

(** ** The interrupt handler: transmit completion and the lock *)

(** X2: a dispatch that does not take the receive branch (receive flag
    clear, or receive-status nonzero) and finds the transmit-complete
    flag set writes the direction register back to receive, re-arms
    reception, sets SendState to Idle, wakes the send queue only, and
    returns IRQ_HANDLED; the send buffer and the receive side of the
    device state are untouched. *)
Theorem handler_transmit_complete hdr hw d h :
  Z.land (isr_seen hdr hw d h) (RMC hdr) = 0 \/ rsr_seen hdr hw d h <> 0 ->
  Z.land (isr_seen hdr hw d h) (TMC hdr) <> 0 ->
  exists v d' evs,
    hdlc_interrupt_handler hdr hw true d h = (IRQ_HANDLED, d', evs) /\
    d' = with_send_stat d IDLE /\
    send_stat d' = IDLE /\
    send_buf d' = send_buf d /\
    recv_stat d' = recv_stat d /\
    recv_bytes d' = recv_bytes d /\
    recv_buf d' = recv_buf d /\
    refines hdr
      (ack_steps ++
       status_steps hdr (isr_seen hdr hw d h) (rsr_seen hdr hw d h) ++
       [Cycle (BusWrite (RXTXEN hdr) (uchar (RXTXEN_R hdr)));
        Cycle (BusRead (RTER hdr) v);
        Cycle (BusWrite (RTER hdr) (uchar (Z.lor v (HREC_EN hdr))));
        Ev (SetSendStat IDLE); Ev (WakeUp send_wq); Ev SpinUnlockIrq]) evs /\
    In (WakeUp send_wq) evs /\ ~ In (WakeUp recv_wq) evs.
Proof.
  intros Hcase Ht.
  destruct (handler_not_rx_run hdr hw d h Hcase) as (pre & R & _ & Htx).
  destruct (Htx Ht) as (v & e & E & Rt).
  assert (Rall := refines_app _ _ _ _ _ R Rt).
  rewrite <- app_assoc in Rall. unfold tx_steps in Rall.
  exists v, (with_send_stat d IDLE), (pre ++ e). split; [exact E|].
  do 6 (split; [reflexivity|]).
  split; [exact Rall|].
  split.
  - apply in_or_app. right.
    clear -Rt. unfold tx_steps in Rt.
    inversion Rt as [|? c1 ? r1 C1 R1| |]; subst.
    inversion R1 as [|? c2 ? r2 C2 R2| |]; subst.
    inversion R2 as [|? c3 ? r3 C3 R3| |]; subst.
    inversion R3 as [| | |? ? r4 ? R4]; subst.
    inversion R4 as [| | |? ? r5 ? R5]; subst.
    repeat (apply in_or_app; right). right. left. reflexivity.
  - intros Hin. apply (refines_event_in _ _ _ (WakeUp recv_wq) Rall eq_refl) in Hin.
    unfold ack_steps, status_steps in Hin.
    destruct (Z.land (isr_seen hdr hw d h) (RMC hdr) =? 0);
      cbn [app In] in Hin;
      repeat (destruct Hin as [Hin|Hin]; [discriminate|]); destruct Hin.
Qed.

Lemma handler_transmit_complete_witness :
  send_stat dev_sending = BUSY /\
  exists d' evs,
    hdlc_interrupt_handler sim_h (sim_hw (sim_mem 2 0)) true dev_sending []
      = (IRQ_HANDLED, d', evs) /\
    send_stat d' = IDLE /\ recv_stat d' = BUSY /\
    In (WakeUp send_wq) evs /\ ~ In (WakeUp recv_wq) evs.
Proof.
  split; [reflexivity|].
  destruct (handler_transmit_complete sim_h (sim_hw (sim_mem 2 0))
              dev_sending [])
    as (v & d' & evs & E & _ & Hs & _ & Hrs & _ & _ & _ & Hw & Hr);
    [left; vm_compute; reflexivity | vm_compute; discriminate |].
  exists d', evs. split; [exact E|]. split; [exact Hs|].
  split; [rewrite Hrs; reflexivity|]. split; [exact Hw | exact Hr].
Defined.

Lemma tally_status_steps p hdr isr rsr : tally_steps p (status_steps hdr isr rsr) = 0%nat.
Proof.
  unfold status_steps, tally_steps.
  destruct (Z.land isr (RMC hdr) =? 0); reflexivity.
Qed.

Lemma lock_not_mmio e : is_lock e = true -> is_mmio e = false.
Proof. destruct e; cbn; congruence. Qed.

Lemma unlock_not_mmio e : is_unlock e = true -> is_mmio e = false.
Proof. destruct e; cbn; congruence. Qed.

(** X3: the handler and the spin lock.  A dispatch for another irq does
    nothing at all.  A dispatch for the right irq takes the lock once;
    it releases it once when it returns IRQ_HANDLED, and not at all when
    it returns IRQ_NONE: the dropped event leaves the lock held. *)
Theorem handler_lock_discipline hdr hw irq_ok d h :
  (irq_ok = false ->
   hdlc_interrupt_handler hdr hw irq_ok d h = (IRQ_NONE, d, [])) /\
  (irq_ok = true ->
   tally is_lock (snd (hdlc_interrupt_handler hdr hw irq_ok d h)) = 1%nat /\
   (fst (fst (hdlc_interrupt_handler hdr hw irq_ok d h)) = IRQ_HANDLED /\
    tally is_unlock (snd (hdlc_interrupt_handler hdr hw irq_ok d h)) = 1%nat
    \/
    fst (fst (hdlc_interrupt_handler hdr hw irq_ok d h)) = IRQ_NONE /\
    tally is_unlock (snd (hdlc_interrupt_handler hdr hw irq_ok d h)) = 0%nat)).
Proof.
  split; intros ->; [reflexivity|].
  assert (Hnot : forall pre,
            refines hdr (ack_steps ++
              status_steps hdr (isr_seen hdr hw d h) (rsr_seen hdr hw d h)) pre ->
            tally is_lock pre = 1%nat /\ tally is_unlock pre = 0%nat).
  { intros pre R. split.
    - rewrite (tally_refines _ _ _ _ lock_not_mmio R), tally_steps_app,
        tally_status_steps. reflexivity.
    - rewrite (tally_refines _ _ _ _ unlock_not_mmio R), tally_steps_app,
        tally_status_steps. reflexivity. }
  assert (Htxs : forall v e, refines hdr (tx_steps hdr v) e ->
            tally is_lock e = 0%nat /\ tally is_unlock e = 1%nat).
  { intros v e R. split.
    - rewrite (tally_refines _ _ _ _ lock_not_mmio R). reflexivity.
    - rewrite (tally_refines _ _ _ _ unlock_not_mmio R). reflexivity. }
  match goal with
  | |- ?G =>
      assert (Hcases : Z.land (isr_seen hdr hw d h) (RMC hdr) = 0 \/
                       rsr_seen hdr hw d h <> 0 -> G)
  end.
  { intros Hcase.
    destruct (handler_not_rx_run hdr hw d h Hcase) as (pre & R & Hnone & Htx).
    destruct (Hnot pre R) as (Hl & Hu).
    destruct (Z.eq_dec (Z.land (isr_seen hdr hw d h) (TMC hdr)) 0) as [Ht|Ht].
    - rewrite (Hnone Ht). cbn [fst snd].
      exact (conj Hl (or_intror (conj eq_refl Hu))).
    - destruct (Htx Ht) as (v & e & E & Rt). rewrite E. cbn [fst snd].
      destruct (Htxs v e Rt) as (Hl' & Hu').
      rewrite !tally_app, Hl, Hu, Hl', Hu'.
      exact (conj eq_refl (or_introl (conj eq_refl eq_refl))). }
  destruct (Z.eq_dec (Z.land (isr_seen hdr hw d h) (RMC hdr)) 0) as [Hz|Hnz];
    [exact (Hcases (or_introl Hz))|].
  destruct (Z.eq_dec (rsr_seen hdr hw d h) 0) as [Hr|Hr];
    [|exact (Hcases (or_intror Hr))].
  destruct (handler_rx_run hdr hw d h Hnz Hr)
    as (lo & hi & bs & v & evs & E & _ & R).
  rewrite E. cbn [fst snd]. split; [|left; split; [reflexivity|]].
  - rewrite (tally_refines _ _ _ _ lock_not_mmio R).
    unfold rx_steps. rewrite !tally_steps_app, tally_status_steps,
      tally_drain_steps by reflexivity. reflexivity.
  - rewrite (tally_refines _ _ _ _ unlock_not_mmio R).
    unfold rx_steps. rewrite !tally_steps_app, tally_status_steps,
      tally_drain_steps by reflexivity. reflexivity.
Qed.

Lemma handler_lock_discipline_witness :
  hdlc_interrupt_handler sim_h (sim_hw (sim_mem 1 1)) false dev_sending []
    = (IRQ_NONE, dev_sending, []) /\
  tally is_lock
    (snd (hdlc_interrupt_handler sim_h (sim_hw (sim_mem 1 1)) true
            dev_sending [])) = 1%nat /\
  tally is_unlock
    (snd (hdlc_interrupt_handler sim_h (sim_hw (sim_mem 1 1)) true
            dev_sending [])) = 0%nat.
Proof.
  destruct (handler_lock_discipline sim_h (sim_hw (sim_mem 1 1)) false
              dev_sending []) as (H1 & _).
  destruct (handler_lock_discipline sim_h (sim_hw (sim_mem 1 1)) true
              dev_sending []) as (_ & H2).
  split; [exact (H1 eq_refl)|].
  destruct (H2 eq_refl) as (Hl & _). split; [exact Hl|].
  vm_compute. reflexivity.
Defined.

(** ** How the calls compose *)

(** X4: a frame drained by the handler is what the next read delivers:
    after a receive-complete dispatch, a read whose buffer can take
    65535 bytes returns the number of bytes the handler read from
    dual-port RAM and copies exactly those bytes, in order, and sets
    RecvState to Busy. *)
Theorem receive_then_read hdr hw d h nonblock avail count :
  Z.land (isr_seen hdr hw d h) (RMC hdr) <> 0 ->
  rsr_seen hdr hw d h = 0 ->
  2 ^ 16 <= avail ->
  exists lo hi bs v d1 e1,
    hdlc_interrupt_handler hdr hw true d h = (IRQ_HANDLED, d1, e1) /\
    refines hdr
      (ack_steps ++
       status_steps hdr (isr_seen hdr hw d h) (rsr_seen hdr hw d h) ++
       rx_steps hdr lo hi bs v) e1 /\
    iobus_read nonblock avail count d1 (h ++ e1) =
      (Returned (Z.of_nat (length bs)), with_recv_stat d1 BUSY,
       [CopyToUser bs; SetRecvStat BUSY]).
Proof.
  intros Hrmc Hrsr Ha.
  destruct (handler_rx_run hdr hw d h Hrmc Hrsr)
    as (lo & hi & bs & v & evs & E & Hlen & R).
  assert (Hn := rx_len_range lo hi).
  assert (Hlen' : rx_len lo hi = Z.of_nat (length bs)) by lia.
  exists lo, hi, bs, v. eexists. exists evs.
  split; [exact E|]. split; [exact R|].
  rewrite iobus_read_copies by (cbn [recv_stat recv_bytes]; (reflexivity || lia)).
  cbn [recv_bytes recv_buf]. rewrite Hlen', bytes_of_fill. reflexivity.
Qed.

Lemma receive_then_read_witness :
  exists bs d1 e1,
    hdlc_interrupt_handler sim_h (sim_hw (sim_mem 1 0)) true dev_open []
      = (IRQ_HANDLED, d1, e1) /\
    iobus_read false 65536 16 d1 ([] ++ e1) =
      (Returned (Z.of_nat (length bs)), with_recv_stat d1 BUSY,
       [CopyToUser bs; SetRecvStat BUSY]).
Proof.
  destruct (receive_then_read sim_h (sim_hw (sim_mem 1 0)) dev_open []
              false 65536 16)
    as (lo & hi & bs & v & d1 & e1 & E & _ & Er);
    [vm_compute; discriminate | vm_compute; reflexivity | lia |].
  exists bs, d1, e1. split; [exact E | exact Er].
Defined.



(** X6: a frame is delivered once, and a second frame is not accepted
    while the first is in flight: after a successful read a
    non-blocking read returns -EAGAIN, and after a successful write a
    non-blocking write returns -EAGAIN; neither second call changes the
    state or emits anything. *)
Theorem second_call_would_block hdr hw :
  (forall nonblock avail count d h d1,
     recv_stat d = IDLE -> 0 <= recv_bytes d <= avail ->
     snd (fst (iobus_read nonblock avail count d h)) = d1 ->
     forall avail' count' h',
       iobus_read true avail' count' d1 h' = (Returned (- EAGAIN), d1, [])) /\
  (forall nonblock umem avail count d h d1,
     send_stat d = IDLE -> 0 <= count <= avail ->
     snd (fst (iobus_write hdr hw nonblock umem avail count d h)) = d1 ->
     forall umem' avail' count' h',
       iobus_write hdr hw true umem' avail' count' d1 h'
         = (Returned (- EAGAIN), d1, [])).
Proof.
  split.
  - intros nonblock avail count d h d1 Hi Hn Hd1 avail' count' h'.
    rewrite iobus_read_copies in Hd1 by assumption.
    cbn [fst snd] in Hd1. subst d1.
    apply (iobus_read_busy true). reflexivity.
  - intros nonblock umem avail count d h d1 Hi Hc Hd1 umem' avail' count' h'.
    assert (Hall : copied avail count = count) by (apply copied_all; lia).
    destruct (iobus_write_send_run hdr hw nonblock umem avail count d h Hi
                ltac:(lia) Hall) as (v & evs & E & _).
    rewrite E in Hd1. cbn [fst snd] in Hd1. subst d1.
    apply (iobus_write_busy hdr hw true). reflexivity.
Qed.

Lemma second_call_would_block_witness :
  iobus_read true 16 16
    (snd (fst (iobus_read false 16 16 dev_frame []))) []
    = (Returned (- EAGAIN), snd (fst (iobus_read false 16 16 dev_frame [])), [])
  /\
  iobus_write sim_h (sim_hw (sim_mem 0 0)) true user_frame 3 3
    (snd (fst (iobus_write sim_h (sim_hw (sim_mem 0 0)) false user_frame 3 3
                 dev_open []))) []
    = (Returned (- EAGAIN),
       snd (fst (iobus_write sim_h (sim_hw (sim_mem 0 0)) false user_frame
                   3 3 dev_open [])), []).
Proof.
  destruct (second_call_would_block sim_h (sim_hw (sim_mem 0 0)))
    as (Hr & Hw).
  split.
  - apply (Hr false 16 16 dev_frame [] _ eq_refl); [cbn; lia | reflexivity].
  - apply (Hw false user_frame 3 3 dev_open [] _ eq_refl);
      [lia | reflexivity].
Defined.

(** X7: a write of zero bytes still arms the transmitter: it returns
    0, writes no frame byte to dual-port RAM, latches into the
    reply-address register whatever byte the scratch buffer held at
    index 0 from before, stages length 0, arms, and leaves SendState
    Busy. *)
Theorem iobus_write_empty hdr hw nonblock umem avail d h :
  send_stat d = IDLE ->
  exists v d' evs,
    iobus_write hdr hw nonblock umem avail 0 d h = (Returned 0, d', evs) /\
    send_stat d' = BUSY /\ send_buf d' 0 = send_buf d 0 /\
    refines hdr
      ([Ev SpinLockIrq;
        Cycle (BusWrite (RPAR hdr) (uchar (send_buf d 0)));
        Cycle (BusWrite (TNUMR_L hdr) 0);
        Cycle (BusWrite (TNUMR_H hdr) 0)] ++
       arm_steps hdr v ++ [Ev (SetSendStat BUSY); Ev SpinUnlockIrq]) evs.
Proof.
  intros Hs.
  assert (Hall : copied avail 0 = 0) by (unfold copied; lia).
  destruct (iobus_write_send_run hdr hw nonblock umem avail 0 d h Hs
              ltac:(lia) Hall) as (v & evs & E & R).
  assert (Hbuf : forall i, staged_buf umem avail 0 (send_buf d) i = send_buf d i).
  { intros i. unfold staged_buf. rewrite Hall.
    replace ((0 <=? i) && (i <? 0)) with false
      by (symmetry; apply andb_false_iff; lia).
    reflexivity. }
  exists v. eexists. exists evs. split; [exact E|].
  cbn [send_stat send_buf with_send_stat with_send_buf].
  split; [reflexivity|]. split; [apply Hbuf|].
  rewrite Hbuf in R. exact R.
Qed.

Lemma iobus_write_empty_witness :
  exists v d' evs,
    iobus_write sim_h (sim_hw (sim_mem 0 0)) true user_frame 0 0
      (with_send_buf dev_open user_frame) [] = (Returned 0, d', evs) /\
    refines sim_h
      ([Ev SpinLockIrq;
        Cycle (BusWrite (RPAR sim_h) 0x05);
        Cycle (BusWrite (TNUMR_L sim_h) 0);
        Cycle (BusWrite (TNUMR_H sim_h) 0)] ++
       arm_steps sim_h v ++ [Ev (SetSendStat BUSY); Ev SpinUnlockIrq]) evs.
Proof.
  destruct (iobus_write_empty sim_h (sim_hw (sim_mem 0 0)) true user_frame 0
              (with_send_buf dev_open user_frame) [] eq_refl)
    as (v & d' & evs & E & _ & _ & R).
  exists v, d', evs. split; [exact E | exact R].
Defined.

(** ** What read and write leave alone *)

(** X8: on every path a read performs no register access and takes no
    lock (its log holds at most the user copy and the RecvState store),
    and it changes nothing of the device state except RecvState. *)
Theorem iobus_read_touches_no_hardware nonblock avail count d h :
  Forall (fun e => is_mmio e = false)
    (snd (iobus_read nonblock avail count d h)) /\
  tally is_lock (snd (iobus_read nonblock avail count d h)) = 0%nat /\
  (snd (fst (iobus_read nonblock avail count d h)) = d \/
   snd (fst (iobus_read nonblock avail count d h)) = with_recv_stat d BUSY).
Proof.
  cbv [iobus_read bind get_dev copy_to_user emit ret set_recv_stat put_dev].
  destruct (recv_stat d).
  - destruct (negb (recv_bytes d - copied avail (recv_bytes d) =? 0));
      cbn [fst snd app];
      (split; [repeat constructor | split; [reflexivity | auto]]).
  - destruct nonblock; cbn [fst snd app];
      (split; [repeat constructor | split; [reflexivity | auto]]).
Qed.



(** ** iobus_poll *)

(** X10: polling changes nothing and emits nothing; it adds both wait
    queues to the poll table; and its answer agrees with what a
    non-blocking call would do in that state: the mask has POLLIN
    exactly when a non-blocking read would not return -EAGAIN, and
    POLLOUT exactly when a non-blocking write would not. *)
Theorem iobus_poll_agrees hdr hw poll_table d h :
  0 <= recv_bytes d ->
  exists mask,
    iobus_poll poll_table d h
      = ((mask, poll_table ++ [send_wq; recv_wq]), d, []) /\
    (Z.land mask POLLIN <> 0 <-> recv_stat d = IDLE) /\
    (Z.land mask POLLOUT <> 0 <-> send_stat d = IDLE) /\
    (forall avail count h',
       Z.land mask POLLIN <> 0 <->
       fst (fst (iobus_read true avail count d h')) <> Returned (- EAGAIN)) /\
    (forall umem avail count h', 0 <= count ->
       (Z.land mask POLLOUT <> 0 <->
        fst (fst (iobus_write hdr hw true umem avail count d h'))
          <> Returned (- EAGAIN))).
Proof.
  intros Hn.
  assert (Hr : forall avail count h',
            recv_stat d = IDLE <->
            fst (fst (iobus_read true avail count d h'))
              <> Returned (- EAGAIN)).
  { intros avail count h'. destruct (recv_stat d) eqn:Hs.
    - split; [intros _|reflexivity].
      cbv [iobus_read bind get_dev copy_to_user emit ret set_recv_stat
           put_dev]. rewrite Hs.
      destruct (negb (recv_bytes d - copied avail (recv_bytes d) =? 0));
        cbn [fst snd recv_bytes with_recv_stat]; intros Heq;
        injection Heq as Heq; unfold EAGAIN, EFAULT in *; lia.
    - rewrite iobus_read_busy by assumption. cbn [fst].
      split; [discriminate | intros Hne; contradiction]. }
  assert (Hw : forall umem avail count h', 0 <= count ->
            (send_stat d = IDLE <->
             fst (fst (iobus_write hdr hw true umem avail count d h'))
               <> Returned (- EAGAIN))).
  { intros umem avail count h' Hc. destruct (send_stat d) eqn:Hs.
    - split; [intros _|reflexivity].
      destruct (Z.eq_dec (copied avail count) count) as [Hall|Hpart].
      + destruct (iobus_write_send_run hdr hw true umem avail count d h'
                    Hs Hc Hall) as (v & evs & E & _).
        rewrite E. cbn [fst]. intros Heq. injection Heq as Heq.
        unfold EAGAIN in *. lia.
      + assert (Hle := copied_le avail count Hc).
        rewrite iobus_write_fault by (assumption || lia). cbn [fst].
        intros Heq. injection Heq as Heq. unfold EAGAIN, EFAULT in *. lia.
    - rewrite iobus_write_busy by assumption. cbn [fst].
      split; [discriminate | intros Hne; contradiction]. }
  unfold iobus_poll, bind, get_dev, ret, poll_wait. cbn [app fst snd].
  rewrite <- app_assoc. cbn [app].
  eexists. split; [reflexivity|].
  assert (Hin : Z.land (match send_stat d with
                        | IDLE => Z.lor (match recv_stat d with
                                         | IDLE => Z.lor 0 (Z.lor POLLIN POLLRDNORM)
                                         | BUSY => 0 end) (Z.lor POLLOUT POLLWRNORM)
                        | BUSY => match recv_stat d with
                                  | IDLE => Z.lor 0 (Z.lor POLLIN POLLRDNORM)
                                  | BUSY => 0 end
                        end) POLLIN <> 0 <-> recv_stat d = IDLE).
  { destruct (send_stat d), (recv_stat d); vm_compute; split;
      congruence. }
  assert (Hout : Z.land (match send_stat d with
                        | IDLE => Z.lor (match recv_stat d with
                                         | IDLE => Z.lor 0 (Z.lor POLLIN POLLRDNORM)
                                         | BUSY => 0 end) (Z.lor POLLOUT POLLWRNORM)
                        | BUSY => match recv_stat d with
                                  | IDLE => Z.lor 0 (Z.lor POLLIN POLLRDNORM)
                                  | BUSY => 0 end
                        end) POLLOUT <> 0 <-> send_stat d = IDLE).
  { destruct (send_stat d), (recv_stat d); vm_compute; split;
      congruence. }
  split; [exact Hin|]. split; [exact Hout|]. split.
  - intros avail count h'. rewrite Hin. apply Hr.
  - intros umem avail count h' Hc. rewrite Hout. apply Hw. exact Hc.
Qed.

Lemma iobus_poll_agrees_witness :
  exists mask,
    iobus_poll [] dev_open [] = ((mask, [send_wq; recv_wq]), dev_open, []) /\
    mask = Z.lor POLLOUT POLLWRNORM.
Proof.
  destruct (iobus_poll_agrees sim_h (sim_hw (sim_mem 0 0)) [] dev_open [])
    as (mask & E & _); [cbn; lia|].
  exists mask. split; [exact E|].
  vm_compute in E. injection E as <-. reflexivity.
Defined.

(** ** iobus_ioctl *)

Lemma ioctl_switch_run hdr ioc hw cmd arg d h :
  exists evs,
    ioctl_switch hdr ioc hw cmd arg d h = (tt, d, evs) /\
    refines hdr (ioctl_cycles hdr ioc cmd arg) evs.
Proof.
  unfold ioctl_switch, ioctl_cycles.
  destruct (cmd =? IOBUS_IOC_RUN_STAT ioc);
    [destruct (arg =? 0)
    |destruct (cmd =? IOBUS_IOC_CH_SEL ioc);
       [|destruct (cmd =? IOBUS_IOC_LED_STAT ioc)]];
    try (match goal with
         | |- context [write_cpld hdr hw ?a ?b ?d' ?h'] =>
             destruct (write_cpld_run hdr hw a b d' h') as (e & E & C)
         end;
         exists e; split; [exact E|];
         rewrite <- (app_nil_r e); apply refines_cycle;
         [exact C | constructor]).
  exists []. split; [reflexivity | constructor].
Qed.

Lemma iobus_ioctl_accepted hdr ioc hw cmd arg d h :
  _IOC_TYPE cmd = IOBUS_IOC_MAGIC ioc ->
  _IOC_NR cmd <= IOBUS_IOC_MAXNR ioc ->
  exists evs,
    iobus_ioctl hdr ioc hw cmd arg d h = (0, d, evs) /\
    refines hdr
      (Ev SpinLockIrq :: ioctl_cycles hdr ioc cmd arg ++ [Ev SpinUnlockIrq])
      evs.
Proof.
  intros Hm Hn. unfold iobus_ioctl.
  rewrite Hm, Z.eqb_refl. cbn [negb].
  destruct (Z.ltb_spec (IOBUS_IOC_MAXNR ioc) (_IOC_NR cmd)) as [|_]; [lia|].
  bind_step (emit_run SpinLockIrq).
  bind_step (ioctl_switch_run hdr ioc hw cmd arg).
  bind_step (emit_run SpinUnlockIrq).
  cbv beta iota. subst.
  eexists. split; [reflexivity|].
  cbn [app]. apply refines_ev; [reflexivity|].
  apply refines_app; [assumption|]. steps_refine.
Qed.

Lemma iobus_ioctl_rejected_run hdr ioc hw cmd arg d h :
  _IOC_TYPE cmd <> IOBUS_IOC_MAGIC ioc \/ IOBUS_IOC_MAXNR ioc < _IOC_NR cmd ->
  iobus_ioctl hdr ioc hw cmd arg d h = (- ENOTTY, d, []).
Proof.
  intros Hcase. unfold iobus_ioctl.
  destruct (Z.eqb_spec (_IOC_TYPE cmd) (IOBUS_IOC_MAGIC ioc)) as [Hm|Hm];
    cbn [negb]; [|reflexivity].
  destruct Hcase as [Hc|Hc]; [contradiction|].
  destruct (Z.ltb_spec (IOBUS_IOC_MAXNR ioc) (_IOC_NR cmd)) as [_|];
    [reflexivity | lia].
Qed.

(** X11: a control command whose type byte is not the driver's magic, or
    whose number exceeds the maximum, is refused with -ENOTTY before
    anything happens: no lock, no bus access, no state change. *)
Theorem iobus_ioctl_rejects hdr ioc hw cmd arg d h :
  _IOC_TYPE cmd <> IOBUS_IOC_MAGIC ioc \/ IOBUS_IOC_MAXNR ioc < _IOC_NR cmd ->
  iobus_ioctl hdr ioc hw cmd arg d h = (- ENOTTY, d, []).
Proof. apply iobus_ioctl_rejected_run. Qed.

Lemma iobus_ioctl_rejects_witness :
  iobus_ioctl sim_h sim_ioc (sim_hw (sim_mem 0 0)) 0x6A01 0 dev_open []
    = (- ENOTTY, dev_open, []) /\
  iobus_ioctl sim_h sim_ioc (sim_hw (sim_mem 0 0)) 0x6904 0 dev_open []
    = (- ENOTTY, dev_open, []).
Proof.
  split.
  - apply (iobus_ioctl_rejects sim_h sim_ioc (sim_hw (sim_mem 0 0)) 0x6A01).
    left. vm_compute. discriminate.
  - apply (iobus_ioctl_rejects sim_h sim_ioc (sim_hw (sim_mem 0 0)) 0x6904).
    right. vm_compute. reflexivity.
Defined.

(** X12: every control command that passes the two checks returns 0
    with the device state unchanged, under the lock, after at most one
    bus write cycle: the run-mode register for the run-mode command
    (slave for argument 0, master otherwise), the channel-select or the
    indicator register with the low byte of the argument for the other
    two, and no bus cycle at all for a command the switch does not
    know, which is accepted all the same. *)
Theorem iobus_ioctl_accepts hdr ioc hw cmd arg d h :
  _IOC_TYPE cmd = IOBUS_IOC_MAGIC ioc ->
  _IOC_NR cmd <= IOBUS_IOC_MAXNR ioc ->
  exists evs,
    iobus_ioctl hdr ioc hw cmd arg d h = (0, d, evs) /\
    refines hdr
      (Ev SpinLockIrq :: ioctl_cycles hdr ioc cmd arg ++ [Ev SpinUnlockIrq])
      evs /\
    (length (ioctl_cycles hdr ioc cmd arg) <= 1)%nat /\
    (cmd <> IOBUS_IOC_RUN_STAT ioc -> cmd <> IOBUS_IOC_CH_SEL ioc ->
     cmd <> IOBUS_IOC_LED_STAT ioc ->
     refines hdr [Ev SpinLockIrq; Ev SpinUnlockIrq] evs).
Proof.
  intros Hm Hn.
  destruct (iobus_ioctl_accepted hdr ioc hw cmd arg d h Hm Hn)
    as (evs & E & R).
  exists evs. split; [exact E|]. split; [exact R|]. split.
  - unfold ioctl_cycles.
    destruct (cmd =? IOBUS_IOC_RUN_STAT ioc);
      [|destruct (cmd =? IOBUS_IOC_CH_SEL ioc);
         [|destruct (cmd =? IOBUS_IOC_LED_STAT ioc)]]; cbn [length]; lia.
  - intros H1 H2 H3. unfold ioctl_cycles in R.
    destruct (Z.eqb_spec cmd (IOBUS_IOC_RUN_STAT ioc)); [contradiction|].
    destruct (Z.eqb_spec cmd (IOBUS_IOC_CH_SEL ioc)); [contradiction|].
    destruct (Z.eqb_spec cmd (IOBUS_IOC_LED_STAT ioc)); [contradiction|].
    exact R.
Qed.

Lemma iobus_ioctl_accepts_witness :
  exists evs,
    iobus_ioctl sim_h sim_ioc (sim_hw (sim_mem 0 0)) 0x6900 7 dev_open []
      = (0, dev_open, evs) /\
    refines sim_h [Ev SpinLockIrq; Ev SpinUnlockIrq] evs.
Proof.
  destruct (iobus_ioctl_accepts sim_h sim_ioc (sim_hw (sim_mem 0 0)) 0x6900 7
              dev_open [] eq_refl ltac:(vm_compute; discriminate))
    as (evs & E & _ & _ & Hnone).
  exists evs. split; [exact E|].
  apply Hnone; vm_compute; discriminate.
Defined.

Lemma write_cpld_low_byte hdr hw addr data data' :
  uchar data = uchar data' ->
  write_cpld hdr hw addr data = write_cpld hdr hw addr data'.
Proof.
  intros Hu. unfold write_cpld, write_data. rewrite Hu. reflexivity.
Qed.

(** X13: the argument of a control command is not validated: for every
    command but the run-mode one, two arguments with the same low byte
    give the same call (same result, same state, same log), and the
    run-mode command does the same for every nonzero argument. *)
Theorem iobus_ioctl_argument_unchecked hdr ioc hw cmd arg arg' d h :
  (cmd <> IOBUS_IOC_RUN_STAT ioc -> uchar arg = uchar arg' ->
   iobus_ioctl hdr ioc hw cmd arg d h = iobus_ioctl hdr ioc hw cmd arg' d h) /\
  (cmd = IOBUS_IOC_RUN_STAT ioc -> arg <> 0 -> arg' <> 0 ->
   iobus_ioctl hdr ioc hw cmd arg d h = iobus_ioctl hdr ioc hw cmd arg' d h).
Proof.
  split.
  - intros Hc Hu. unfold iobus_ioctl, ioctl_switch.
    destruct (Z.eqb_spec cmd (IOBUS_IOC_RUN_STAT ioc)); [contradiction|].
    rewrite (write_cpld_low_byte hdr hw (CHSEL hdr) arg arg' Hu).
    rewrite (write_cpld_low_byte hdr hw (LED ioc) arg arg' Hu).
    reflexivity.
  - intros Hc Ha Ha'. unfold iobus_ioctl, ioctl_switch.
    rewrite Hc, Z.eqb_refl.
    destruct (Z.eqb_spec arg 0); [contradiction|].
    destruct (Z.eqb_spec arg' 0); [contradiction|].
    reflexivity.
Qed.

Lemma iobus_ioctl_argument_unchecked_witness :
  iobus_ioctl sim_h sim_ioc (sim_hw (sim_mem 0 0)) 0x6902 2 dev_open [] =
  iobus_ioctl sim_h sim_ioc (sim_hw (sim_mem 0 0)) 0x6902 258 dev_open [].
Proof.
  apply (proj1 (iobus_ioctl_argument_unchecked sim_h sim_ioc
                  (sim_hw (sim_mem 0 0)) 0x6902 2 258 dev_open [])).
  - vm_compute. discriminate.
  - reflexivity.
Defined.

(** ** Invariants of the log *)

Lemma keeps_bind {A B} P (m : M A) (f : A -> M B) :
  keeps P m -> (forall a, keeps P (f a)) -> keeps P (bind m f).
Proof.
  intros Hm Hf d h Hp. unfold bind.
  specialize (Hm d h Hp).
  destruct (m d h) as [[a d1] e1]. cbn [snd] in Hm.
  specialize (Hf a d1 (h ++ e1) Hm).
  destruct (f a d1 (h ++ e1)) as [[b d2] e2]. cbn [snd] in *.
  rewrite app_assoc. exact Hf.
Qed.

Lemma keeps_silent {A} P (m : M A) :
  (forall d h, snd (m d h) = []) -> keeps P m.
Proof. intros Hs d h Hp. rewrite Hs, app_nil_r. exact Hp. Qed.

Lemma keeps_for_from P k i body :
  (forall j, keeps P (body j)) -> keeps P (for_from k i body).
Proof.
  intros Hb. revert i. induction k as [|k IH]; intros i; cbn [for_from].
  - apply keeps_silent. reflexivity.
  - apply keeps_bind; [apply Hb | intros _; apply IH].
Qed.

Lemma strobe_reg_app w0 h e :
  strobe_reg w0 (h ++ e) = strobe_reg (strobe_reg w0 h) e.
Proof.
  unfold strobe_reg. rewrite last_write_app.
  destruct (last_write GPIO1_DR e); reflexivity.
Qed.

Lemma keeps_strobes_emit w0 e :
  is_mmio e = false -> keeps (strobes_idle w0) (emit e).
Proof.
  intros He d h Hp. cbn [emit snd]. unfold strobes_idle in *.
  rewrite strobe_reg_app. destruct e; try discriminate; exact Hp.
Qed.

Section StrobesIdle.

Variable hdr : iobus_h.
Variable hw : list event -> reg -> Z.
Variable w0 : Z.
Hypothesis latched : strobes_latched w0 hw.

Lemma write_cpld_keeps_strobes addr data :
  keeps (strobes_idle w0) (write_cpld hdr hw addr data).
Proof.
  intros d h [H0 H1]. unfold strobes_idle.
  cbv [write_cpld bind set_data_out set_addr write_data set_wr clr_wr
       set_data_in ioread32 iowrite32 emit].
  cbn [app snd]. rewrite strobe_reg_app.
  unfold strobe_reg at 1 3. cbn [last_write reg_eqb]. split.
  - rewrite wrap32_bit, Z.lor_spec by lia. apply orb_true_r.
  - rewrite wrap32_bit, Z.lor_spec, wrap32_bit by lia.
    rewrite (proj2 (latched _)), strobe_reg_app.
    unfold strobe_reg at 1. cbn [last_write reg_eqb].
    rewrite wrap32_bit, Z.land_spec, wrap32_bit by lia.
    rewrite (proj2 (latched _)), !strobe_reg_app.
    unfold strobe_reg at 1 2 3. cbn [last_write reg_eqb].
    rewrite H1. reflexivity.
Qed.

Lemma read_cpld_keeps_strobes addr :
  keeps (strobes_idle w0) (read_cpld hdr hw addr).
Proof.
  intros d h [H0 H1]. unfold strobes_idle.
  cbv [read_cpld bind set_data_in set_addr set_rd clr_rd read_data
       ioread32 iowrite32 emit ret].
  cbn [app snd]. rewrite strobe_reg_app.
  unfold strobe_reg at 1 3. cbn [last_write reg_eqb]. split.
  - rewrite wrap32_bit, Z.lor_spec, wrap32_bit by lia.
    rewrite (proj1 (latched _)), strobe_reg_app.
    unfold strobe_reg at 1. cbn [last_write reg_eqb].
    rewrite wrap32_bit, Z.land_spec, wrap32_bit by lia.
    rewrite (proj1 (latched _)), !strobe_reg_app.
    unfold strobe_reg at 1 2. cbn [last_write reg_eqb].
    rewrite H0. reflexivity.
  - rewrite wrap32_bit, Z.lor_spec by lia. apply orb_true_r.
Qed.

Lemma irq_ack_keeps_strobes : keeps (strobes_idle w0) (irq_ack hw).
Proof.
  intros d h [H0 H1]. unfold strobes_idle.
  cbv [irq_ack bind ioread32 iowrite32 emit].
  cbn [app snd]. rewrite strobe_reg_app.
  unfold strobe_reg at 1 3. cbn [last_write reg_eqb]. split.
  - rewrite wrap32_bit, Z.land_spec, wrap32_bit by lia.
    rewrite (proj1 (latched _)), strobe_reg_app.
    unfold strobe_reg at 1. cbn [last_write reg_eqb].
    rewrite wrap32_bit, Z.lor_spec, wrap32_bit by lia.
    rewrite (proj1 (latched _)), H0. reflexivity.
  - rewrite wrap32_bit, Z.land_spec, wrap32_bit by lia.
    rewrite (proj2 (latched _)), strobe_reg_app.
    unfold strobe_reg at 1. cbn [last_write reg_eqb].
    rewrite wrap32_bit, Z.lor_spec, wrap32_bit by lia.
    rewrite (proj2 (latched _)), H1. reflexivity.
Qed.

(** Stepping through a computation built from bus cycles, stores and
    kernel calls. *)
Ltac keeps_strobes :=
  repeat (cbv beta;
    match goal with
    | |- keeps _ (write_cpld _ _ _ _) => apply write_cpld_keeps_strobes
    | |- keeps _ (read_cpld _ _ _) => apply read_cpld_keeps_strobes
    | |- keeps _ (irq_ack _) => apply irq_ack_keeps_strobes
    | |- keeps _ (emit _) => apply keeps_strobes_emit; reflexivity
    | |- keeps _ (for_from _ _ _) => apply keeps_for_from; intros
    | |- keeps _ (bind _ _) => apply keeps_bind; [|intros]
    | |- keeps _ (ret _) => apply keeps_silent; reflexivity
    | |- keeps _ get_dev => apply keeps_silent; reflexivity
    | |- keeps _ (put_dev _) => apply keeps_silent; reflexivity
    | |- keeps _ (if ?c then _ else _) => destruct c
    | |- keeps _ (match ?c with IDLE => _ | BUSY => _ end) => destruct c
    end).

Lemma hdlc_init_keeps_strobes : keeps (strobes_idle w0) (hdlc_init hdr hw).
Proof.
  unfold hdlc_init, set_send_stat, set_recv_stat, spin_lock_irq,
    spin_unlock_irq.
  keeps_strobes.
Qed.

Lemma handler_keeps_strobes irq_ok :
  keeps (strobes_idle w0) (hdlc_interrupt_handler hdr hw irq_ok).
Proof.
  unfold hdlc_interrupt_handler, handle_rmc, handle_tmc, set_send_stat,
    set_recv_stat, set_recv_bytes, set_recv_buf, spin_lock_irq,
    spin_unlock_irq, wake_up_interruptible.
  keeps_strobes.
Qed.

Lemma tasklet_keeps_strobes :
  keeps (strobes_idle w0) (recv_tasklet_func hdr hw).
Proof.
  unfold recv_tasklet_func, set_recv_stat, set_recv_bytes, set_recv_buf,
    spin_lock_irq, spin_unlock_irq.
  keeps_strobes.
Qed.

Lemma iobus_write_keeps_strobes nonblock umem avail count :
  keeps (strobes_idle w0) (iobus_write hdr hw nonblock umem avail count).
Proof.
  unfold iobus_write, copy_from_user, set_send_stat, spin_lock_irq,
    spin_unlock_irq.
  keeps_strobes.
Qed.

Lemma iobus_read_keeps_strobes nonblock avail count :
  keeps (strobes_idle w0) (iobus_read nonblock avail count).
Proof.
  unfold iobus_read, copy_to_user, set_recv_stat.
  keeps_strobes.
Qed.

Lemma iobus_poll_keeps_strobes pt : keeps (strobes_idle w0) (iobus_poll pt).
Proof. unfold iobus_poll. keeps_strobes. Qed.

Lemma iobus_ioctl_keeps_strobes ioc cmd arg :
  keeps (strobes_idle w0) (iobus_ioctl hdr ioc hw cmd arg).
Proof.
  unfold iobus_ioctl, ioctl_switch, spin_lock_irq, spin_unlock_irq.
  keeps_strobes.
Qed.

Lemma run_calls_keeps_strobes ioc cs :
  keeps (strobes_idle w0) (run_calls hdr ioc hw cs).
Proof.
  induction cs as [|c cs IH]; cbn [run_calls].
  - apply keeps_silent. reflexivity.
  - apply keeps_bind; [|intros _; exact IH].
    destruct c; cbn [run_call];
      (apply keeps_bind; [|intros; apply keeps_silent; reflexivity])
      || idtac.
    + apply handler_keeps_strobes.
    + apply tasklet_keeps_strobes.
    + apply iobus_write_keeps_strobes.
    + apply iobus_read_keeps_strobes.
    + apply iobus_poll_keeps_strobes.
    + apply iobus_ioctl_keeps_strobes.
Qed.

End StrobesIdle.

(** *** The data lines *)

Lemma establishes_keeps {A} P (m : M A) : establishes P m -> keeps P m.
Proof. intros He d h _. apply He. Qed.

Lemma establishes_bind_l {A B} P (m : M A) (f : A -> M B) :
  establishes P m -> (forall a, keeps P (f a)) -> establishes P (bind m f).
Proof.
  intros Hm Hf d h. unfold bind.
  specialize (Hm d h).
  destruct (m d h) as [[a d1] e1]. cbn [snd] in Hm.
  specialize (Hf a d1 (h ++ e1) Hm).
  destruct (f a d1 (h ++ e1)) as [[b d2] e2]. cbn [snd] in *.
  rewrite app_assoc. exact Hf.
Qed.

Lemma establishes_bind_r {A B} P (m : M A) (f : A -> M B) :
  (forall a, establishes P (f a)) -> establishes P (bind m f).
Proof.
  intros Hf d h. unfold bind.
  destruct (m d h) as [[a d1] e1].
  specialize (Hf a d1 (h ++ e1)).
  destruct (f a d1 (h ++ e1)) as [[b d2] e2]. cbn [snd] in *.
  rewrite app_assoc. exact Hf.
Qed.

Lemma data_lines_in_app h e :
  last_write GPIO3_GDIR e = None -> data_lines_in h -> data_lines_in (h ++ e).
Proof.
  intros He (g & Hg & Hb). unfold data_lines_in.
  rewrite last_write_app, He. eauto.
Qed.

Lemma data_lines_in_last h e g :
  last_write GPIO3_GDIR e = Some (Z.land g 0xFF00FFFF) ->
  data_lines_in (h ++ e).
Proof.
  intros He. unfold data_lines_in. rewrite last_write_app, He.
  eexists. split; [reflexivity|].
  intros i Hi. rewrite Z.land_spec, data_dir_bits_clear by assumption.
  apply andb_false_r.
Qed.

(** The lemmas are stated for a log that continues an earlier one,
    [h0], so that they apply to a computation that runs inside a
    longer log. *)
Section DataLines.

Variable hdr : iobus_h.
Variable hw : list event -> reg -> Z.
Variable h0 : list event.

Lemma keeps_data_emit e :
  is_mmio e = false -> keeps (data_lines_in_after h0) (emit e).
Proof.
  intros He d h Hp. cbn [emit snd]. unfold data_lines_in_after in *.
  rewrite app_assoc. apply data_lines_in_app; [|exact Hp].
  destruct e; try discriminate; reflexivity.
Qed.

Lemma write_cpld_data_lines addr data :
  establishes (data_lines_in_after h0) (write_cpld hdr hw addr data).
Proof.
  intros d h. destruct (write_cpld_run hdr hw addr data d h) as (evs & E & C).
  rewrite E. cbn [snd].
  cbn [bus_cycle write_cycle pin_trace pin_events] in C.
  unfold rmw in C. break_up. subst.
  unfold data_lines_in_after. rewrite app_assoc.
  eapply data_lines_in_last. cbn [app last_write reg_eqb]. reflexivity.
Qed.

Lemma read_cpld_data_lines addr :
  establishes (data_lines_in_after h0) (read_cpld hdr hw addr).
Proof.
  intros d h. destruct (read_cpld_run hdr hw addr d h) as (v & evs & E & C).
  rewrite E. cbn [snd].
  cbn [bus_cycle read_cycle pin_trace pin_events] in C.
  unfold rmw in C. break_up. subst.
  unfold data_lines_in_after. rewrite app_assoc.
  eapply data_lines_in_last. cbn [app last_write reg_eqb]. reflexivity.
Qed.

Lemma irq_ack_keeps_data_lines :
  keeps (data_lines_in_after h0) (irq_ack hw).
Proof.
  intros d h Hp. unfold data_lines_in_after in *. rewrite app_assoc.
  apply data_lines_in_app; [|exact Hp]. reflexivity.
Qed.

Ltac keeps_data :=
  repeat (cbv beta;
    match goal with
    | |- keeps _ (write_cpld _ _ _ _) =>
        apply establishes_keeps, write_cpld_data_lines
    | |- keeps _ (read_cpld _ _ _) =>
        apply establishes_keeps, read_cpld_data_lines
    | |- keeps _ (irq_ack _) => apply irq_ack_keeps_data_lines
    | |- keeps _ (emit _) => apply keeps_data_emit; reflexivity
    | |- keeps _ (for_from _ _ _) => apply keeps_for_from; intros
    | |- keeps _ (bind _ _) => apply keeps_bind; [|intros]
    | |- keeps _ (ret _) => apply keeps_silent; reflexivity
    | |- keeps _ get_dev => apply keeps_silent; reflexivity
    | |- keeps _ (put_dev _) => apply keeps_silent; reflexivity
    | |- keeps _ (if ?c then _ else _) => destruct c
    | |- keeps _ (match ?c with IDLE => _ | BUSY => _ end) => destruct c
    end).

Lemma hdlc_init_data_lines :
  establishes (data_lines_in_after h0) (hdlc_init hdr hw).
Proof.
  unfold hdlc_init.
  do 8 (apply establishes_bind_r; intros _).
  apply establishes_bind_l; [apply write_cpld_data_lines|].
  intros _. apply keeps_data_emit. reflexivity.
Qed.

Lemma run_calls_keeps_data_lines ioc cs :
  keeps (data_lines_in_after h0) (run_calls hdr ioc hw cs).
Proof.
  induction cs as [|c cs IH]; cbn [run_calls].
  - apply keeps_silent. reflexivity.
  - apply keeps_bind; [|intros _; exact IH].
    destruct c; cbn [run_call];
      unfold hdlc_interrupt_handler, handle_rmc, handle_tmc,
        recv_tasklet_func, iobus_write, iobus_read, iobus_poll, iobus_ioctl,
        ioctl_switch, copy_from_user, copy_to_user, set_send_stat,
        set_recv_stat, set_recv_bytes, set_recv_buf, spin_lock_irq,
        spin_unlock_irq, wake_up_interruptible;
      keeps_data.
Qed.

End DataLines.

(** X14: the bus is idle between calls.  After [hdlc_init] and any
    sequence of driver calls (dispatches, deferred drains, writes,
    reads, polls, control commands) the data lines are inputs; and on
    hardware that reads the two strobe bits of GPIO1_DR back as stored,
    both strobes are deasserted if they were when the session began. *)
Theorem session_leaves_bus_idle hdr ioc hw w0 cs d h :
  data_lines_in (h ++ snd (session hdr ioc hw cs d h)) /\
  (strobes_latched w0 hw -> strobes_idle w0 h ->
   strobes_idle w0 (h ++ snd (session hdr ioc hw cs d h))).
Proof.
  split.
  - assert (E : establishes (data_lines_in_after []) (session hdr ioc hw cs)).
    { unfold session. apply establishes_bind_l.
      - apply hdlc_init_data_lines.
      - intros _. apply run_calls_keeps_data_lines. }
    specialize (E d h). unfold data_lines_in_after in E.
    rewrite app_nil_l in E. exact E.
  - intros Hl Hi. revert d h Hi.
    apply (keeps_bind (strobes_idle w0)).
    + apply hdlc_init_keeps_strobes. exact Hl.
    + intros _. apply run_calls_keeps_strobes. exact Hl.
Qed.

Lemma sim_hw_latched mem : strobes_latched 3 (sim_hw mem).
Proof. intros h. unfold sim_hw, strobe_reg. split; reflexivity. Qed.

Lemma session_leaves_bus_idle_witness :
  strobes_idle 3
    ([] ++ snd (session sim_h sim_ioc (sim_hw (sim_mem 1 0))
                  [CallIrq true; CallRead true 16 16;
                   CallWrite true user_frame 3 3] dev_open [])).
Proof.
  apply (session_leaves_bus_idle sim_h sim_ioc (sim_hw (sim_mem 1 0)) 3).
  - apply sim_hw_latched.
  - split; reflexivity.
Defined.

(** ** Invariants of the device state *)



Lemma bind_ret_events {A} (m : M A) d h :
  snd (bind m (fun _ => ret tt) d h) = snd (m d h).
Proof.
  unfold bind. destruct (m d h) as [[a d1] e1]. cbn [snd ret].
  apply app_nil_r.
Qed.







(** ** The lock in process context *)

Lemma tally_ioctl_cycles p hdr ioc cmd arg :
  tally_steps p (ioctl_cycles hdr ioc cmd arg) = 0%nat.
Proof.
  unfold ioctl_cycles, tally_steps.
  destruct (cmd =? IOBUS_IOC_RUN_STAT ioc);
    [|destruct (cmd =? IOBUS_IOC_CH_SEL ioc);
       [|destruct (cmd =? IOBUS_IOC_LED_STAT ioc)]]; reflexivity.
Qed.

(** X16: only the interrupt handler can leave the spin lock held.
    [hdlc_init] and every call other than a dispatch (deferred drain,
    write, read, poll, control command) release the lock exactly as
    often as they take it, at most once, on every path. *)
Theorem process_calls_release_lock hdr ioc hw d h :
  (tally is_lock (snd (hdlc_init hdr hw d h)) = 1%nat /\
   tally is_unlock (snd (hdlc_init hdr hw d h)) = 1%nat) /\
  (forall c, (forall irq_ok, c <> CallIrq irq_ok) -> call_ok c ->
     tally is_lock (snd (run_call hdr ioc hw c d h)) =
     tally is_unlock (snd (run_call hdr ioc hw c d h)) /\
     (tally is_lock (snd (run_call hdr ioc hw c d h)) <= 1)%nat).
Proof.
  split.
  - destruct (hdlc_init_run hdr hw d h) as (evs & E & R). rewrite E.
    cbn [snd].
    rewrite (tally_refines _ _ _ _ lock_not_mmio R),
      (tally_refines _ _ _ _ unlock_not_mmio R). split; reflexivity.
  - intros c Hirq Hc. destruct c; cbn [run_call call_ok] in *;
      rewrite ?bind_ret_events.
    + exfalso. exact (Hirq irq_ok eq_refl).
    + destruct (recv_tasklet_func_run hdr hw d h)
        as (lo & hi & bs & v & evs & E & _ & R & _). rewrite E. cbn [snd].
      rewrite (tally_refines _ _ _ _ lock_not_mmio R),
        (tally_refines _ _ _ _ unlock_not_mmio R).
      unfold tasklet_steps.
      rewrite !tally_steps_app, !tally_drain_steps by reflexivity.
      split; [reflexivity | cbn; lia].
    + destruct (send_stat d) eqn:Hs.
      * destruct (Z.eq_dec (copied avail count) count) as [Hall|Hpart].
        -- destruct (iobus_write_send_run hdr hw nonblock umem avail count
                       d h Hs Hc Hall) as (v & evs & E & R).
           rewrite E. cbn [snd].
           rewrite (tally_refines _ _ _ _ lock_not_mmio R),
             (tally_refines _ _ _ _ unlock_not_mmio R).
           unfold stage_steps.
           change (Ev SpinLockIrq :: ?l) with ([Ev SpinLockIrq] ++ l).
           rewrite !tally_steps_app, !tally_frame_writes.
           split; [reflexivity | cbn; lia].
        -- assert (Hle := copied_le avail count Hc).
           rewrite iobus_write_fault by (assumption || lia).
           split; [reflexivity | cbn; lia].
      * rewrite iobus_write_busy by assumption.
        split; [reflexivity | cbn; lia].
    + cbv [iobus_read bind get_dev copy_to_user emit ret set_recv_stat
           put_dev].
      destruct (recv_stat d);
        [destruct (negb (recv_bytes d - copied avail (recv_bytes d) =? 0))
        |destruct nonblock]; cbn; split; (reflexivity || lia).
    + cbn. split; (reflexivity || lia).
    + destruct (Z.eq_dec (_IOC_TYPE cmd) (IOBUS_IOC_MAGIC ioc)) as [Hm|Hm];
        [destruct (Z_lt_le_dec (IOBUS_IOC_MAXNR ioc) (_IOC_NR cmd))
           as [Hn|Hn]|].
      * rewrite iobus_ioctl_rejected_run by (right; exact Hn).
        split; [reflexivity | cbn; lia].
      * destruct (iobus_ioctl_accepted hdr ioc hw cmd arg d h Hm Hn)
          as (evs & E & R). rewrite E. cbn [snd].
        rewrite (tally_refines _ _ _ _ lock_not_mmio R),
          (tally_refines _ _ _ _ unlock_not_mmio R).
        change (Ev SpinLockIrq :: ?l) with ([Ev SpinLockIrq] ++ l).
        rewrite !tally_steps_app, !tally_ioctl_cycles.
        split; [reflexivity | cbn; lia].
      * rewrite iobus_ioctl_rejected_run by (left; exact Hm).
        split; [reflexivity | cbn; lia].
Qed.

Lemma process_calls_release_lock_witness :
  tally is_lock
    (snd (run_call sim_h sim_ioc (sim_hw (sim_mem 0 0))
            (CallWrite true user_frame 3 3) dev_open [])) =
  tally is_unlock
    (snd (run_call sim_h sim_ioc (sim_hw (sim_mem 0 0))
            (CallWrite true user_frame 3 3) dev_open [])).
Proof.
  apply (proj2 (process_calls_release_lock sim_h sim_ioc
                  (sim_hw (sim_mem 0 0)) dev_open [])).
  - intros irq_ok. discriminate.
  - cbn. lia.
Defined.

(** * Loading and unloading the module *)

Lemma wrap32_wrap32 x : wrap32 (wrap32 x) = wrap32 x.
Proof. unfold wrap32. apply Z.mod_mod. lia. Qed.

Lemma IS_ERR_wrap32 p : IS_ERR (wrap32 p) = IS_ERR p.
Proof. unfold IS_ERR. rewrite wrap32_wrap32. reflexivity. Qed.

Lemma PTR_ERR_range p : IS_ERR p = true -> - MAX_ERRNO <= PTR_ERR p < 0.
Proof.
  unfold IS_ERR, PTR_ERR, int32, MAX_ERRNO. intros H.
  apply Z.leb_le in H.
  assert (Hr : 0 <= wrap32 p < 2 ^ 32) by (apply Z.mod_pos_bound; lia).
  destruct (wrap32 p <? 2 ^ 31) eqn:Hlt.
  - apply Z.ltb_lt in Hlt. lia.
  - lia.
Qed.

Lemma PTR_ERR_nonzero p : IS_ERR p = true -> (PTR_ERR (wrap32 p) =? 0) = false.
Proof.
  intros H. rewrite <- IS_ERR_wrap32 in H.
  apply PTR_ERR_range in H. apply Z.eqb_neq. lia.
Qed.

(** What [iobus_init] returns and what it leaves held, in one
    equation per outcome. *)
Lemma iobus_init_outcome k :
  (fst (iobus_init k) =? 0) = all_granted k /\
  holds [] (snd (iobus_init k))
    = Some (if all_granted k then everything else []).
Proof.
  unfold iobus_init, all_granted.
  destruct (wrap32 (kmalloc_ret k) =? 0) eqn:E1;
    [cbn; rewrite E1; split; reflexivity|].
  destruct (int32 (alloc_chrdev_region_ret k) =? 0) eqn:E2;
    [|cbn; rewrite E1, E2; split; reflexivity].
  destruct (int32 (cdev_add_ret k) =? 0) eqn:E3;
    [|cbn; rewrite E1, E2, E3; split; reflexivity].
  destruct (IS_ERR (class_create_ret k)) eqn:E4;
    [cbn [negb andb]; rewrite IS_ERR_wrap32, E4; cbn;
     rewrite E1, E2, E3, IS_ERR_wrap32, E4, (PTR_ERR_nonzero _ E4);
     split; reflexivity|].
  destruct (IS_ERR (device_create_ret k)) eqn:E5;
    [cbn [negb andb]; rewrite !IS_ERR_wrap32, E4, E5; cbn;
     rewrite E1, E2, E3, !IS_ERR_wrap32, E4, E5, (PTR_ERR_nonzero _ E5);
     split; reflexivity|].
  destruct (wrap32 (ioremap_ret k iomux_regs) =? 0) eqn:E6;
    [cbn [negb andb]; rewrite !IS_ERR_wrap32, E4, E5; cbn;
     rewrite E1, E2, E3, !IS_ERR_wrap32, E4, E5, E6; split; reflexivity|].
  destruct (wrap32 (ioremap_ret k gpio4_regs) =? 0) eqn:E7;
    [cbn [negb andb]; rewrite !IS_ERR_wrap32, E4, E5; cbn;
     rewrite E1, E2, E3, !IS_ERR_wrap32, E4, E5, E6, E7;
     split; reflexivity|].
  destruct (wrap32 (ioremap_ret k gpio3_regs) =? 0) eqn:E8;
    [cbn [negb andb]; rewrite !IS_ERR_wrap32, E4, E5; cbn;
     rewrite E1, E2, E3, !IS_ERR_wrap32, E4, E5, E6, E7, E8;
     split; reflexivity|].
  destruct (wrap32 (ioremap_ret k gpio1_regs) =? 0) eqn:E9;
    cbn [negb andb]; rewrite !IS_ERR_wrap32, E4, E5; cbn;
    rewrite E1, E2, E3, !IS_ERR_wrap32, E4, E5, E6, E7, E8, E9;
    split; reflexivity.
Qed.

Lemma holds_app held l1 l2 held1 :
  holds held l1 = Some held1 -> holds held (l1 ++ l2) = holds held1 l2.
Proof.
  revert held. induction l1 as [|c l1 IH]; intros held H; cbn [holds app] in *.
  - injection H as <-. reflexivity.
  - destruct (releases c).
    + destruct held as [|r' rest]; [discriminate|].
      destruct (resource_eqb r r'); [auto | discriminate].
    + destruct (acquires c); auto.
Qed.

(** X17: loading is all or nothing.  Whatever the kernel answers,
    [iobus_init] returns 0 exactly when all nine acquisitions
    succeeded, and then holds all nine; when it returns anything else,
    every resource it had acquired has been released again, each
    release naming the most recent resource still held. *)
Theorem iobus_init_all_or_nothing k :
  (fst (iobus_init k) = 0 <-> all_granted k = true) /\
  (fst (iobus_init k) = 0 ->
   holds [] (snd (iobus_init k)) = Some everything) /\
  (fst (iobus_init k) <> 0 -> holds [] (snd (iobus_init k)) = Some []).
Proof.
  destruct (iobus_init_outcome k) as (Hr & Hh).
  split; [|split].
  - rewrite <- Hr. symmetry. apply Z.eqb_eq.
  - intros H0. apply Z.eqb_eq in H0. rewrite Hr in H0.
    rewrite Hh, H0. reflexivity.
  - intros H0. apply Z.eqb_neq in H0. rewrite Hr in H0.
    rewrite Hh, H0. reflexivity.
Qed.

Lemma iobus_init_all_or_nothing_witness :
  holds [] (snd (iobus_init sim_kernel)) = Some everything /\
  holds [] (snd (iobus_init sim_kernel_nodev)) = Some [].
Proof.
  split.
  - apply (proj1 (proj2 (iobus_init_all_or_nothing sim_kernel))).
    vm_compute. reflexivity.
  - apply (proj2 (proj2 (iobus_init_all_or_nothing sim_kernel_nodev))).
    vm_compute. discriminate.
Defined.

(** X18: unloading undoes loading.  After a successful [iobus_init],
    [iobus_exit] releases the nine resources in the reverse of the
    order they were acquired in, and nothing is left held. *)
Theorem iobus_exit_undoes_init k :
  fst (iobus_init k) = 0 ->
  holds [] (snd (iobus_init k) ++ iobus_exit) = Some [] /\
  map Some (rev everything) =
    filter (fun o => match o with Some _ => true | None => false end)
      (map acquires (snd (iobus_init k))) /\
  map Some everything = map releases iobus_exit.
Proof.
  intros H0.
  destruct (iobus_init_all_or_nothing k) as (Hg & Hh & _).
  split; [|split].
  - rewrite (holds_app _ _ _ _ (Hh H0)). reflexivity.
  - apply Hg in H0. clear Hg Hh. revert H0.
    unfold iobus_init, all_granted.
    destruct (wrap32 (kmalloc_ret k) =? 0) eqn:E1; [discriminate|].
    destruct (int32 (alloc_chrdev_region_ret k) =? 0) eqn:E2;
      [|discriminate].
    destruct (int32 (cdev_add_ret k) =? 0) eqn:E3; [|discriminate].
    destruct (IS_ERR (class_create_ret k)) eqn:E4; [discriminate|].
    destruct (IS_ERR (device_create_ret k)) eqn:E5; [discriminate|].
    destruct (wrap32 (ioremap_ret k iomux_regs) =? 0) eqn:E6;
      [discriminate|].
    destruct (wrap32 (ioremap_ret k gpio4_regs) =? 0) eqn:E7;
      [discriminate|].
    destruct (wrap32 (ioremap_ret k gpio3_regs) =? 0) eqn:E8;
      [discriminate|].
    destruct (wrap32 (ioremap_ret k gpio1_regs) =? 0) eqn:E9;
      [discriminate|].
    intros _. rewrite !IS_ERR_wrap32, E4, E5. cbn.
    rewrite E1, E2, E3, !IS_ERR_wrap32, E4, E5, E6, E7, E8, E9.
    reflexivity.
  - reflexivity.
Qed.

Lemma iobus_exit_undoes_init_witness :
  holds [] (snd (iobus_init sim_kernel) ++ iobus_exit) = Some [].
Proof.
  apply (proj1 (iobus_exit_undoes_init sim_kernel eq_refl)).
Defined.

(** * The data lines as a channel, and the state [hdlc_init] leaves *)

Lemma uchar_bit x i : 0 <= i ->
  Z.testbit (uchar x) i = (i <? 8) && Z.testbit x i.
Proof.
  intros Hi. unfold uchar. change 256 with (2 ^ 8).
  destruct (i <? 8) eqn:E.
  - apply Z.ltb_lt in E. rewrite Z.mod_pow2_bits_low by lia. reflexivity.
  - apply Z.ltb_ge in E. rewrite Z.mod_pow2_bits_high by lia. reflexivity.
Qed.

(** X19: what [write_data] drives, [read_data] samples.  When the
    header's mask is clear on the eight data lines (shift at most 24)
    and GPIO3_DR reads back as written, [write_data] followed by
    [read_data] returns the byte written, whatever the other 24 bits
    of the register hold. *)
Theorem write_data_read_back hdr hw b d h :
  0 <= CPLD_DATA_SHIFT hdr <= 24 ->
  data_field_clear hdr ->
  data_latched hw ->
  fst (fst ((write_data hdr hw b ;; read_data hdr hw) d h)) = uchar b.
Proof.
  intros Hs Hm Hl.
  cbv [write_data read_data bind ioread32 iowrite32 emit ret fst snd].
  cbn [app].
  match goal with
  | |- context [hw (?h1 ++ [?e1; IoWrite GPIO3_DR ?w]) GPIO3_DR] =>
      assert (Hw : last_write GPIO3_DR (h1 ++ [e1; IoWrite GPIO3_DR w])
                   = Some w) by (rewrite last_write_app; reflexivity);
      rewrite (Hl _ _ Hw); clear Hw
  end.
  rewrite wrap32_wrap32.
  apply Z.bits_inj'. intros i Hi.
  rewrite !uchar_bit by assumption.
  destruct (i <? 8) eqn:E; [|reflexivity]. apply Z.ltb_lt in E.
  cbn [andb].
  rewrite Z.shiftr_spec, Z.land_spec, Z.lnot_spec by lia.
  rewrite (Hm i) by lia. cbn [negb]. rewrite andb_true_r.
  rewrite wrap32_bit, Z.lor_spec, Z.land_spec by lia.
  rewrite (Hm i) by lia. rewrite andb_false_r. cbn [orb].
  rewrite Z.shiftl_spec by lia.
  replace (i + CPLD_DATA_SHIFT hdr - CPLD_DATA_SHIFT hdr) with i by lia.
  rewrite uchar_bit by assumption.
  apply Z.ltb_lt in E. rewrite E. reflexivity.
Qed.

Lemma write_data_read_back_witness :
  fst (fst ((write_data sim_h sim_pins 0x1A5 ;;
             read_data sim_h sim_pins) dev_open [])) = 0xA5.
Proof.
  apply (write_data_read_back sim_h sim_pins 0x1A5 dev_open []).
  - cbn. lia.
  - intros i Hi.
    assert (Hc : i = 0 \/ i = 1 \/ i = 2 \/ i = 3 \/ i = 4 \/ i = 5 \/
                 i = 6 \/ i = 7) by lia.
    destruct Hc as [->|[->|[->|[->|[->|[->|[->| ->]]]]]]]; reflexivity.
  - intros h v Hv. unfold sim_pins. rewrite Hv. reflexivity.
Defined.

(** X20: [hdlc_init] leaves the device writable, with nothing to read
    and reception not armed.  Where the enable register RTER is none
    of the six registers it programs, none of its bus cycles stores to
    RTER; in the state it leaves a read finds nothing (-EAGAIN when
    non-blocking, otherwise the caller sleeps on the receive queue) and
    polling reports the device writable only. *)
Theorem hdlc_init_leaves_receiver_unarmed hdr hw d h :
  init_apart hdr ->
  exists d' evs,
    hdlc_init hdr hw d h = (tt, d', evs) /\
    refines hdr (init_steps hdr) evs /\
    Forall (fun s => ~ writes_rter hdr s) (init_steps hdr) /\
    (forall nonblock avail count h',
       iobus_read nonblock avail count d' h' =
         (if nonblock then Returned (- EAGAIN) else Sleeping recv_wq,
          d', [])) /\
    (forall pt h',
       iobus_poll pt d' h' =
         ((Z.lor POLLOUT POLLWRNORM, pt ++ [send_wq; recv_wq]), d', [])).
Proof.
  intros Ha.
  destruct (hdlc_init_run hdr hw d h) as (evs & E & R).
  exists (with_recv_stat (with_send_stat d IDLE) BUSY), evs.
  split; [exact E|]. split; [exact R|]. split; [|split].
  - clear E R. unfold init_steps.
    repeat (apply Forall_cons;
            [intros (x & Hx); try discriminate;
             injection Hx as Hx _; apply Ha; rewrite Hx;
             cbn [In]; tauto|]).
    apply Forall_nil.
  - intros nonblock avail count h'. apply iobus_read_busy. reflexivity.
  - intros pt h'. unfold iobus_poll, poll_wait.
    cbv [bind get_dev ret]. cbn [recv_stat send_stat with_recv_stat
                                 with_send_stat app].
    rewrite <- app_assoc. reflexivity.
Qed.

Lemma hdlc_init_leaves_receiver_unarmed_witness :
  exists d' evs,
    hdlc_init sim_h (sim_hw (sim_mem 0 0)) dev_frame [] = (tt, d', evs) /\
    iobus_read true 16 16 d' evs = (Returned (- EAGAIN), d', []).
Proof.
  destruct (hdlc_init_leaves_receiver_unarmed sim_h (sim_hw (sim_mem 0 0))
              dev_frame [])
    as (d' & evs & E & _ & _ & Hr & _).
  - unfold init_apart. cbn. intros Hin.
    repeat (destruct Hin as [Hin|Hin]; [discriminate|]). exact Hin.
  - exists d', evs. split; [exact E|]. exact (Hr true 16 16 evs).
Defined.

(** * Opening and closing the device *)

Lemma drv_log_app a b : drv_log (a ++ b) = drv_log a ++ drv_log b.
Proof. unfold drv_log. apply flat_map_app. Qed.

Lemma drv_log_map e : drv_log (map Drv e) = e.
Proof.
  unfold drv_log. induction e as [|x e IH]; [reflexivity|].
  cbn [map flat_map app]. rewrite IH. reflexivity.
Qed.

Lemma kkeeps_bind {A B} P (m : K A) (f : A -> K B) :
  kkeeps P m -> (forall a, kkeeps P (f a)) -> kkeeps P (kbind m f).
Proof.
  intros Hm Hf d h Hp. unfold kbind.
  specialize (Hm d h Hp).
  destruct (m d h) as [[a d1] e1]. cbn [snd] in Hm.
  specialize (Hf a d1 (h ++ e1) Hm).
  destruct (f a d1 (h ++ e1)) as [[b d2] e2]. cbn [snd] in *.
  rewrite app_assoc. exact Hf.
Qed.

Lemma kestablishes_keeps {A} P (m : K A) : kestablishes P m -> kkeeps P m.
Proof. intros He d h _. apply He. Qed.

Lemma kestablishes_bind_l {A B} P (m : K A) (f : A -> K B) :
  kestablishes P m -> (forall a, kkeeps P (f a)) -> kestablishes P (kbind m f).
Proof.
  intros Hm Hf d h. unfold kbind.
  specialize (Hm d h).
  destruct (m d h) as [[a d1] e1]. cbn [snd] in Hm.
  specialize (Hf a d1 (h ++ e1) Hm).
  destruct (f a d1 (h ++ e1)) as [[b d2] e2]. cbn [snd] in *.
  rewrite app_assoc. exact Hf.
Qed.

Lemma kestablishes_bind_r {A B} P (m : K A) (f : A -> K B) :
  (forall a, kestablishes P (f a)) -> kestablishes P (kbind m f).
Proof.
  intros Hf d h. unfold kbind.
  destruct (m d h) as [[a d1] e1].
  specialize (Hf a d1 (h ++ e1)).
  destruct (f a d1 (h ++ e1)) as [[b d2] e2]. cbn [snd] in *.
  rewrite app_assoc. exact Hf.
Qed.

Lemma kkeeps_ret {A} P (a : A) : kkeeps P (kret a).
Proof. intros d h Hp. cbn [kret snd]. rewrite app_nil_r. exact Hp. Qed.

Lemma lift_run {A} khw (m : (list event -> reg -> Z) -> M A) d hk :
  lift khw m d hk =
    (fst (fst (m (hw_at khw hk) d [])), snd (fst (m (hw_at khw hk) d [])),
     map Drv (snd (m (hw_at khw hk) d []))).
Proof.
  unfold lift. destruct (m (hw_at khw hk) d []) as [[a d'] e]. reflexivity.
Qed.

(** ** What the driver events of the longer log keep *)

(** A property of the driver events is kept by what emits none. *)
Lemma kkeeps_kemit (Q : list event -> Prop) e :
  match e with Drv _ => False | _ => True end ->
  kkeeps (fun hk => Q (drv_log hk)) (kemit e).
Proof.
  intros He d hk Hp. cbn [kemit snd]. rewrite drv_log_app.
  destruct e; try contradiction; cbn [drv_log flat_map app];
    rewrite app_nil_r; exact Hp.
Qed.

Lemma kkeeps_ioread32_at (Q : list event -> Prop) khw b off :
  kkeeps (fun hk => Q (drv_log hk)) (ioread32_at khw b off).
Proof.
  intros d hk Hp. cbn [ioread32_at snd]. rewrite drv_log_app.
  cbn [drv_log flat_map app]. rewrite app_nil_r. exact Hp.
Qed.

Lemma kkeeps_set_bits_at (Q : list event -> Prop) khw bits b off :
  kkeeps (fun hk => Q (drv_log hk)) (set_bits_at khw bits b off).
Proof.
  apply kkeeps_bind; [apply kkeeps_ioread32_at|].
  intros v. apply kkeeps_kemit. exact I.
Qed.

Section Strobes.

Variable khw : list kevent -> kreg -> Z.
Variable w0 : Z.
Hypothesis latched : kstrobes_latched w0 khw.

Lemma hw_at_latched hk :
  strobes_latched (strobe_reg w0 (drv_log hk)) (hw_at khw hk).
Proof.
  intros h. unfold hw_at.
  destruct (latched (hk ++ map Drv h)) as (H0 & H1).
  rewrite drv_log_app, drv_log_map, strobe_reg_app in H0, H1.
  split; assumption.
Qed.

Lemma lift_keeps_strobes {A} (m : (list event -> reg -> Z) -> M A) :
  (forall w hw, strobes_latched w hw -> keeps (strobes_idle w) (m hw)) ->
  kkeeps (fun hk => strobes_idle w0 (drv_log hk)) (lift khw m).
Proof.
  intros Hm d hk Hp. rewrite lift_run. cbn [snd].
  rewrite drv_log_app, drv_log_map.
  specialize (Hm _ _ (hw_at_latched hk) d [] Hp).
  cbn [app] in Hm. unfold strobes_idle in *.
  rewrite strobe_reg_app. exact Hm.
Qed.

(** After [clr_wr], the write strobe is deasserted; after [clr_rd],
    the read strobe is, and the write strobe stays as it was. *)
Lemma lift_clr_wr :
  kestablishes
    (fun hk => Z.testbit (strobe_reg w0 (drv_log hk)) 0 = true)
    (lift khw clr_wr).
Proof.
  intros d hk. rewrite lift_run.
  cbv [clr_wr bind ioread32 iowrite32 emit fst snd app map].
  rewrite drv_log_app. cbn [drv_log flat_map app].
  rewrite strobe_reg_app. unfold strobe_reg at 1.
  cbn [last_write reg_eqb].
  rewrite wrap32_bit, Z.lor_spec by lia. apply orb_true_r.
Qed.

Lemma lift_clr_rd d hk :
  Z.testbit (strobe_reg w0 (drv_log hk)) 0 = true ->
  strobes_idle w0 (drv_log (hk ++ snd (lift khw clr_rd d hk))).
Proof.
  intros H0. rewrite lift_run.
  cbv [clr_rd bind ioread32 iowrite32 emit fst snd app map].
  rewrite drv_log_app. cbn [drv_log flat_map app].
  unfold strobes_idle. rewrite strobe_reg_app. unfold strobe_reg at 1 3.
  cbn [last_write reg_eqb].
  rewrite !wrap32_bit, !Z.lor_spec, !wrap32_bit by lia.
  unfold hw_at. cbn [map]. rewrite app_nil_r.
  rewrite (proj1 (latched hk)), H0. split; [reflexivity|].
  apply orb_true_r.
Qed.

Lemma gpio_init_strobes gh :
  kestablishes (fun hk => strobes_idle w0 (drv_log hk)) (gpio_init gh khw).
Proof.
  unfold gpio_init.
  do 26 (apply kestablishes_bind_r; intros _).
  intros d hk. unfold kbind.
  pose proof (lift_clr_wr d hk) as H0.
  destruct (lift khw clr_wr d hk) as [[a d1] e1]. cbn [snd] in H0.
  pose proof (lift_clr_rd d1 (hk ++ e1) H0) as H1.
  destruct (lift khw clr_rd d1 (hk ++ e1)) as [[b d2] e2]. cbn [snd] in *.
  rewrite app_assoc. exact H1.
Qed.

End Strobes.

Lemma lift_keeps_data_lines {A} khw (m : (list event -> reg -> Z) -> M A) :
  (forall h0 hw, keeps (data_lines_in_after h0) (m hw)) ->
  kkeeps (fun hk => data_lines_in (drv_log hk)) (lift khw m).
Proof.
  intros Hm d hk Hp. rewrite lift_run. cbn [snd].
  rewrite drv_log_app, drv_log_map.
  specialize (Hm (drv_log hk) (hw_at khw hk) d []).
  unfold data_lines_in_after in Hm. rewrite app_nil_r in Hm.
  apply Hm. exact Hp.
Qed.

Lemma lift_establishes_data_lines {A} khw
    (m : (list event -> reg -> Z) -> M A) :
  (forall h0 hw, establishes (data_lines_in_after h0) (m hw)) ->
  kestablishes (fun hk => data_lines_in (drv_log hk)) (lift khw m).
Proof.
  intros Hm d hk. rewrite lift_run. cbn [snd].
  rewrite drv_log_app, drv_log_map.
  exact (Hm (drv_log hk) (hw_at khw hk) d []).
Qed.

(** Stepping through the kernel services of [iobus_open] and
    [iobus_close], none of which touches the bus. *)
Ltac kkeeps_services :=
  repeat (cbv beta;
    match goal with
    | |- kkeeps _ (kbind _ _) => apply kkeeps_bind; [|intros]
    | |- kkeeps _ (kemit _) => apply kkeeps_kemit; exact I
    | |- kkeeps _ (kret _) => apply kkeeps_ret
    | |- kkeeps _ (if ?c then _ else _) => destruct c
    end).

Section Lifetime.

Variable hdr : iobus_h.
Variable gh : iobus_gpio_h.
Variable ioc : iobus_ioc_h.
Variable khw : list kevent -> kreg -> Z.
Variable request_irq_ret : Z.

Lemma open_tail_keeps (Q : list event -> Prop) :
  kkeeps (fun hk => Q (drv_log hk))
    (r <~ request_irq request_irq_ret (GPIO4_15 gh) ;;
     if negb (r =? 0) then kret (- EAGAIN)
     else
       tasklet_init ;;;
       init_waitqueue_head send_wq ;;;
       init_waitqueue_head recv_wq ;;;
       kret 0).
Proof.
  unfold request_irq, tasklet_init, init_waitqueue_head. kkeeps_services.
Qed.

Lemma iobus_close_keeps (Q : list event -> Prop) :
  kkeeps (fun hk => Q (drv_log hk)) (iobus_close gh).
Proof.
  unfold iobus_close, free_irq, tasklet_kill. kkeeps_services.
Qed.

Lemma iobus_open_bus_idle w0 devno :
  kstrobes_latched w0 khw ->
  kestablishes (bus_idle w0)
    (iobus_open hdr gh khw request_irq_ret devno devno).
Proof.
  intros Hl.
  assert (Hs : kestablishes (fun hk => strobes_idle w0 (drv_log hk))
                 (iobus_open hdr gh khw request_irq_ret devno devno)).
  { unfold iobus_open. rewrite Z.eqb_refl. cbn [negb].
    do 2 (apply kestablishes_bind_r; intros _).
    apply kestablishes_bind_l; [apply gpio_init_strobes; exact Hl|].
    intros _. apply kkeeps_bind.
    - apply lift_keeps_strobes; [exact Hl|].
      intros w hw Hw. apply hdlc_init_keeps_strobes. exact Hw.
    - intros _. apply open_tail_keeps. }
  assert (Hd : kestablishes (fun hk => data_lines_in (drv_log hk))
                 (iobus_open hdr gh khw request_irq_ret devno devno)).
  { unfold iobus_open. rewrite Z.eqb_refl. cbn [negb].
    do 3 (apply kestablishes_bind_r; intros _).
    apply kestablishes_bind_l.
    - apply lift_establishes_data_lines.
      intros h0 hw. apply hdlc_init_data_lines.
    - intros _. apply open_tail_keeps. }
  intros d hk. split; [apply Hs | apply Hd].
Qed.

Lemma after_open_keeps w0 cs r :
  kstrobes_latched w0 khw ->
  kkeeps (bus_idle w0)
    (if r =? 0
     then lift khw (fun hw => run_calls hdr ioc hw cs) ;;; iobus_close gh
     else kret r).
Proof.
  intros Hl.
  assert (Hs : kkeeps (fun hk => strobes_idle w0 (drv_log hk))
                 (lift khw (fun hw => run_calls hdr ioc hw cs) ;;;
                  iobus_close gh)).
  { apply kkeeps_bind.
    - apply lift_keeps_strobes; [exact Hl|].
      intros w hw Hw. apply run_calls_keeps_strobes. exact Hw.
    - intros _. apply iobus_close_keeps. }
  assert (Hd : kkeeps (fun hk => data_lines_in (drv_log hk))
                 (lift khw (fun hw => run_calls hdr ioc hw cs) ;;;
                  iobus_close gh)).
  { apply kkeeps_bind.
    - apply lift_keeps_data_lines.
      intros h0 hw. apply run_calls_keeps_data_lines.
    - intros _. apply iobus_close_keeps. }
  destruct (r =? 0).
  - intros d hk (H1 & H2). split; [apply Hs | apply Hd]; assumption.
  - apply kkeeps_ret.
Qed.

End Lifetime.

(** X21: whatever state the pins are in, opening the device leaves
    the bus idle, and it stays idle for the life of the open file.  On
    hardware that reads the two strobe bits back as stored, after
    [iobus_open] (whether or not the interrupt line was granted), and
    after any calls that follow and [iobus_close], both strobes are
    deasserted and the data lines are inputs. *)
Theorem lifetime_leaves_bus_idle hdr gh ioc khw request_irq_ret w0 devno
    cs d hk :
  kstrobes_latched w0 khw ->
  bus_idle w0
    (hk ++ snd (iobus_open hdr gh khw request_irq_ret devno devno d hk)) /\
  bus_idle w0
    (hk ++ snd (lifetime hdr gh ioc khw request_irq_ret devno devno cs d hk)).
Proof.
  intros Hl. split.
  - apply iobus_open_bus_idle. exact Hl.
  - revert d hk. unfold lifetime. apply kestablishes_bind_l.
    + apply iobus_open_bus_idle. exact Hl.
    + intros r. apply after_open_keeps. exact Hl.
Qed.

Lemma sim_khw_latched mem : kstrobes_latched 3 (sim_khw mem).
Proof. intros hk. unfold sim_khw, sim_hw, strobe_reg. split; reflexivity. Qed.

Lemma lifetime_leaves_bus_idle_witness :
  bus_idle 3
    ([] ++ snd (lifetime sim_h sim_gh sim_ioc (sim_khw (sim_mem 1 0)) 0 7 7
                  [CallIrq true; CallRead true 16 16;
                   CallWrite true user_frame 3 3] dev_frame [])).
Proof.
  apply (proj2 (lifetime_leaves_bus_idle sim_h sim_gh sim_ioc
                  (sim_khw (sim_mem 1 0)) 0 3 7
                  [CallIrq true; CallRead true 16 16;
                   CallWrite true user_frame 3 3] dev_frame []
                  (sim_khw_latched (sim_mem 1 0)))).
Defined.

(** ** The configuration registers *)

Lemma last_cfg_write_app b off h e :
  last_cfg_write b off (h ++ e) =
    match last_cfg_write b off e with
    | Some v => Some v
    | None => last_cfg_write b off h
    end.
Proof.
  induction h as [|x h IH]; cbn [app last_cfg_write].
  - destruct (last_cfg_write b off e); reflexivity.
  - rewrite IH. destruct (last_cfg_write b off e); reflexivity.
Qed.

Lemma cfg_reg_app b off v0 h e :
  cfg_reg b off v0 (h ++ e) = cfg_reg b off (cfg_reg b off v0 h) e.
Proof.
  unfold cfg_reg. rewrite last_cfg_write_app.
  destruct (last_cfg_write b off e); reflexivity.
Qed.

Lemma last_cfg_write_drv b off e : last_cfg_write b off (map Drv e) = None.
Proof.
  induction e as [|x e IH]; [reflexivity|].
  cbn [map last_cfg_write]. rewrite IH. reflexivity.
Qed.

Lemma bank_eqb_eq b b' : bank_eqb b b' = true <-> b = b'.
Proof. destruct b, b'; cbn; split; congruence. Qed.

Section ConfigBits.

Variable khw : list kevent -> kreg -> Z.
Variable b : bank.
Variable off v0 i : Z.
Hypothesis latched : cfg_latched b off v0 khw.
Hypothesis bit : 0 <= i < 32.

Lemma iomux_write_keeps_bit v off' :
  b <> iomux_regs ->
  kkeeps (cfg_bit_set b off v0 i) (iowrite32_at v iomux_regs off').
Proof.
  intros Hb d hk Hp. unfold cfg_bit_set in *.
  cbn [iowrite32_at kemit snd]. rewrite cfg_reg_app.
  unfold cfg_reg at 1. cbn [last_cfg_write].
  destruct (bank_eqb b iomux_regs) eqn:E.
  - apply bank_eqb_eq in E. contradiction.
  - exact Hp.
Qed.

Lemma set_bits_keeps_bit bits b' off' :
  kkeeps (cfg_bit_set b off v0 i) (set_bits_at khw bits b' off').
Proof.
  intros d hk Hp. unfold cfg_bit_set in *.
  cbv [set_bits_at kbind ioread32_at iowrite32_at kemit snd].
  rewrite cfg_reg_app. unfold cfg_reg at 1. cbn [app last_cfg_write].
  destruct (bank_eqb b b' && (off =? off')) eqn:E; [|exact Hp].
  apply andb_true_iff in E. destruct E as (Eb & Eo).
  apply bank_eqb_eq in Eb. apply Z.eqb_eq in Eo. subst b' off'.
  rewrite wrap32_bit, Z.lor_spec, wrap32_bit by exact bit.
  rewrite latched, Hp. apply orb_true_r.
Qed.

Lemma set_bits_sets_bit bits :
  Z.testbit bits i = true ->
  kestablishes (cfg_bit_set b off v0 i) (set_bits_at khw bits b off).
Proof.
  intros Hb d hk. unfold cfg_bit_set.
  cbv [set_bits_at kbind ioread32_at iowrite32_at kemit snd].
  rewrite cfg_reg_app. unfold cfg_reg at 1. cbn [app last_cfg_write].
  replace (bank_eqb b b) with true by (destruct b; reflexivity).
  rewrite Z.eqb_refl. cbn [andb].
  rewrite wrap32_bit, Z.lor_spec by exact bit.
  rewrite Hb. reflexivity.
Qed.

Lemma lift_keeps_bit {A} (m : (list event -> reg -> Z) -> M A) :
  kkeeps (cfg_bit_set b off v0 i) (lift khw m).
Proof.
  intros d hk Hp. unfold cfg_bit_set in *. rewrite lift_run. cbn [snd].
  rewrite cfg_reg_app. unfold cfg_reg at 1.
  rewrite last_cfg_write_drv. exact Hp.
Qed.

End ConfigBits.

(** Stepping through [gpio_init]: every step keeps a bit that is set;
    and from the read-modify-write that sets a mask on, its bits are
    set. *)
Ltac keeps_bit Hl Hi Hb :=
  repeat (cbv beta;
    match goal with
    | |- kkeeps _ (kbind _ _) => apply kkeeps_bind; [|intros]
    | |- kkeeps _ (iowrite32_at _ iomux_regs _) =>
        apply iomux_write_keeps_bit; first [exact Hl | exact Hi | exact Hb]
    | |- kkeeps _ (set_bits_at _ _ _ _) =>
        apply set_bits_keeps_bit; first [exact Hl | exact Hi]
    | |- kkeeps _ (lift _ _) => apply lift_keeps_bit
    end).

Ltac sets_bit Hl Hi Hb Hm :=
  repeat (cbv beta;
    match goal with
    | |- kestablishes _ (kbind (set_bits_at _ _ _ _) _) =>
        first
          [ apply kestablishes_bind_l;
            [ apply set_bits_sets_bit; first [exact Hl | exact Hi | exact Hm]
            | intros; keeps_bit Hl Hi Hb ]
          | apply kestablishes_bind_r; intros ]
    | |- kestablishes _ (kbind _ _) => apply kestablishes_bind_r; intros
    end).

(** X22: [gpio_init] only ever sets bits in the GPIO configuration
    registers.  For a register outside the pad multiplexer that reads
    back as written, every bit set before [gpio_init] is set after it,
    and so is every bit of each mask [gpio_init] applies to that
    register: the second read-modify-write of GPIO1_GDIR keeps what
    the first one set. *)
Theorem gpio_init_only_sets_bits gh khw b off v0 i d hk :
  b <> iomux_regs ->
  cfg_latched b off v0 khw ->
  0 <= i < 32 ->
  cfg_bit_set b off v0 i hk \/
  (exists mask, In (b, off, mask) (gpio_init_masks gh) /\
                Z.testbit mask i = true) ->
  cfg_bit_set b off v0 i (hk ++ snd (gpio_init gh khw d hk)).
Proof.
  intros Hb Hl Hi [Hp|(mask & Hin & Hm)].
  - revert d hk Hp. change (kkeeps (cfg_bit_set b off v0 i) (gpio_init gh khw)).
    unfold gpio_init. keeps_bit Hl Hi Hb.
  - revert d hk.
    change (kestablishes (cfg_bit_set b off v0 i) (gpio_init gh khw)).
    unfold gpio_init_masks in Hin. cbn [In] in Hin.
    destruct Hin as [E|[E|[E|[E|[E|[]]]]]]; injection E as Eb Eo Em;
      subst b off mask; unfold gpio_init; sets_bit Hl Hi Hb Hm.
Qed.

Lemma sim_khw_cfg_latched mem b off : cfg_latched b off 0 (sim_khw mem).
Proof. intros hk. reflexivity. Qed.

Lemma gpio_init_only_sets_bits_witness :
  cfg_bit_set gpio1_regs (GPIO1_GDIR sim_gh) 0 1
    ([] ++ snd (gpio_init sim_gh (sim_khw (sim_mem 0 0)) dev_open [])) /\
  cfg_bit_set gpio1_regs (GPIO1_GDIR sim_gh) 0 8
    ([] ++ snd (gpio_init sim_gh (sim_khw (sim_mem 0 0)) dev_open [])).
Proof.
  split.
  - apply (gpio_init_only_sets_bits sim_gh (sim_khw (sim_mem 0 0))
             gpio1_regs (GPIO1_GDIR sim_gh) 0 1 dev_open []).
    + discriminate.
    + apply sim_khw_cfg_latched.
    + lia.
    + right. exists (GPIO1_DIR_RDWR_OUT sim_gh). split; [|reflexivity].
      cbn. tauto.
  - apply (gpio_init_only_sets_bits sim_gh (sim_khw (sim_mem 0 0))
             gpio1_regs (GPIO1_GDIR sim_gh) 0 8 dev_open []).
    + discriminate.
    + apply sim_khw_cfg_latched.
    + lia.
    + right. exists 0x100. split; [|reflexivity].
      cbn. tauto.
Defined.

(** ** What [iobus_open] does, by outcome *)





